(** * virnetmessage: length-prefixed, XDR-framed RPC message codec

    A shallow embedding of [src/rpc/virnetmessage.c].  C integers are
    mathematical integers with their wrap-around written out ([size_t] is 64
    bits wide, [unsigned int] 32 bits); a buffer is a list of bytes; a
    pointer to a message is an address in a finite map of message records;
    C undefined behaviour and loops that do not end are explicit outcomes. *)

From Stdlib Require Import ZArith Lia List.
From Stdlib.Strings Require Import Byte.
From stdpp Require Import base option list gmap strings.

Local Open Scope Z_scope.

(** ** Machine integers *)

(** [unsigned int]: arithmetic modulo 2^32. *)
Definition u32 (z : Z) : Z := z mod 2 ^ 32.

(** [size_t]: arithmetic modulo 2^64. *)
Definition usize (z : Z) : Z := z mod 2 ^ 64.

(** ** Bytes and the big-endian 32-bit word *)

Definition Z_of_byte (b : byte) : Z := Z.of_N (Byte.to_N b).

Definition byte_of_Z (z : Z) : byte :=
  match Byte.of_N (Z.to_N (z mod 256)) with
  | Some b => b
  | None => x00
  end.

(** The four bytes [htonl] lays down for a 32-bit word, most significant
    first. *)
Definition be32_bytes (v : Z) : list byte :=
  [ byte_of_Z (v / 2 ^ 24); byte_of_Z (v / 2 ^ 16);
    byte_of_Z (v / 2 ^ 8); byte_of_Z v ].

(** The 32-bit word [ntohl] reads from four bytes. *)
Definition be32_value (bs : list byte) : option Z :=
  match bs with
  | [b0; b1; b2; b3] =>
      Some (Z_of_byte b0 * 2 ^ 24 + Z_of_byte b1 * 2 ^ 16
            + Z_of_byte b2 * 2 ^ 8 + Z_of_byte b3)
  | _ => None
  end.

(** ** Outcomes of a C computation *)

(** A computation returns a value, runs into undefined behaviour (an access
    outside an allocation, a dereference of a pointer to nothing), or is cut
    off because the fuel given to one of its loops ran out. *)
Inductive exec (A : Type) : Type :=
  | Val (a : A)
  | Undef
  | OutOfFuel.
Arguments Val {A} a.
Arguments Undef {A}.
Arguments OutOfFuel {A}.

Definition exec_bind {A B} (e : exec A) (k : A -> exec B) : exec B :=
  match e with
  | Val a => k a
  | Undef => Undef
  | OutOfFuel => OutOfFuel
  end.

Notation "'let*' p ':=' e 'in' k" := (exec_bind e (fun p => k))
  (at level 10, p pattern, e at level 200, k at level 200).

(** ** Memory blocks *)

(** [memcpy (dst + off, src, len)]: undefined when the destination range
    leaves the allocation. *)
Definition mem_store (mem : list byte) (off : Z) (src : list byte)
  : exec (list byte) :=
  if bool_decide (0 <= off /\ off + Z.of_nat (length src)
                               <= Z.of_nat (length mem))
  then Val (take (Z.to_nat off) mem ++ src
            ++ drop (Z.to_nat off + length src) mem)
  else Undef.

(** Read of [len] bytes at [mem + off]: undefined outside the allocation. *)
Definition mem_load (mem : list byte) (off len : Z) : exec (list byte) :=
  if bool_decide (0 <= off /\ 0 <= len /\ off + len <= Z.of_nat (length mem))
  then Val (take (Z.to_nat len) (drop (Z.to_nat off) mem))
  else Undef.

(** ** The XDR memory stream

    The primitives of the XDR library the codec calls ([xdrmem_create],
    [xdr_u_int], [xdr_getpos], [xdr_setpos]), over a block of memory that
    the stream shares with the message it was created on: [x_mem] is the
    whole buffer, [x_base] the offset the stream starts at, [x_size] the
    number of bytes it may use and [x_pos] how many it has used. *)

Inductive xdr_op : Type := XDR_ENCODE | XDR_DECODE.

Record XDR : Type := mkXDR {
  x_op : xdr_op;
  x_mem : list byte;
  x_base : Z;
  x_size : Z;
  x_pos : Z
}.

(** [xdrmem_create (&xdr, addr, size, op)]; [size] is an [unsigned int]. *)
Definition xdrmem_create (mem : list byte) (addr size : Z) (op : xdr_op)
  : XDR :=
  {| x_op := op; x_mem := mem; x_base := addr; x_size := u32 size;
     x_pos := 0 |}.

Definition xdr_getpos (xdr : XDR) : Z := x_pos xdr.

Definition xdr_setpos (xdr : XDR) (pos : Z) : bool * XDR :=
  if bool_decide (pos <= x_size xdr)
  then (true, {| x_op := x_op xdr; x_mem := x_mem xdr; x_base := x_base xdr;
                 x_size := x_size xdr; x_pos := pos |})
  else (false, xdr).

(** [xdr_u_int (&xdr, &v)]: fails when fewer than four bytes are left in the
    stream; otherwise writes [v] (when encoding) or reads it (when decoding)
    as a big-endian word and moves four bytes on.  The value comes back with
    the stream, as the C function passes it by reference. *)
Definition xdr_u_int (xdr : XDR) (v : Z) : exec (bool * XDR * Z) :=
  if bool_decide (x_size xdr - x_pos xdr < 4) then Val (false, xdr, v)
  else
    match x_op xdr with
    | XDR_ENCODE =>
        let* mem := mem_store (x_mem xdr) (x_base xdr + x_pos xdr)
                              (be32_bytes (u32 v)) in
        Val (true, {| x_op := x_op xdr; x_mem := mem; x_base := x_base xdr;
                      x_size := x_size xdr; x_pos := x_pos xdr + 4 |}, v)
    | XDR_DECODE =>
        let* bs := mem_load (x_mem xdr) (x_base xdr + x_pos xdr) 4 in
        match be32_value bs with
        | Some w =>
            Val (true, {| x_op := x_op xdr; x_mem := x_mem xdr;
                          x_base := x_base xdr; x_size := x_size xdr;
                          x_pos := x_pos xdr + 4 |}, w)
        | None => Undef
        end
    end.

(** A marshaller ([xdrproc_t]) applied to its data: it works on the stream
    and reports success or failure. *)
Definition xdrproc_t : Type := XDR -> exec (bool * XDR).

(** A stream that lies inside its block of memory. *)
Definition xdr_valid (xdr : XDR) : Prop :=
  0 <= x_base xdr /\ 0 <= x_pos xdr <= x_size xdr /\
  x_base xdr + x_size xdr <= Z.of_nat (length (x_mem xdr)).

(** What a stream keeps across the calls made on it: its place, its size and
    the size of the memory under it, with the position inside the stream. *)
Definition xdr_same_frame (xdr xdr' : XDR) : Prop :=
  x_op xdr' = x_op xdr /\ x_base xdr' = x_base xdr /\
  x_size xdr' = x_size xdr /\ length (x_mem xdr') = length (x_mem xdr) /\
  0 <= x_pos xdr' <= x_size xdr.

(** A marshaller that respects the stream it is given: on a valid stream it
    returns, and leaves a stream in the same frame. *)
Definition xdr_proc_ok (filter : xdrproc_t) : Prop :=
  forall xdr, xdr_valid xdr ->
    exists ok xdr', filter xdr = Val (ok, xdr') /\ xdr_same_frame xdr xdr'.

(** ** Data model *)

(** Modelled from the spec: the header structure of virnetprotocol.x, which
    is generated outside src/ (program id, program version, procedure,
    message type discriminant, serial number, status). *)
Record virNetMessageHeader : Type := mkHeader {
  prog : Z;
  vers : Z;
  proc : Z;
  type : Z;
  serial : Z;
  status : Z
}.

Definition header_zero : virNetMessageHeader :=
  {| prog := 0; vers := 0; proc := 0; type := 0; serial := 0; status := 0 |}.

(** Addresses of message records; the null pointer is [None]. *)
Definition loc : Type := positive.

(** [struct virNetMessage], with the fields the source uses.  A null
    [buffer] or [fds] array is the empty list; [cb] is the address of the
    destructor callback, if any. *)
Record virNetMessage : Type := mkMessage {
  tracked : bool;
  buffer : list byte;
  bufferLength : Z;
  bufferOffset : Z;
  header : virNetMessageHeader;
  cb : option N;
  opaque : Z;
  nfds : Z;
  fds : list Z;
  donefds : Z;
  next : option loc
}.

Definition set_buffer (v : list byte) (m : virNetMessage) : virNetMessage :=
  {| tracked := tracked m; buffer := v; bufferLength := bufferLength m;
     bufferOffset := bufferOffset m; header := header m; cb := cb m;
     opaque := opaque m; nfds := nfds m; fds := fds m; donefds := donefds m;
     next := next m |}.

Definition set_bufferLength (v : Z) (m : virNetMessage) : virNetMessage :=
  {| tracked := tracked m; buffer := buffer m; bufferLength := v;
     bufferOffset := bufferOffset m; header := header m; cb := cb m;
     opaque := opaque m; nfds := nfds m; fds := fds m; donefds := donefds m;
     next := next m |}.

Definition set_bufferOffset (v : Z) (m : virNetMessage) : virNetMessage :=
  {| tracked := tracked m; buffer := buffer m; bufferLength := bufferLength m;
     bufferOffset := v; header := header m; cb := cb m;
     opaque := opaque m; nfds := nfds m; fds := fds m; donefds := donefds m;
     next := next m |}.

Definition set_nfds (v : Z) (m : virNetMessage) : virNetMessage :=
  {| tracked := tracked m; buffer := buffer m; bufferLength := bufferLength m;
     bufferOffset := bufferOffset m; header := header m; cb := cb m;
     opaque := opaque m; nfds := v; fds := fds m; donefds := donefds m;
     next := next m |}.

Definition set_fds (v : list Z) (m : virNetMessage) : virNetMessage :=
  {| tracked := tracked m; buffer := buffer m; bufferLength := bufferLength m;
     bufferOffset := bufferOffset m; header := header m; cb := cb m;
     opaque := opaque m; nfds := nfds m; fds := v; donefds := donefds m;
     next := next m |}.

Definition set_donefds (v : Z) (m : virNetMessage) : virNetMessage :=
  {| tracked := tracked m; buffer := buffer m; bufferLength := bufferLength m;
     bufferOffset := bufferOffset m; header := header m; cb := cb m;
     opaque := opaque m; nfds := nfds m; fds := fds m; donefds := v;
     next := next m |}.

Definition set_tracked (v : bool) (m : virNetMessage) : virNetMessage :=
  {| tracked := v; buffer := buffer m; bufferLength := bufferLength m;
     bufferOffset := bufferOffset m; header := header m; cb := cb m;
     opaque := opaque m; nfds := nfds m; fds := fds m; donefds := donefds m;
     next := next m |}.

Definition set_next (v : option loc) (m : virNetMessage) : virNetMessage :=
  {| tracked := tracked m; buffer := buffer m; bufferLength := bufferLength m;
     bufferOffset := bufferOffset m; header := header m; cb := cb m;
     opaque := opaque m; nfds := nfds m; fds := fds m; donefds := donefds m;
     next := v |}.

(** What [memset (msg, 0, sizeof ( *msg))] leaves. *)
Definition message_zero : virNetMessage :=
  {| tracked := false; buffer := []; bufferLength := 0; bufferOffset := 0;
     header := header_zero; cb := None; opaque := 0; nfds := 0; fds := [];
     donefds := 0; next := None |}.

(** ** Errors *)

(** The arguments of one [virReportError] call: the error code, the format
    of the message and the values formatted into it. *)
Record virErrorReport : Type := mkReport {
  report_code : Z;
  report_format : string;
  report_args : list Z
}.

(** A function of the codec returns 0, or -1 after it has reported an
    error. *)
Inductive retval : Type :=
  | Success
  | Failure (e : virErrorReport).

Definition return_value (s : retval) : Z :=
  match s with Success => 0 | Failure _ => -1 end.

(** ** Constants declared outside src/ *)

(** Modelled from the spec: LEN_SIZE = 4, the size of the length word. *)
Definition VIR_NET_MESSAGE_LEN_MAX : Z := 4.

(** Modelled from the spec: FDS_MAX = 32. *)
Definition VIR_NET_MESSAGE_NUM_FDS_MAX : Z := 32.

(** The remaining constants of virnetprotocol.x and of the error interface
    are parameters of the development. *)
Class Constants : Type := {
  VIR_NET_MESSAGE_INITIAL : Z;
  VIR_NET_MESSAGE_MAX : Z;
  VIR_NET_MESSAGE_HEADER_XDR_LEN : Z;
  VIR_ERR_OK : Z;
  VIR_ERR_INTERNAL_ERROR : Z;
  VIR_ERR_RPC : Z;
  VIR_FROM_RPC : Z;
  VIR_ERR_ERROR : Z
}.

(** The record a captured error is saved in ([struct virNetMessageError]),
    with the fields the source assigns; an absent string is [None]. *)
Module virNetMessageError.
Record t : Type := mk {
  code : Z;
  domain : Z;
  message : option string;
  level : Z;
  str1 : option string;
  str2 : option string;
  str3 : option string;
  int1 : Z;
  int2 : Z
}.

(** What [memset (rerr, 0, sizeof ( *rerr))] leaves. *)
Definition zero : t :=
  {| code := 0; domain := 0; message := None; level := 0; str1 := None;
     str2 := None; str3 := None; int1 := 0; int2 := 0 |}.
End virNetMessageError.

(** The thread-local last error ([virError]), with the fields the source
    reads. *)
Module virError.
Record t : Type := mk {
  code : Z;
  domain : Z;
  message : option string;
  level : Z;
  str1 : option string;
  str2 : option string;
  str3 : option string;
  int1 : Z;
  int2 : Z
}.
End virError.

(** ** Effects on the outside world *)

Inductive freed : Type :=
  | FreedFds
  | FreedBuffer
  | FreedMessage (l : loc).

(** What a lifecycle function does besides changing the record, in order:
    a descriptor closed, the destructor callback called, memory released. *)
Inductive event : Type :=
  | EvClose (fd : Z)
  | EvCallback (f : N) (msg : loc) (cookie : Z)
  | EvFree (what : freed).

(** Modelled from the spec: the forced close of virfile.h, declared outside
    src/.  It closes an open descriptor and puts the sentinel -1 in its
    place; a negative descriptor is left alone. *)
Definition VIR_FORCE_CLOSE (fd : Z) : Z * list event :=
  if bool_decide (fd < 0) then (fd, []) else (-1, [EvClose fd]).

(** A message whose cursors lie inside its buffer: [bufferOffset] is within
    [bufferLength], which is within the allocation and within what a stream
    can be told of it (its size is an [unsigned int]). *)
Definition buffer_ok (msg : virNetMessage) : Prop :=
  0 <= bufferOffset msg <= bufferLength msg /\
  bufferLength msg <= Z.of_nat (length (buffer msg)) /\
  bufferLength msg < 2 ^ 32.

(** The room left in the buffer after the cursor. *)
Definition buffer_space (msg : virNetMessage) : Z :=
  bufferLength msg - bufferOffset msg.

(** The descriptor array holds the [nfds] descriptors it is said to. *)
Definition fds_ok (msg : virNetMessage) : Prop :=
  0 <= nfds msg <= Z.of_nat (length (fds msg)).

(** The closes a run of [VIR_FORCE_CLOSE] over the descriptors [a] makes. *)
Definition close_events (a : list Z) : list event :=
  flat_map (fun fd => snd (VIR_FORCE_CLOSE fd)) a.

Definition is_callback (ev : event) : bool :=
  match ev with EvCallback _ _ _ => true | _ => false end.

(** One call of an encoder on a message whose header has been encoded. *)
Inductive encode_op : Type :=
  | OpNumFDs
  | OpPayload (filter : xdrproc_t)
  | OpPayloadRaw (data : option (list byte)) (len : Z).

Section Codec.
Context `{Constants}.

(** The bytes found in memory that has just been allocated: by position,
    whatever they are. *)
Variable fresh_mem : nat -> byte.

(** The generated marshaller of the header, applied to a header. *)
Variable xdr_virNetMessageHeader : virNetMessageHeader -> xdrproc_t.

(** The code behind each destructor callback: what it does to the message
    it is called on, given the address of the message and the cookie. *)
Variable callbacks : N -> loc -> Z -> virNetMessage -> virNetMessage.

(** [VIR_REALLOC_N (buf, n)]: the block keeps its first bytes; the bytes
    it gains are not initialised.  The allocator aborts rather than
    fail. *)
Definition VIR_REALLOC_N (buf : list byte) (n : Z) : list byte :=
  take (Z.to_nat n) buf
  ++ map fresh_mem (seq (length buf) (Z.to_nat n - length buf)).

(** *** Lifecycle *)

Definition virNetMessageNew (tracked : bool) : virNetMessage :=
  set_tracked tracked message_zero.

(** [for (i = 0; i < msg->nfds; i++) VIR_FORCE_CLOSE (msg->fds[i]);] with
    [count] rounds left. *)
Fixpoint close_fds (count i : nat) (a : list Z)
  : exec (list Z * list event) :=
  match count with
  | O => Val (a, [])
  | S count' =>
      match a !! i with
      | None => Undef
      | Some fd =>
          let '(fd', ev) := VIR_FORCE_CLOSE fd in
          let* (a', evs) := close_fds count' (S i) (<[i := fd']> a) in
          Val (a', ev ++ evs)
      end
  end.

Definition virNetMessageClearFDs (msg : virNetMessage)
  : exec (virNetMessage * list event) :=
  let* (_, evs) := close_fds (Z.to_nat (nfds msg)) 0 (fds msg) in
  let msg := set_donefds 0 msg in
  let msg := set_nfds 0 msg in
  let msg := set_fds [] msg in
  Val (msg, evs ++ [EvFree FreedFds]).

Definition virNetMessageClearPayload (msg : virNetMessage)
  : exec (virNetMessage * list event) :=
  let* (msg, evs) := virNetMessageClearFDs msg in
  let msg := set_bufferOffset 0 msg in
  let msg := set_bufferLength 0 msg in
  let msg := set_buffer [] msg in
  Val (msg, evs ++ [EvFree FreedBuffer]).

Definition virNetMessageClear (msg : virNetMessage)
  : exec (virNetMessage * list event) :=
  let tracked := tracked msg in
  let* (_, evs) := virNetMessageClearPayload msg in
  let msg := message_zero in
  let msg := set_tracked tracked msg in
  Val (msg, evs).

(** [virNetMessageFree], on the store of messages. *)
Definition virNetMessageFree (h : gmap loc virNetMessage)
    (msg : option loc)
  : exec (gmap loc virNetMessage * list event) :=
  match msg with
  | None => Val (h, [])
  | Some l =>
      match h !! l with
      | None => Undef
      | Some m =>
          let '(m, ev_cb) :=
            match cb m with
            | Some f => (callbacks f l (opaque m) m,
                         [EvCallback f l (opaque m)])
            | None => (m, [])
            end in
          let* (_, evs) := virNetMessageClearPayload m in
          Val (delete l h, ev_cb ++ evs ++ [EvFree (FreedMessage l)])
      end
  end.

(** *** Transmit queue *)

(** [while (tmp->next) tmp = tmp->next;] *)
Fixpoint queue_last (fuel : nat) (h : gmap loc virNetMessage) (tmp : loc)
  : exec loc :=
  match fuel with
  | O => OutOfFuel
  | S fuel' =>
      match h !! tmp with
      | None => Undef
      | Some m =>
          match next m with
          | Some tmp' => queue_last fuel' h tmp'
          | None => Val tmp
          end
      end
  end.

(** [virNetMessageQueuePush (&queue, msg)]: the store and the head of the
    queue afterwards. *)
Definition virNetMessageQueuePush (fuel : nat)
    (h : gmap loc virNetMessage) (queue : option loc) (msg : option loc)
  : exec (gmap loc virNetMessage * option loc) :=
  match queue with
  | Some tmp =>
      let* tmp := queue_last fuel h tmp in
      match h !! tmp with
      | None => Undef
      | Some m => Val (<[tmp := set_next msg m]> h, queue)
      end
  | None => Val (h, msg)
  end.

(** [virNetMessageQueueServe (&queue)]: the store, the head of the queue
    afterwards and the message returned. *)
Definition virNetMessageQueueServe
    (h : gmap loc virNetMessage) (queue : option loc)
  : exec (gmap loc virNetMessage * option loc * option loc) :=
  match queue with
  | Some tmp =>
      match h !! tmp with
      | None => Undef
      | Some m => Val (<[tmp := set_next None m]> h, next m, Some tmp)
      end
  | None => Val (h, None, None)
  end.

(** *** Frame codec *)

(** The stream shares its memory with the message: what was written
    through the stream is in [msg->buffer]. *)
Definition sync_buffer (xdr : XDR) (msg : virNetMessage) : virNetMessage :=
  set_buffer (x_mem xdr) msg.

Definition virNetMessageDecodeLength (msg : virNetMessage)
  : exec (retval * virNetMessage) :=
  let xdr := xdrmem_create (buffer msg) 0 (bufferLength msg) XDR_DECODE in
  let* (ok, xdr, len) := xdr_u_int xdr 0 in
  if negb ok then
    Val (Failure (mkReport VIR_ERR_RPC
                    "Unable to decode message length" []), msg)
  else
    let msg := set_bufferOffset (xdr_getpos xdr) msg in
    if bool_decide (len < VIR_NET_MESSAGE_LEN_MAX) then
      Val (Failure (mkReport VIR_ERR_RPC
             "packet %d bytes received from server too small, want %d"
             [len; VIR_NET_MESSAGE_LEN_MAX]), msg)
    else
      (* Length includes length word - adjust to real length to read. *)
      let len := u32 (len - VIR_NET_MESSAGE_LEN_MAX) in
      if bool_decide (len > VIR_NET_MESSAGE_MAX) then
        Val (Failure (mkReport VIR_ERR_RPC
               "packet %d bytes received from server too large, want %d"
               [len; VIR_NET_MESSAGE_MAX]), msg)
      else
        let msg := set_bufferLength (usize (bufferLength msg + len)) msg in
        let msg := set_buffer
                     (VIR_REALLOC_N (buffer msg) (bufferLength msg)) msg in
        Val (Success, msg).

Definition virNetMessageEncodeHeader (msg : virNetMessage)
  : exec (retval * virNetMessage) :=
  let len := 0 in
  let msg := set_bufferLength
               (usize (VIR_NET_MESSAGE_INITIAL + VIR_NET_MESSAGE_LEN_MAX))
               msg in
  let msg := set_buffer
               (VIR_REALLOC_N (buffer msg) (bufferLength msg)) msg in
  let msg := set_bufferOffset 0 msg in
  let xdr := xdrmem_create (buffer msg) 0 (bufferLength msg) XDR_ENCODE in
  (* The real value is filled in shortly *)
  let* (ok, xdr, len) := xdr_u_int xdr len in
  if negb ok then
    Val (Failure (mkReport VIR_ERR_RPC
                    "Unable to encode message length" []),
         sync_buffer xdr msg)
  else
    let* (ok, xdr) := xdr_virNetMessageHeader (header msg) xdr in
    if negb ok then
      Val (Failure (mkReport VIR_ERR_RPC
                      "Unable to encode message header" []),
           sync_buffer xdr msg)
    else
      let len := xdr_getpos xdr in
      let '(_, xdr) := xdr_setpos xdr 0 in
      let* (ok, xdr, len) := xdr_u_int xdr len in
      if negb ok then
        Val (Failure (mkReport VIR_ERR_RPC
                        "Unable to re-encode message length" []),
             sync_buffer xdr msg)
      else
        let msg := sync_buffer xdr msg in
        let msg := set_bufferOffset (usize (bufferOffset msg + len)) msg in
        Val (Success, msg).

(** *** Descriptor count *)

Definition virNetMessageEncodeNumFDs (msg : virNetMessage)
  : exec (retval * virNetMessage) :=
  let numFDs := u32 (nfds msg) in
  let xdr := xdrmem_create (buffer msg) (bufferOffset msg)
               (usize (bufferLength msg - bufferOffset msg)) XDR_ENCODE in
  if bool_decide (numFDs > VIR_NET_MESSAGE_NUM_FDS_MAX) then
    Val (Failure (mkReport VIR_ERR_RPC
                    "Too many FDs to send %d, expected %d maximum"
                    [numFDs; VIR_NET_MESSAGE_NUM_FDS_MAX]), msg)
  else
    let* (ok, xdr, numFDs) := xdr_u_int xdr numFDs in
    if negb ok then
      Val (Failure (mkReport VIR_ERR_RPC
                      "Unable to encode number of FDs" []),
           sync_buffer xdr msg)
    else
      let msg := sync_buffer xdr msg in
      let msg := set_bufferOffset
                   (usize (bufferOffset msg + xdr_getpos xdr)) msg in
      Val (Success, msg).

(** [g_new0 (int, n)] followed by
    [for (i = 0; i < msg->nfds; i++) msg->fds[i] = -1;] *)
Definition new_fd_slots (n : Z) : list Z :=
  foldl (fun a i => <[i := -1]> a)
        (replicate (Z.to_nat n) 0) (seq 0 (Z.to_nat n)).

Definition virNetMessageDecodeNumFDs (msg : virNetMessage)
  : exec (retval * virNetMessage) :=
  let xdr := xdrmem_create (buffer msg) (bufferOffset msg)
               (usize (bufferLength msg - bufferOffset msg)) XDR_DECODE in
  let* (ok, xdr, numFDs) := xdr_u_int xdr 0 in
  if negb ok then
    Val (Failure (mkReport VIR_ERR_RPC
                    "Unable to decode number of FDs" []), msg)
  else
    let msg := set_bufferOffset
                 (usize (bufferOffset msg + xdr_getpos xdr)) msg in
    if bool_decide (numFDs > VIR_NET_MESSAGE_NUM_FDS_MAX) then
      Val (Failure (mkReport VIR_ERR_RPC
                      "Received too many FDs %d, expected %d maximum"
                      [numFDs; VIR_NET_MESSAGE_NUM_FDS_MAX]), msg)
    else
      let msg :=
        if bool_decide (nfds msg = 0) then
          let msg := set_nfds numFDs msg in
          set_fds (new_fd_slots (nfds msg)) msg
        else msg in
      Val (Success, msg).

(** *** Payload codec *)

(** The end both payload encoders share: the length word at the start of
    the buffer is encoded again, through a stream of
    [VIR_NET_MESSAGE_HEADER_XDR_LEN] bytes, and the cursors are set for
    transmission. *)
Definition reencode_length (msg : virNetMessage)
  : exec (retval * virNetMessage) :=
  let xdr := xdrmem_create (buffer msg) 0 VIR_NET_MESSAGE_HEADER_XDR_LEN
               XDR_ENCODE in
  let msglen := u32 (bufferOffset msg) in
  let* (ok, xdr, msglen) := xdr_u_int xdr msglen in
  if negb ok then
    Val (Failure (mkReport VIR_ERR_RPC
                    "Unable to encode message length" []),
         sync_buffer xdr msg)
  else
    let msg := sync_buffer xdr msg in
    let msg := set_bufferLength (bufferOffset msg) msg in
    let msg := set_bufferOffset 0 msg in
    Val (Success, msg).

(** The body of the loop of [virNetMessageEncodePayload], up to the
    reallocation: the payload capacity is doubled, or the function leaves
    for its error label ([None]). *)
Definition encode_payload_grow (msg : virNetMessage)
  : option virNetMessage :=
  let newlen := u32 (usize (bufferLength msg - VIR_NET_MESSAGE_LEN_MAX)) in
  let newlen := u32 (newlen * 2) in
  if bool_decide (newlen > VIR_NET_MESSAGE_MAX) then None
  else
    let msg := set_bufferLength
                 (u32 (newlen + VIR_NET_MESSAGE_LEN_MAX)) msg in
    Some (set_buffer (VIR_REALLOC_N (buffer msg) (bufferLength msg)) msg).

(** The stream a payload marshaller is given: what is left of the buffer
    after [bufferOffset]. *)
Definition payload_stream (msg : virNetMessage) : XDR :=
  xdrmem_create (buffer msg) (bufferOffset msg)
    (usize (bufferLength msg - bufferOffset msg)) XDR_ENCODE.

(** [while (!( *filter) (&xdr, data, 0)) { ... }]: the loop ends at the
    error label ([inl], with the message as it is then) or with the
    payload encoded ([inr], with the stream that holds it). *)
Fixpoint encode_payload_loop (fuel : nat) (filter : xdrproc_t)
    (msg : virNetMessage) (xdr : XDR)
  : exec (virNetMessage + virNetMessage * XDR) :=
  match fuel with
  | O => OutOfFuel
  | S fuel' =>
      let* (ok, xdr) := filter xdr in
      let msg := sync_buffer xdr msg in
      if ok then Val (inr (msg, xdr))
      else
        match encode_payload_grow msg with
        | None => Val (inl msg)
        | Some msg =>
            encode_payload_loop fuel' filter msg (payload_stream msg)
        end
  end.

Definition virNetMessageEncodePayload (fuel : nat) (msg : virNetMessage)
    (filter : xdrproc_t)
  : exec (retval * virNetMessage) :=
  let xdr := payload_stream msg in
  (* Try to encode the payload. If the buffer is too small increase it. *)
  let* r := encode_payload_loop fuel filter msg xdr in
  match r with
  | inl msg =>
      Val (Failure (mkReport VIR_ERR_RPC
                      "Unable to encode message payload" []), msg)
  | inr (msg, xdr) =>
      (* Get the length stored in buffer. *)
      let msg := set_bufferOffset
                   (usize (bufferOffset msg + xdr_getpos xdr)) msg in
      (* Re-encode the length word. *)
      reencode_length msg
  end.

(** [data] is the memory readable at the pointer given ([None] for a null
    pointer), [len] the length given with it. *)
Definition virNetMessageEncodePayloadRaw (msg : virNetMessage)
    (data : option (list byte)) (len : Z)
  : exec (retval * virNetMessage) :=
  match data with
  | Some bytes =>
      if bool_decide (len > 0) then
        let grown : virErrorReport + virNetMessage :=
          if bool_decide (usize (bufferLength msg - bufferOffset msg)
                          < len) then
            if bool_decide
                 (usize (bufferOffset msg + len)
                  > VIR_NET_MESSAGE_MAX + VIR_NET_MESSAGE_LEN_MAX) then
              inl (mkReport VIR_ERR_RPC
                     ("Stream data too long to send "
                      ++ "(%zu bytes needed, %zu bytes available)")
                     [len;
                      usize (VIR_NET_MESSAGE_MAX + VIR_NET_MESSAGE_LEN_MAX
                             - bufferOffset msg)])
            else
              let msg := set_bufferLength
                           (usize (bufferOffset msg + len)) msg in
              inr (set_buffer
                     (VIR_REALLOC_N (buffer msg) (bufferLength msg)) msg)
          else inr msg in
        match grown with
        | inl e => Val (Failure e, msg)
        | inr msg =>
            let* src := mem_load bytes 0 len in
            let* mem := mem_store (buffer msg) (bufferOffset msg) src in
            let msg := set_buffer mem msg in
            let msg := set_bufferOffset
                         (usize (bufferOffset msg + len)) msg in
            reencode_length msg
        end
      else reencode_length msg
  | None => reencode_length msg
  end.

(** *** Error capture *)

(** [virNetMessageSaveError (rerr)]; [verr] is what [virGetLastError ()]
    returns, [None] when no error is set. *)
Definition virNetMessageSaveError (rerr : virNetMessageError.t)
    (verr : option virError.t) : virNetMessageError.t :=
  if bool_decide (virNetMessageError.code rerr <> VIR_ERR_OK) then rerr
  else
    match verr with
    | Some verr =>
        {| virNetMessageError.code := virError.code verr;
           virNetMessageError.domain := virError.domain verr;
           virNetMessageError.message := virError.message verr;
           virNetMessageError.level := virError.level verr;
           virNetMessageError.str1 := virError.str1 verr;
           virNetMessageError.str2 := virError.str2 verr;
           virNetMessageError.str3 := virError.str3 verr;
           virNetMessageError.int1 := virError.int1 verr;
           virNetMessageError.int2 := virError.int2 verr |}
    | None =>
        {| virNetMessageError.code := VIR_ERR_INTERNAL_ERROR;
           virNetMessageError.domain := VIR_FROM_RPC;
           virNetMessageError.message :=
             Some "Library function returned error but did not set virError";
           virNetMessageError.level := VIR_ERR_ERROR;
           virNetMessageError.str1 :=
             virNetMessageError.str1 virNetMessageError.zero;
           virNetMessageError.str2 :=
             virNetMessageError.str2 virNetMessageError.zero;
           virNetMessageError.str3 :=
             virNetMessageError.str3 virNetMessageError.zero;
           virNetMessageError.int1 :=
             virNetMessageError.int1 virNetMessageError.zero;
           virNetMessageError.int2 :=
             virNetMessageError.int2 virNetMessageError.zero |}
    end.

(** *** Sequences of calls *)

(** The messages of an encode in progress: the header has been encoded,
    the descriptor count may have been, and the payload encoder may have
    enlarged the buffer, [mem] being what a failed marshaller left in
    it. *)
Inductive encoding : virNetMessage -> Prop :=
  | encoding_header msg0 msg :
      virNetMessageEncodeHeader msg0 = Val (Success, msg) ->
      encoding msg
  | encoding_numfds msg msg' :
      encoding msg ->
      virNetMessageEncodeNumFDs msg = Val (Success, msg') ->
      encoding msg'
  | encoding_grow msg mem msg' :
      encoding msg ->
      encode_payload_grow (set_buffer mem msg) = Some msg' ->
      encoding msg'.

Definition encode_step (fuel : nat) (op : encode_op) (msg : virNetMessage)
  : exec (retval * virNetMessage) :=
  match op with
  | OpNumFDs => virNetMessageEncodeNumFDs msg
  | OpPayload filter => virNetMessageEncodePayload fuel msg filter
  | OpPayloadRaw data len => virNetMessageEncodePayloadRaw msg data len
  end.

(** The calls [ops] made one after the other on a message, whatever they
    return; the result is what each call returned and left. *)
Fixpoint encode_run (fuel : nat) (ops : list encode_op)
    (msg : virNetMessage) : exec (list (retval * virNetMessage)) :=
  match ops with
  | [] => Val []
  | op :: ops' =>
      let* (r, msg) := encode_step fuel op msg in
      let* rest := encode_run fuel ops' msg in
      Val ((r, msg) :: rest)
  end.

(** [virNetMessageEncodeHeader] followed by the calls [ops]. *)
Definition encode_session (fuel : nat) (msg : virNetMessage)
    (ops : list encode_op) : exec (list (retval * virNetMessage)) :=
  let* (r, msg) := virNetMessageEncodeHeader msg in
  let* rest := encode_run fuel ops msg in
  Val ((r, msg) :: rest).

(** The messages [msgs] pushed in order. *)
Fixpoint queue_push_all (fuel : nat) (h : gmap loc virNetMessage)
    (queue : option loc) (msgs : list loc)
  : exec (gmap loc virNetMessage * option loc) :=
  match msgs with
  | [] => Val (h, queue)
  | msg :: msgs' =>
      let* (h, queue) := virNetMessageQueuePush fuel h queue (Some msg) in
      queue_push_all fuel h queue msgs'
  end.

(** The [next] link of the message at [p], as its caller reads it. *)
Definition link_of (h : gmap loc virNetMessage) (p : option loc)
  : option loc :=
  match p with
  | Some l => match h !! l with Some m => next m | None => None end
  | None => None
  end.

(** [n] calls of [virNetMessageQueueServe]: with each message returned,
    the [next] link it has when it is returned. *)
Fixpoint queue_serve_n (n : nat) (h : gmap loc virNetMessage)
    (queue : option loc)
  : exec (gmap loc virNetMessage * option loc
          * list (option loc * option loc)) :=
  match n with
  | O => Val (h, queue, [])
  | S n' =>
      let* (h, queue, msg) := virNetMessageQueueServe h queue in
      let served := (msg, link_of h msg) in
      let* (h', queue', rest) := queue_serve_n n' h queue in
      Val (h', queue', served :: rest)
  end.

End Codec.

(** ** Predicates the properties are stated with *)

(** The queue headed by [queue] holds the messages [ms], in order. *)
Fixpoint is_queue (h : gmap loc virNetMessage) (queue : option loc)
    (ms : list loc) : Prop :=
  match ms with
  | [] => queue = None
  | l :: ms' =>
      queue = Some l /\
      exists m, h !! l = Some m /\ is_queue h (next m) ms'
  end.

(** The constants are sound: a positive initial payload capacity within the
    maximum, and a maximum that twice over still fits an [unsigned int]. *)
Definition constants_ok `{Constants} : Prop :=
  0 < VIR_NET_MESSAGE_INITIAL <= VIR_NET_MESSAGE_MAX /\
  VIR_NET_MESSAGE_MAX < 2 ^ 31.

(** What holds of a message between the calls of an encode: the cursor is
    within the declared length, which is within the allocation and within
    the largest frame. *)
Definition encode_inv `{Constants} (msg : virNetMessage) : Prop :=
  0 <= bufferOffset msg <= bufferLength msg /\
  bufferLength msg <= Z.of_nat (length (buffer msg)) /\
  bufferLength msg <= VIR_NET_MESSAGE_MAX + VIR_NET_MESSAGE_LEN_MAX.

(** The big-endian word in the first four bytes of the buffer. *)
Definition length_word (msg : virNetMessage) : option Z :=
  match mem_load (buffer msg) 0 4 with
  | Val bs => be32_value bs
  | _ => None
  end.

(** A payload encoder that has returned 0 has finalised the frame. *)
Definition finalised (op : encode_op) (r : retval) : bool :=
  match op, r with
  | OpPayload _, Success => true
  | OpPayloadRaw _ _, Success => true
  | _, _ => false
  end.

Definition op_filter_ok (op : encode_op) : Prop :=
  match op with
  | OpPayload filter => xdr_proc_ok filter
  | _ => True
  end.

(** The number of bytes a payload encoder that returns 0 writes after the
    cursor it starts from: the [len] bytes given to the raw encoder (none
    for a null pointer or a length of 0), or what the successful run of the
    marshaller has used of the stream it was given, which starts at that
    cursor in the buffer of the message, as it was or grown. *)
Definition payload_bytes (op : encode_op) (msg : virNetMessage) (n : Z)
  : Prop :=
  match op with
  | OpNumFDs => False
  | OpPayload filter =>
      exists m xdr',
        m = set_bufferLength (bufferLength m) (set_buffer (buffer m) msg) /\
        bufferLength msg <= bufferLength m /\
        filter (payload_stream m) = Val (true, xdr') /\ n = x_pos xdr'
  | OpPayloadRaw data len =>
      n = match data with
          | Some _ => if bool_decide (len > 0) then len else 0
          | None => 0
          end
  end.

(** The cursors along a run of calls, [msg] being the message before the
    first of them: after every call [bufferOffset] is within
    [bufferLength]; [bufferLength] has not decreased, unless the call
    finalised the frame, when it is the number of bytes written, those
    before the cursor the call started from and those of the payload, and
    [bufferOffset] is 0. *)
Fixpoint cursors_ok (msg : virNetMessage) (ops : list encode_op)
    (trace : list (retval * virNetMessage)) : Prop :=
  match ops, trace with
  | [], [] => True
  | op :: ops', (r, msg') :: trace' =>
      0 <= bufferOffset msg' <= bufferLength msg' /\
      (if finalised op r
       then exists n,
              payload_bytes op msg n /\ 0 <= n /\
              bufferLength msg' = bufferOffset msg + n /\
              bufferOffset msg' = 0
       else bufferLength msg <= bufferLength msg') /\
      cursors_ok msg' ops' trace'
  | _, _ => False
  end.

(** What a call of an encoder leaves of the cursors: when it finalises,
    the declared length is the size written; otherwise the declared
    length has not decreased. *)
Definition step_cursors `{Constants} (msg : virNetMessage) (r : retval)
    (msg' : virNetMessage) : Prop :=
  encode_inv msg' /\
  match r with
  | Success =>
      bufferOffset msg <= bufferLength msg' /\ bufferOffset msg' = 0 /\
      length_word msg' = Some (bufferLength msg')
  | Failure _ => bufferLength msg <= bufferLength msg'
  end.

(** ** The stores to the cursors

    The encoders once more, each with the record of the assignments it
    makes to [bufferLength] and [bufferOffset], in the order of the source.
    What is returned and left is what the encoder itself returns and
    leaves; an entry of the record is the kind of assignment with the
    values of the two cursors right after it. *)

Inductive cursor_store : Type :=
  | StoreLength  (* msg->bufferLength = ...; before a reallocation *)
  | StoreOffset  (* msg->bufferOffset = ...; or msg->bufferOffset += ...; *)
  | StoreFinal.  (* msg->bufferLength = msg->bufferOffset; *)

(** [bufferLength] and [bufferOffset], in this order. *)
Definition cursors (msg : virNetMessage) : Z * Z :=
  (bufferLength msg, bufferOffset msg).

Definition store_log : Type := list (cursor_store * (Z * Z)).

Section CursorStores.
Context `{Constants}.
Variable fresh_mem : nat -> byte.
Variable xdr_virNetMessageHeader : virNetMessageHeader -> xdrproc_t.

Definition reencode_length_stores (msg : virNetMessage)
  : exec (retval * virNetMessage * store_log) :=
  let xdr := xdrmem_create (buffer msg) 0 VIR_NET_MESSAGE_HEADER_XDR_LEN
               XDR_ENCODE in
  let msglen := u32 (bufferOffset msg) in
  let* (ok, xdr, msglen) := xdr_u_int xdr msglen in
  if negb ok then
    Val (Failure (mkReport VIR_ERR_RPC
                    "Unable to encode message length" []),
         sync_buffer xdr msg, [])
  else
    let msg := sync_buffer xdr msg in
    let msg := set_bufferLength (bufferOffset msg) msg in
    let log := [(StoreFinal, cursors msg)] in
    let msg := set_bufferOffset 0 msg in
    let log := log ++ [(StoreOffset, cursors msg)] in
    Val (Success, msg, log).

Definition virNetMessageEncodeHeader_stores (msg : virNetMessage)
  : exec (retval * virNetMessage * store_log) :=
  let len := 0 in
  let msg := set_bufferLength
               (usize (VIR_NET_MESSAGE_INITIAL + VIR_NET_MESSAGE_LEN_MAX))
               msg in
  let log := [(StoreLength, cursors msg)] in
  let msg := set_buffer
               (VIR_REALLOC_N fresh_mem (buffer msg) (bufferLength msg))
               msg in
  let msg := set_bufferOffset 0 msg in
  let log := log ++ [(StoreOffset, cursors msg)] in
  let xdr := xdrmem_create (buffer msg) 0 (bufferLength msg) XDR_ENCODE in
  (* The real value is filled in shortly *)
  let* (ok, xdr, len) := xdr_u_int xdr len in
  if negb ok then
    Val (Failure (mkReport VIR_ERR_RPC
                    "Unable to encode message length" []),
         sync_buffer xdr msg, log)
  else
    let* (ok, xdr) := xdr_virNetMessageHeader (header msg) xdr in
    if negb ok then
      Val (Failure (mkReport VIR_ERR_RPC
                      "Unable to encode message header" []),
           sync_buffer xdr msg, log)
    else
      let len := xdr_getpos xdr in
      let '(_, xdr) := xdr_setpos xdr 0 in
      let* (ok, xdr, len) := xdr_u_int xdr len in
      if negb ok then
        Val (Failure (mkReport VIR_ERR_RPC
                        "Unable to re-encode message length" []),
             sync_buffer xdr msg, log)
      else
        let msg := sync_buffer xdr msg in
        let msg := set_bufferOffset (usize (bufferOffset msg + len)) msg in
        let log := log ++ [(StoreOffset, cursors msg)] in
        Val (Success, msg, log).

Definition virNetMessageEncodeNumFDs_stores (msg : virNetMessage)
  : exec (retval * virNetMessage * store_log) :=
  let numFDs := u32 (nfds msg) in
  let xdr := xdrmem_create (buffer msg) (bufferOffset msg)
               (usize (bufferLength msg - bufferOffset msg)) XDR_ENCODE in
  if bool_decide (numFDs > VIR_NET_MESSAGE_NUM_FDS_MAX) then
    Val (Failure (mkReport VIR_ERR_RPC
                    "Too many FDs to send %d, expected %d maximum"
                    [numFDs; VIR_NET_MESSAGE_NUM_FDS_MAX]), msg, [])
  else
    let* (ok, xdr, numFDs) := xdr_u_int xdr numFDs in
    if negb ok then
      Val (Failure (mkReport VIR_ERR_RPC
                      "Unable to encode number of FDs" []),
           sync_buffer xdr msg, [])
    else
      let msg := sync_buffer xdr msg in
      let msg := set_bufferOffset
                   (usize (bufferOffset msg + xdr_getpos xdr)) msg in
      Val (Success, msg, [(StoreOffset, cursors msg)]).

(** The loop of [virNetMessageEncodePayload]: each round that enlarges the
    buffer stores the new [bufferLength]. *)
Fixpoint encode_payload_loop_stores (fuel : nat) (filter : xdrproc_t)
    (msg : virNetMessage) (xdr : XDR)
  : exec ((virNetMessage + virNetMessage * XDR) * store_log) :=
  match fuel with
  | O => OutOfFuel
  | S fuel' =>
      let* (ok, xdr) := filter xdr in
      let msg := sync_buffer xdr msg in
      if ok then Val (inr (msg, xdr), [])
      else
        match encode_payload_grow fresh_mem msg with
        | None => Val (inl msg, [])
        | Some msg =>
            let* (r, log) :=
              encode_payload_loop_stores fuel' filter msg
                (payload_stream msg) in
            Val (r, (StoreLength, cursors msg) :: log)
        end
  end.

Definition virNetMessageEncodePayload_stores (fuel : nat)
    (msg : virNetMessage) (filter : xdrproc_t)
  : exec (retval * virNetMessage * store_log) :=
  let xdr := payload_stream msg in
  (* Try to encode the payload. If the buffer is too small increase it. *)
  let* (r, log) := encode_payload_loop_stores fuel filter msg xdr in
  match r with
  | inl msg =>
      Val (Failure (mkReport VIR_ERR_RPC
                      "Unable to encode message payload" []), msg, log)
  | inr (msg, xdr) =>
      (* Get the length stored in buffer. *)
      let msg := set_bufferOffset
                   (usize (bufferOffset msg + xdr_getpos xdr)) msg in
      let log := log ++ [(StoreOffset, cursors msg)] in
      (* Re-encode the length word. *)
      let* (r, msg, log') := reencode_length_stores msg in
      Val (r, msg, log ++ log')
  end.

Definition virNetMessageEncodePayloadRaw_stores (msg : virNetMessage)
    (data : option (list byte)) (len : Z)
  : exec (retval * virNetMessage * store_log) :=
  match data with
  | Some bytes =>
      if bool_decide (len > 0) then
        let grown : virErrorReport + virNetMessage * store_log :=
          if bool_decide (usize (bufferLength msg - bufferOffset msg)
                          < len) then
            if bool_decide
                 (usize (bufferOffset msg + len)
                  > VIR_NET_MESSAGE_MAX + VIR_NET_MESSAGE_LEN_MAX) then
              inl (mkReport VIR_ERR_RPC
                     ("Stream data too long to send "
                      ++ "(%zu bytes needed, %zu bytes available)")
                     [len;
                      usize (VIR_NET_MESSAGE_MAX + VIR_NET_MESSAGE_LEN_MAX
                             - bufferOffset msg)])
            else
              let msg := set_bufferLength
                           (usize (bufferOffset msg + len)) msg in
              let log := [(StoreLength, cursors msg)] in
              inr (set_buffer
                     (VIR_REALLOC_N fresh_mem (buffer msg)
                        (bufferLength msg)) msg, log)
          else inr (msg, []) in
        match grown with
        | inl e => Val (Failure e, msg, [])
        | inr (msg, log) =>
            let* src := mem_load bytes 0 len in
            let* mem := mem_store (buffer msg) (bufferOffset msg) src in
            let msg := set_buffer mem msg in
            let msg := set_bufferOffset
                         (usize (bufferOffset msg + len)) msg in
            let log := log ++ [(StoreOffset, cursors msg)] in
            let* (r, msg, log') := reencode_length_stores msg in
            Val (r, msg, log ++ log')
        end
      else reencode_length_stores msg
  | None => reencode_length_stores msg
  end.

Definition encode_step_stores (fuel : nat) (op : encode_op)
    (msg : virNetMessage) : exec (retval * virNetMessage * store_log) :=
  match op with
  | OpNumFDs => virNetMessageEncodeNumFDs_stores msg
  | OpPayload filter => virNetMessageEncodePayload_stores fuel msg filter
  | OpPayloadRaw data len =>
      virNetMessageEncodePayloadRaw_stores msg data len
  end.

(** The calls [ops] one after the other, with the stores of all of them. *)
Fixpoint encode_run_stores (fuel : nat) (ops : list encode_op)
    (msg : virNetMessage)
  : exec (list (retval * virNetMessage) * store_log) :=
  match ops with
  | [] => Val ([], [])
  | op :: ops' =>
      let* (r, msg, log) := encode_step_stores fuel op msg in
      let* (rest, log') := encode_run_stores fuel ops' msg in
      Val ((r, msg) :: rest, log ++ log')
  end.

Definition encode_session_stores (fuel : nat) (msg : virNetMessage)
    (ops : list encode_op)
  : exec (list (retval * virNetMessage) * store_log) :=
  let* (r, msg, log) := virNetMessageEncodeHeader_stores msg in
  let* (rest, log') := encode_run_stores fuel ops msg in
  Val ((r, msg) :: rest, log ++ log').

End CursorStores.

(** The cursors after the last store of a record, [prev] being the cursors
    before the first. *)
Definition last_cursors (prev : Z * Z) (log : store_log) : Z * Z :=
  match last log with
  | Some (_, c) => c
  | None => prev
  end.

(** The cursors along a run of stores, [prev] being the cursors before the
    first of them.  After every store [bufferOffset] is within
    [bufferLength].  A store changes the cursor it is a store to, and not
    the other; [bufferLength] does not decrease, but for the store that
    finalises the frame, which makes it what [bufferOffset] has reached,
    the number of bytes written. *)
Fixpoint stores_ok (prev : Z * Z) (log : store_log) : Prop :=
  match log with
  | [] => True
  | (k, c) :: log' =>
      0 <= snd c <= fst c /\
      match k with
      | StoreLength => fst prev <= fst c /\ snd c = snd prev
      | StoreOffset => fst c = fst prev
      | StoreFinal => fst c = snd prev /\ snd c = snd prev
      end /\
      stores_ok c log'
  end.

(** ** Instances to run the model on *)

(** A marshaller made of [xdr_u_int] calls, one per value. *)
Fixpoint xdr_words (vs : list Z) : xdrproc_t :=
  fun xdr =>
    match vs with
    | [] => Val (true, xdr)
    | v :: vs' =>
        let* (ok, xdr, _) := xdr_u_int xdr v in
        if ok then xdr_words vs' xdr else Val (false, xdr)
    end.

(** Modelled from the spec: the generated marshaller of the header, which
    lies outside src/; each of the six fields goes out as one XDR word. *)
Definition xdr_header_words (h : virNetMessageHeader) : xdrproc_t :=
  xdr_words [prog h; vers h; proc h; type h; serial h; status h].

(** A marshaller that fails whatever the room it is given. *)
Definition xdr_never : xdrproc_t := fun xdr => Val (false, xdr).

(** Small limits, for running examples: 32 bytes of payload to start with,
    128 at most. *)
Definition small_constants : Constants :=
  {| VIR_NET_MESSAGE_INITIAL := 32;
     VIR_NET_MESSAGE_MAX := 128;
     VIR_NET_MESSAGE_HEADER_XDR_LEN := 4;
     VIR_ERR_OK := 0;
     VIR_ERR_INTERNAL_ERROR := 1;
     VIR_ERR_RPC := 39;
     VIR_FROM_RPC := 7;
     VIR_ERR_ERROR := 2 |}.

Definition zero_mem : nat -> byte := fun _ => x00.

Definition no_callbacks : N -> loc -> Z -> virNetMessage -> virNetMessage :=
  fun _ _ _ m => m.

(** A message into which the four bytes of a length word have been read. *)
Definition length_msg (b0 b1 b2 b3 : byte) : virNetMessage :=
  set_bufferLength 4 (set_buffer [b0; b1; b2; b3] message_zero).

(** The message [virNetMessageEncodeHeader] makes of the zero message, under
    the small limits: 36 bytes, of which the length word and the 24 bytes
    of the header are written. *)
Definition header_msg : virNetMessage :=
  match virNetMessageEncodeHeader (H := small_constants) zero_mem
          xdr_header_words message_zero with
  | Val (_, m) => m
  | _ => message_zero
  end.

(** [header_msg] after its payload capacity has been doubled, once and
    twice. *)
Definition grown_msg : virNetMessage :=
  match encode_payload_grow (H := small_constants) zero_mem header_msg with
  | Some m => m
  | None => header_msg
  end.

Definition full_msg : virNetMessage :=
  match encode_payload_grow (H := small_constants) zero_mem grown_msg with
  | Some m => m
  | None => grown_msg
  end.

(** Three new messages in a store, at the addresses 1, 2 and 3. *)
Definition three_messages : gmap loc virNetMessage :=
  <[1%positive := virNetMessageNew true]>
    (<[2%positive := virNetMessageNew false]>
       (<[3%positive := virNetMessageNew true]> ∅)).

(** A message with two descriptors, one of them handed off already, and a
    destructor callback. *)
Definition fd_msg : virNetMessage :=
  set_tracked true
    (mkMessage false [] 0 0 header_zero (Some 0%N) 42 2 [5; -1] 1 None).

(** [header_msg] with its payload encoded: a marshaller of one word, and
    twelve raw bytes, for which the buffer has to grow. *)
Definition typed_msg : virNetMessage :=
  match virNetMessageEncodePayload (H := small_constants) zero_mem 1
          header_msg (xdr_words [7]) with
  | Val (_, m) => m
  | _ => message_zero
  end.

Definition raw_msg : virNetMessage :=
  match virNetMessageEncodePayloadRaw (H := small_constants) zero_mem
          header_msg (Some (replicate 12 xab)) 12 with
  | Val (_, m) => m
  | _ => message_zero
  end.

(** An encode of a descriptor count and of a payload of three words, which
    does not fit the buffer at first. *)
Definition sample_ops : list encode_op :=
  [OpNumFDs; OpPayload (xdr_words [7; 8; 9])].

Definition sample_trace : list (retval * virNetMessage) :=
  match encode_session (H := small_constants) zero_mem xdr_header_words 2
          message_zero sample_ops with
  | Val trace => trace
  | _ => []
  end.

(** The return value and the cursors after each call of a run. *)
Definition cursor_trace (trace : list (retval * virNetMessage))
  : list (Z * Z * Z) :=
  map (fun s => (return_value (fst s), bufferLength (snd s),
                 bufferOffset (snd s))) trace.

(** ** Decoding a frame *)

Definition set_header (v : virNetMessageHeader) (m : virNetMessage)
  : virNetMessage :=
  {| tracked := tracked m; buffer := buffer m; bufferLength := bufferLength m;
     bufferOffset := bufferOffset m; header := v; cb := cb m;
     opaque := opaque m; nfds := nfds m; fds := fds m; donefds := donefds m;
     next := next m |}.

(** A marshaller with the object it works on: encoding, it writes the
    object to the stream; decoding, it fills the object in from the stream.
    The object comes back with the stream, as the C function is given a
    pointer to it. *)
Definition xdr_codec (A : Type) : Type := XDR -> A -> exec (bool * XDR * A).

(** The marshaller applied to an object it only reads. *)
Definition xdr_apply {A} (codec : xdr_codec A) (data : A) : xdrproc_t :=
  fun xdr => let* (ok, xdr, _) := codec xdr data in Val (ok, xdr).

(** A marshaller that respects the stream it is given, whatever the
    object. *)
Definition xdr_codec_ok {A} (codec : xdr_codec A) : Prop :=
  forall xdr data, xdr_valid xdr ->
    exists ok xdr' data',
      codec xdr data = Val (ok, xdr', data') /\ xdr_same_frame xdr xdr'.

(** A marshaller that writes nothing before the place the stream has
    reached, and does not move the stream back. *)
Definition xdr_proc_forward (filter : xdrproc_t) : Prop :=
  forall xdr ok xdr', xdr_valid xdr ->
    filter xdr = Val (ok, xdr') ->
    x_pos xdr <= x_pos xdr' /\
    take (Z.to_nat (x_base xdr + x_pos xdr)) (x_mem xdr')
    = take (Z.to_nat (x_base xdr + x_pos xdr)) (x_mem xdr).

(** A marshaller whose object takes [need] bytes: it succeeds on a stream
    with that much room, having used just that, and fails on a smaller
    one. *)
Definition xdr_proc_needs (filter : xdrproc_t) (need : Z) : Prop :=
  forall xdr, xdr_valid xdr -> x_op xdr = XDR_ENCODE ->
    exists xdr',
      xdr_same_frame xdr xdr' /\
      if bool_decide (need <= x_size xdr - x_pos xdr)
      then filter xdr = Val (true, xdr') /\ x_pos xdr' = x_pos xdr + need
      else filter xdr = Val (false, xdr').

Section Decoder.
Context `{Constants}.

(** The generated marshaller of the header, in both directions. *)
Variable xdr_virNetMessageHeader : xdr_codec virNetMessageHeader.

Definition virNetMessageDecodeHeader (msg : virNetMessage)
  : exec (retval * virNetMessage) :=
  if bool_decide (bufferLength msg < VIR_NET_MESSAGE_LEN_MAX) then
    Val (Failure (mkReport VIR_ERR_INTERNAL_ERROR
                    "Unable to decode header until len is received" []),
         msg)
  else
    let msg := set_bufferOffset VIR_NET_MESSAGE_LEN_MAX msg in
    (* Parse the header. *)
    let xdr := xdrmem_create (buffer msg) (bufferOffset msg)
                 (usize (bufferLength msg - bufferOffset msg)) XDR_DECODE in
    let* (ok, xdr, hdr) := xdr_virNetMessageHeader xdr (header msg) in
    let msg := set_header hdr (sync_buffer xdr msg) in
    if negb ok then
      Val (Failure (mkReport VIR_ERR_RPC
                      "Unable to decode message header" []), msg)
    else
      let msg := set_bufferOffset
                   (usize (bufferOffset msg + xdr_getpos xdr)) msg in
      Val (Success, msg).

(** [data] is the object the unmarshaller fills in; it comes back with the
    message. *)
Definition virNetMessageDecodePayload {A} (msg : virNetMessage)
    (filter : xdr_codec A) (data : A)
  : exec (retval * virNetMessage * A) :=
  (* Deserialise payload of the message. This assumes that
     virNetMessageDecodeHeader has already been run, so
     just start from after that data *)
  let xdr := xdrmem_create (buffer msg) (bufferOffset msg)
               (usize (bufferLength msg - bufferOffset msg)) XDR_DECODE in
  let* (ok, xdr, data) := filter xdr data in
  let msg := sync_buffer xdr msg in
  if negb ok then
    Val (Failure (mkReport VIR_ERR_RPC
                    "Unable to decode message payload" []), msg, data)
  else
    (* Get the length stored in buffer. *)
    let msg := set_bufferLength
                 (usize (bufferLength msg + xdr_getpos xdr)) msg in
    Val (Success, msg, data).

End Decoder.

(** Modelled from the spec: the generated marshaller of the header in both
    directions, which lies outside src/; the six fields go one after the
    other, each as one XDR word, and the first that fails ends the call. *)
Definition xdr_header_fields : xdr_codec virNetMessageHeader :=
  fun xdr h =>
    let* (ok, xdr, v) := xdr_u_int xdr (prog h) in
    let h := mkHeader v (vers h) (proc h) (type h) (serial h) (status h) in
    if negb ok then Val (false, xdr, h) else
    let* (ok, xdr, v) := xdr_u_int xdr (vers h) in
    let h := mkHeader (prog h) v (proc h) (type h) (serial h) (status h) in
    if negb ok then Val (false, xdr, h) else
    let* (ok, xdr, v) := xdr_u_int xdr (proc h) in
    let h := mkHeader (prog h) (vers h) v (type h) (serial h) (status h) in
    if negb ok then Val (false, xdr, h) else
    let* (ok, xdr, v) := xdr_u_int xdr (type h) in
    let h := mkHeader (prog h) (vers h) (proc h) v (serial h) (status h) in
    if negb ok then Val (false, xdr, h) else
    let* (ok, xdr, v) := xdr_u_int xdr (serial h) in
    let h := mkHeader (prog h) (vers h) (proc h) (type h) v (status h) in
    if negb ok then Val (false, xdr, h) else
    let* (ok, xdr, v) := xdr_u_int xdr (status h) in
    let h := mkHeader (prog h) (vers h) (proc h) (type h) (serial h) v in
    Val (ok, xdr, h).

(** A marshaller of an array of words of a given length, in both
    directions: one [xdr_u_int] call per element, the first that fails
    ends the call. *)
Fixpoint xdr_word_array (xdr : XDR) (vs : list Z)
  : exec (bool * XDR * list Z) :=
  match vs with
  | [] => Val (true, xdr, [])
  | v :: vs' =>
      let* (ok, xdr, v') := xdr_u_int xdr v in
      if ok then
        let* (ok, xdr, vs'') := xdr_word_array xdr vs' in
        Val (ok, xdr, v' :: vs'')
      else Val (false, xdr, v' :: vs')
  end.

(** Every field of the header fits one XDR word. *)
Definition header_in_range (h : virNetMessageHeader) : Prop :=
  0 <= prog h < 2 ^ 32 /\ 0 <= vers h < 2 ^ 32 /\ 0 <= proc h < 2 ^ 32 /\
  0 <= type h < 2 ^ 32 /\ 0 <= serial h < 2 ^ 32 /\ 0 <= status h < 2 ^ 32.

(** ** Descriptors passed with a message *)

(** Modelled from the spec: the append of viralloc.h, declared outside
    src/.  The array of [n] elements is enlarged by one, which receives
    [x]. *)
Definition VIR_APPEND_ELEMENT (a : list Z) (n : Z) (x : Z) : list Z * Z :=
  (resize (Z.to_nat n) 0 a ++ [x], usize (n + 1)).

Section Descriptors.
Context `{Constants}.

(** The descriptor table of the process, and the two calls made on it:
    [dup (fd)], which gives the table afterwards and the new descriptor,
    negative when it fails, and [virSetInherit (fd, inherit)], which gives
    the table afterwards and a negative value when it fails. *)
Variable os : Type.
Variable dup : os -> Z -> os * Z.
Variable virSetInherit : os -> Z -> bool -> os * Z.

(** The code [virReportSystemError] reports under. *)
Variable VIR_ERR_SYSTEM_ERROR : Z.

(** [virNetMessageDupFD (msg, slot)]: the descriptor returned, or the error
    reported with the return of -1; the descriptor table afterwards and the
    closes made. *)
Definition virNetMessageDupFD (s : os) (msg : virNetMessage) (slot : Z)
  : exec ((virErrorReport + Z) * os * list event) :=
  if bool_decide (slot >= nfds msg) then
    Val (inl (mkReport VIR_ERR_INTERNAL_ERROR
                "No FD available at slot %zu" [slot]), s, [])
  else
    match fds msg !! Z.to_nat slot with
    | None => Undef
    | Some old =>
        let '(s, fd) := dup s old in
        if bool_decide (fd < 0) then
          Val (inl (mkReport VIR_ERR_SYSTEM_ERROR
                      "Unable to duplicate FD %d" [old]), s, [])
        else
          let '(s, r) := virSetInherit s fd false in
          if bool_decide (r < 0) then
            let '(fd, evs) := VIR_FORCE_CLOSE fd in
            Val (inl (mkReport VIR_ERR_SYSTEM_ERROR
                        "Cannot set close-on-exec %d" [fd]), s, evs)
          else Val (inr fd, s, [])
    end.

(** [virNetMessageAddFD (msg, fd)]: the message and the descriptor table
    afterwards, and the closes made. *)
Definition virNetMessageAddFD (s : os) (msg : virNetMessage) (fd : Z)
  : retval * virNetMessage * os * list event :=
  let '(s, newfd) := dup s fd in
  if bool_decide (newfd < 0) then
    let '(_, evs) := VIR_FORCE_CLOSE newfd in
    (Failure (mkReport VIR_ERR_SYSTEM_ERROR
                "Unable to duplicate FD %d" [fd]), msg, s, evs)
  else
    let '(s, r) := virSetInherit s newfd false in
    if bool_decide (r < 0) then
      let '(_, evs) := VIR_FORCE_CLOSE newfd in
      (Failure (mkReport VIR_ERR_SYSTEM_ERROR
                  "Cannot set close-on-exec %d" [newfd]), msg, s, evs)
    else
      let '(a, n) := VIR_APPEND_ELEMENT (fds msg) (nfds msg) newfd in
      (Success, set_nfds n (set_fds a msg), s, []).

End Descriptors.

(** The descriptors closed along a trace. *)
Definition closed_fds (evs : list event) : list Z :=
  flat_map (fun ev => match ev with EvClose fd => [fd] | _ => [] end) evs.

(** The bytes [bs] lie in [mem] from the offset [off] on: that is what a
    read of as many bytes there gives. *)
Definition bytes_at (mem : list byte) (off : Z) (bs : list byte) : Prop :=
  mem_load mem off (Z.of_nat (length bs)) = Val bs.

(** The bytes a run of [xdr_u_int] calls lays down, one word per value. *)
Definition words_bytes (vs : list Z) : list byte :=
  flat_map (fun v => be32_bytes (u32 v)) vs.

(** The fields of a header, in the order they are marshalled. *)
Definition header_words (h : virNetMessageHeader) : list Z :=
  [prog h; vers h; proc h; type h; serial h; status h].

(** The frame a finalised message holds: the first [bufferLength] bytes of
    its buffer, which is what goes on the wire. *)
Definition wire (msg : virNetMessage) : list byte :=
  take (Z.to_nat (bufferLength msg)) (buffer msg).

(** ** More instances *)

(** A request header, and a new message that carries it. *)
Definition sample_header : virNetMessageHeader :=
  {| prog := 536903814; vers := 1; proc := 66; type := 0; serial := 7;
     status := 0 |}.

Definition request_msg : virNetMessage := set_header sample_header message_zero.

(** [request_msg] with its header encoded by the marshaller of the six
    fields, under the small limits. *)
Definition request_header_msg : virNetMessage :=
  match virNetMessageEncodeHeader (H := small_constants) zero_mem
          (xdr_apply xdr_header_fields) request_msg with
  | Val (_, m) => m
  | _ => message_zero
  end.

(** The frames made of it with three raw bytes, and with three words, for
    which the buffer has to grow. *)
Definition request_raw_msg : virNetMessage :=
  match virNetMessageEncodePayloadRaw (H := small_constants) zero_mem
          request_header_msg (Some [x01; x02; x03]) 3 with
  | Val (_, m) => m
  | _ => message_zero
  end.

Definition request_typed_msg : virNetMessage :=
  match virNetMessageEncodePayload (H := small_constants) zero_mem 2
          request_header_msg (xdr_words [7; 8; 9]) with
  | Val (_, m) => m
  | _ => message_zero
  end.

(** The message of a receiver into which the whole frame of [m] has been
    read. *)
Definition received (m : virNetMessage) : virNetMessage :=
  set_bufferLength (bufferLength m) (set_buffer (wire m) message_zero).

(** A descriptor table that is a counter: [dup] of an open descriptor gives
    the next number, and the close-on-exec flag can be set, or cannot. *)
Definition dup_counter : Z -> Z -> Z * Z :=
  fun s fd => if bool_decide (fd < 0) then (s, -1) else (s + 1, s).

Definition inherit_ok : Z -> Z -> bool -> Z * Z := fun s _ _ => (s, 0).

Definition inherit_fails : Z -> Z -> bool -> Z * Z := fun s _ _ => (s, -1).

(** A message that owns the descriptors 5 and 6. *)
Definition two_fds_msg : virNetMessage :=
  set_nfds 2 (set_fds [5; 6] message_zero).

(** * Properties *)

Section Basics.

Lemma u32_small z : 0 <= z < 2 ^ 32 -> u32 z = z.
Proof. intros; unfold u32; now apply Z.mod_small. Qed.

Lemma usize_small z : 0 <= z < 2 ^ 64 -> usize z = z.
Proof. intros; unfold usize; now apply Z.mod_small. Qed.

Lemma u32_range z : 0 <= u32 z < 2 ^ 32.
Proof. unfold u32; apply Z.mod_pos_bound; lia. Qed.

Lemma usize_range z : 0 <= usize z < 2 ^ 64.
Proof. unfold usize; apply Z.mod_pos_bound; lia. Qed.

Lemma Z_of_byte_range b : 0 <= Z_of_byte b < 256.
Proof.
  unfold Z_of_byte; pose proof (Byte.to_N_bounded b); lia.
Qed.

Lemma Z_of_byte_of_Z z : Z_of_byte (byte_of_Z z) = z mod 256.
Proof.
  unfold Z_of_byte, byte_of_Z.
  pose proof (Z.mod_pos_bound z 256 ltac:(lia)) as Hr.
  destruct (Byte.of_N (Z.to_N (z mod 256))) as [b|] eqn:E.
  - apply Byte.to_of_N in E; rewrite E; lia.
  - apply Byte.of_N_None_iff in E; lia.
Qed.

Lemma byte_of_Z_of_byte b : byte_of_Z (Z_of_byte b) = b.
Proof.
  unfold Z_of_byte, byte_of_Z.
  pose proof (Byte.to_N_bounded b).
  rewrite Z.mod_small by lia.
  rewrite N2Z.id, Byte.of_to_N; reflexivity.
Qed.

Lemma be32_bytes_length v : length (be32_bytes v) = 4%nat.
Proof. reflexivity. Qed.

Lemma be32_value_bytes v :
  0 <= v < 2 ^ 32 -> be32_value (be32_bytes v) = Some v.
Proof.
  intros Hv; unfold be32_bytes, be32_value.
  rewrite !Z_of_byte_of_Z; f_equal.
  change (2 ^ 24) with 16777216; change (2 ^ 16) with 65536;
    change (2 ^ 8) with 256; change (2 ^ 32) with 4294967296 in Hv.
  Z.to_euclidean_division_equations; lia.
Qed.

Lemma be32_value_range bs v : be32_value bs = Some v -> 0 <= v < 2 ^ 32.
Proof.
  destruct bs as [|b0 [|b1 [|b2 [|b3 [|? ?]]]]]; simpl; try discriminate.
  intros [= <-].
  pose proof (Z_of_byte_range b0); pose proof (Z_of_byte_range b1);
    pose proof (Z_of_byte_range b2); pose proof (Z_of_byte_range b3).
  lia.
Qed.

Lemma mem_store_length mem off src mem' :
  mem_store mem off src = Val mem' -> length mem' = length mem.
Proof.
  unfold mem_store; case_bool_decide as H; [|discriminate].
  intros [= <-]. rewrite !length_app, length_take, length_drop. lia.
Qed.

Lemma mem_load_store mem off src mem' :
  mem_store mem off src = Val mem' ->
  mem_load mem' off (Z.of_nat (length src)) = Val src.
Proof.
  intros Hs. pose proof (mem_store_length _ _ _ _ Hs) as Hl.
  unfold mem_store in Hs; case_bool_decide as H; [|discriminate].
  injection Hs as <-. unfold mem_load.
  rewrite bool_decide_true by lia. f_equal.
  rewrite Nat2Z.id, drop_app_length'; [|rewrite length_take; lia].
  now rewrite take_app_length.
Qed.

End Basics.

Section DecodeLength.
Context `{Constants}.
Variable fresh_mem : nat -> byte.

Lemma mem_load_all (mem : list byte) :
  mem_load mem 0 (Z.of_nat (length mem)) = Val mem.
Proof.
  unfold mem_load. rewrite bool_decide_true by lia.
  now rewrite Nat2Z.id, drop_0, firstn_all.
Qed.

Lemma be32_value_length bs v : be32_value bs = Some v -> length bs = 4%nat.
Proof.
  destruct bs as [|b0 [|b1 [|b2 [|b3 [|? ?]]]]]; simpl; congruence.
Qed.

(** C1.  On a message whose buffer holds exactly the four bytes of the
    length word, with [bufferLength] 4, [virNetMessageDecodeLength] reads
    the big-endian value [L]; it fails with an RPC error when [L < 4] and
    when [L - 4] exceeds [VIR_NET_MESSAGE_MAX]; otherwise it succeeds,
    [bufferLength] becomes [L], the buffer has [L] bytes and
    [bufferOffset] is 4. *)
Theorem virNetMessageDecodeLength_spec (msg : virNetMessage) (L : Z) :
  be32_value (buffer msg) = Some L ->
  bufferLength msg = 4 ->
  (L < 4 ->
     virNetMessageDecodeLength fresh_mem msg =
     Val (Failure (mkReport VIR_ERR_RPC
            "packet %d bytes received from server too small, want %d"
            [L; 4]),
          set_bufferOffset 4 msg)) /\
  (4 <= L -> L - 4 > VIR_NET_MESSAGE_MAX ->
     virNetMessageDecodeLength fresh_mem msg =
     Val (Failure (mkReport VIR_ERR_RPC
            "packet %d bytes received from server too large, want %d"
            [L - 4; VIR_NET_MESSAGE_MAX]),
          set_bufferOffset 4 msg)) /\
  (4 <= L -> L - 4 <= VIR_NET_MESSAGE_MAX ->
     exists msg',
       virNetMessageDecodeLength fresh_mem msg = Val (Success, msg') /\
       bufferLength msg' = L /\ bufferOffset msg' = 4 /\
       length (buffer msg') = Z.to_nat L /\
       take 4 (buffer msg') = buffer msg).
Proof.
  intros HL Hlen.
  pose proof (be32_value_range _ _ HL) as HLr.
  pose proof (be32_value_length _ _ HL) as Hbl.
  assert (Hdec : xdr_u_int (xdrmem_create (buffer msg) 0 (bufferLength msg)
                              XDR_DECODE) 0
                 = Val (true, mkXDR XDR_DECODE (buffer msg) 0 4 4, L)).
  { unfold xdr_u_int, xdrmem_create; simpl. rewrite Hlen.
    change (u32 4) with 4. rewrite bool_decide_false by lia.
    change 4 with (Z.of_nat 4) at 1. rewrite <- Hbl.
    change (0 + 0) with 0. rewrite mem_load_all; simpl. now rewrite HL. }
  unfold virNetMessageDecodeLength. rewrite Hdec; simpl.
  unfold VIR_NET_MESSAGE_LEN_MAX, xdr_getpos; simpl.
  repeat split.
  - intros Hs. now rewrite bool_decide_true by lia.
  - intros H4 Hbig. rewrite bool_decide_false by lia.
    rewrite (u32_small (L - 4)) by lia.
    now rewrite bool_decide_true by lia.
  - intros H4 Hok. rewrite bool_decide_false by lia.
    rewrite (u32_small (L - 4)) by lia.
    rewrite bool_decide_false by lia.
    eexists; split; [reflexivity|]. simpl. rewrite Hlen.
    replace (4 + (L - 4)) with L by lia.
    rewrite (usize_small L) by lia.
    unfold VIR_REALLOC_N.
    repeat split.
    + rewrite length_app, length_take, length_map, length_seq. lia.
    + rewrite take_app_le; [|rewrite length_take; lia].
      rewrite take_take. rewrite take_ge; [reflexivity|lia].
Qed.

End DecodeLength.

Section XdrLemmas.

Lemma xdr_u_int_short xdr v :
  x_size xdr - x_pos xdr < 4 -> xdr_u_int xdr v = Val (false, xdr, v).
Proof. intros; unfold xdr_u_int; now rewrite bool_decide_true. Qed.

Lemma xdr_u_int_encode xdr v :
  x_op xdr = XDR_ENCODE ->
  4 <= x_size xdr - x_pos xdr ->
  0 <= x_base xdr + x_pos xdr ->
  x_base xdr + x_pos xdr + 4 <= Z.of_nat (length (x_mem xdr)) ->
  exists mem,
    mem_store (x_mem xdr) (x_base xdr + x_pos xdr) (be32_bytes (u32 v))
    = Val mem /\
    xdr_u_int xdr v =
    Val (true, mkXDR XDR_ENCODE mem (x_base xdr) (x_size xdr)
                 (x_pos xdr + 4), v).
Proof.
  intros Hop Hroom Hlo Hhi. unfold xdr_u_int.
  rewrite bool_decide_false by lia. rewrite Hop.
  unfold mem_store. rewrite be32_bytes_length.
  rewrite bool_decide_true by lia. eexists; split; reflexivity.
Qed.

Lemma xdr_u_int_decode xdr v bs w :
  x_op xdr = XDR_DECODE ->
  4 <= x_size xdr - x_pos xdr ->
  mem_load (x_mem xdr) (x_base xdr + x_pos xdr) 4 = Val bs ->
  be32_value bs = Some w ->
  xdr_u_int xdr v =
  Val (true, mkXDR XDR_DECODE (x_mem xdr) (x_base xdr) (x_size xdr)
               (x_pos xdr + 4), w).
Proof.
  intros Hop Hroom Hload Hval. unfold xdr_u_int.
  rewrite bool_decide_false by lia. rewrite Hop, Hload; simpl.
  now rewrite Hval.
Qed.

Lemma payload_window msg :
  buffer_ok msg ->
  u32 (usize (bufferLength msg - bufferOffset msg)) = buffer_space msg.
Proof.
  intros (Hoff & Hlen & Hmax). unfold buffer_space.
  rewrite usize_small by lia. apply u32_small; lia.
Qed.

End XdrLemmas.

Section DescriptorCount.
Context `{Constants}.

(** For a message whose [nfds] fits the [unsigned int] it is copied into:
    when [nfds] exceeds 32, [virNetMessageEncodeNumFDs] fails with the
    too-many-descriptors error and leaves the whole message, buffer and
    [bufferOffset] included, as it was; when [nfds] is at most 32 and four
    bytes are left in the buffer, it writes [nfds] as a big-endian 32-bit
    word at [bufferOffset] and moves [bufferOffset] four bytes on. *)
Lemma virNetMessageEncodeNumFDs_in_range (msg : virNetMessage) :
  0 <= nfds msg < 2 ^ 32 ->
  (nfds msg > 32 ->
     virNetMessageEncodeNumFDs msg =
     Val (Failure (mkReport VIR_ERR_RPC
                     "Too many FDs to send %d, expected %d maximum"
                     [nfds msg; 32]), msg)) /\
  (nfds msg <= 32 -> buffer_ok msg -> 4 <= buffer_space msg ->
     exists mem,
       mem_store (buffer msg) (bufferOffset msg) (be32_bytes (nfds msg))
       = Val mem /\
       virNetMessageEncodeNumFDs msg =
       Val (Success,
            set_bufferOffset (bufferOffset msg + 4) (set_buffer mem msg))).
Proof.
  intros Hn. unfold virNetMessageEncodeNumFDs.
  rewrite (u32_small (nfds msg)) by lia.
  unfold VIR_NET_MESSAGE_NUM_FDS_MAX. split.
  - intros Hbig. now rewrite bool_decide_true by lia.
  - intros Hle Hok Hroom. rewrite bool_decide_false by lia.
    pose proof (payload_window msg Hok) as Hw.
    destruct Hok as (Hoff & Hlen & Hmax). unfold buffer_space in *.
    destruct (xdr_u_int_encode
                (xdrmem_create (buffer msg) (bufferOffset msg)
                   (usize (bufferLength msg - bufferOffset msg))
                   XDR_ENCODE) (nfds msg))
      as (mem & Hst & Hx).
    { reflexivity. }
    { simpl. rewrite Hw. lia. }
    { simpl. lia. }
    { simpl. lia. }
    simpl in Hst, Hx. rewrite Z.add_0_r in Hst.
    rewrite (u32_small (nfds msg)) in Hst by lia.
    exists mem; split; [exact Hst|].
    rewrite Hx; simpl. unfold xdr_getpos; simpl.
    rewrite usize_small by lia. reflexivity.
Qed.

Lemma xdr_u_int_decoded xdr v xdr' w :
  x_op xdr = XDR_DECODE ->
  xdr_u_int xdr v = Val (true, xdr', w) ->
  x_pos xdr' = x_pos xdr + 4 /\ x_mem xdr' = x_mem xdr.
Proof.
  intros Hop. unfold xdr_u_int. case_bool_decide; [discriminate|].
  rewrite Hop. destruct (mem_load _ _ _) as [bs| |]; simpl; try discriminate.
  destruct (be32_value bs); [|discriminate].
  intros [= <- <-]. split; reflexivity.
Qed.

(** C10.  Whenever [virNetMessageDecodeNumFDs] fails with the
    too-many-descriptors error, the message it leaves is the one it was
    given with [bufferOffset] moved four bytes on, past the count word.  It
    does fail so when the word at [bufferOffset] holds a count above 32,
    and the cursor is then not what it was before the call. *)
Theorem virNetMessageDecodeNumFDs_too_many (msg : virNetMessage) :
  (forall e msg',
     virNetMessageDecodeNumFDs msg = Val (Failure e, msg') ->
     report_format e = "Received too many FDs %d, expected %d maximum" ->
     msg' = set_bufferOffset (usize (bufferOffset msg + 4)) msg) /\
  (forall bs count,
     buffer_ok msg -> 4 <= buffer_space msg ->
     mem_load (buffer msg) (bufferOffset msg) 4 = Val bs ->
     be32_value bs = Some count ->
     count > 32 ->
     virNetMessageDecodeNumFDs msg =
     Val (Failure (mkReport VIR_ERR_RPC
                     "Received too many FDs %d, expected %d maximum"
                     [count; 32]),
          set_bufferOffset (bufferOffset msg + 4) msg) /\
     bufferOffset (set_bufferOffset (bufferOffset msg + 4) msg)
     <> bufferOffset msg).
Proof.
  split.
  - intros e msg'. unfold virNetMessageDecodeNumFDs.
    destruct (xdr_u_int _ 0) as [[[ok xdr'] n]| |] eqn:Hx; simpl;
      try discriminate.
    destruct ok; simpl.
    + apply xdr_u_int_decoded in Hx as [Hpos _]; [|reflexivity].
      unfold xdr_getpos. rewrite Hpos. simpl.
      case_bool_decide; [|discriminate].
      intros [= <- <-] _. reflexivity.
    + intros [= <- <-]. simpl. discriminate.
  - intros bs count Hok Hroom Hload Hval Hbig.
    pose proof (payload_window msg Hok) as Hw.
    destruct Hok as (Hoff & Hlen & Hmax). unfold buffer_space in *.
    split; [|simpl; lia].
    unfold virNetMessageDecodeNumFDs.
    rewrite (xdr_u_int_decode _ 0 bs count).
    + simpl. unfold xdr_getpos; simpl. rewrite usize_small by lia.
      unfold VIR_NET_MESSAGE_NUM_FDS_MAX.
      now rewrite bool_decide_true by lia.
    + reflexivity.
    + simpl. rewrite Hw. lia.
    + simpl. now rewrite Z.add_0_r.
    + assumption.
Qed.

End DescriptorCount.

Section Lifecycle.
Variable callbacks : N -> loc -> Z -> virNetMessage -> virNetMessage.

Lemma close_fds_events count : forall i (a : list Z),
  (i + count <= length a)%nat ->
  exists a', close_fds count i a
             = Val (a', close_events (take count (drop i a))).
Proof.
  induction count as [|count IH]; intros i a Hlen; simpl.
  - eexists. reflexivity.
  - destruct (lookup_lt_is_Some_2 a i ltac:(lia)) as [fd Hfd].
    rewrite Hfd. destruct (VIR_FORCE_CLOSE fd) as [fd' ev] eqn:Hclose.
    destruct (IH (S i) (<[i := fd']> a)) as [a' Ha'].
    { rewrite length_insert. lia. }
    rewrite Ha'; simpl. eexists. f_equal. f_equal.
    rewrite (drop_S a fd i Hfd), firstn_cons.
    rewrite drop_insert_lt by lia.
    unfold close_events; simpl. now rewrite Hclose.
Qed.

Lemma close_events_no_callback a :
  Forall (fun ev => is_callback ev = false) (close_events a).
Proof.
  unfold close_events. induction a as [|fd a IH]; simpl; [constructor|].
  apply Forall_app; split; [|exact IH].
  unfold VIR_FORCE_CLOSE. case_bool_decide; simpl; repeat constructor.
Qed.

Lemma virNetMessageClearFDs_events msg :
  fds_ok msg ->
  virNetMessageClearFDs msg =
  Val (set_fds [] (set_nfds 0 (set_donefds 0 msg)),
       close_events (take (Z.to_nat (nfds msg)) (fds msg))
       ++ [EvFree FreedFds]).
Proof.
  intros [Hlo Hhi]. unfold virNetMessageClearFDs.
  destruct (close_fds_events (Z.to_nat (nfds msg)) 0 (fds msg))
    as [a' Ha']; [lia|].
  rewrite Ha'; simpl. now rewrite drop_0.
Qed.

Lemma virNetMessageClearPayload_events msg :
  fds_ok msg ->
  virNetMessageClearPayload msg =
  Val (set_buffer [] (set_bufferLength 0 (set_bufferOffset 0
         (set_fds [] (set_nfds 0 (set_donefds 0 msg))))),
       close_events (take (Z.to_nat (nfds msg)) (fds msg))
       ++ [EvFree FreedFds; EvFree FreedBuffer]).
Proof.
  intros Hok. unfold virNetMessageClearPayload.
  rewrite (virNetMessageClearFDs_events msg Hok); simpl.
  now rewrite <- app_assoc.
Qed.

Lemma close_fds_no_callback count : forall i (a a' : list Z) evs,
  close_fds count i a = Val (a', evs) ->
  Forall (fun ev => is_callback ev = false) evs.
Proof.
  induction count as [|count IH]; intros i a a' evs; simpl.
  - intros [= <- <-]. constructor.
  - destruct (a !! i) as [fd|]; [|discriminate].
    destruct (VIR_FORCE_CLOSE fd) as [fd' ev] eqn:Hclose.
    destruct (close_fds count (S i) (<[i := fd']> a))
      as [[a1 evs1]| |] eqn:Hrest; simpl; try discriminate.
    intros [= <- <-]. apply Forall_app. split; [|now apply (IH _ _ _ _ Hrest)].
    unfold VIR_FORCE_CLOSE in Hclose.
    case_bool_decide; injection Hclose as <- <-; repeat constructor.
Qed.

Lemma virNetMessageClearPayload_returns msg msg' evs :
  virNetMessageClearPayload msg = Val (msg', evs) ->
  msg' = set_buffer [] (set_bufferLength 0 (set_bufferOffset 0
           (set_fds [] (set_nfds 0 (set_donefds 0 msg))))) /\
  Forall (fun ev => is_callback ev = false) evs.
Proof.
  unfold virNetMessageClearPayload, virNetMessageClearFDs.
  destruct (close_fds _ 0 (fds msg)) as [[a evs0]| |] eqn:Hclose; simpl;
    try discriminate.
  intros [= <- <-]. split; [reflexivity|].
  rewrite !Forall_app. repeat split;
    first [now apply (close_fds_no_callback _ _ _ _ _ Hclose)
          | repeat constructor].
Qed.

(** C6.  Whenever [virNetMessageClear] returns, it leaves the record that
    is zero in every field (buffer, cursors, header, descriptor array and
    counts, callback, cookie, next link) but [tracked], which keeps the
    value it had, and the callback has not been called on the way.  It does
    return on a message whose descriptor array holds its [nfds]
    descriptors. *)
Theorem virNetMessageClear_keeps_tracked (msg : virNetMessage) :
  (forall msg' evs,
     virNetMessageClear msg = Val (msg', evs) ->
     msg' = set_tracked (tracked msg) message_zero /\
     tracked msg' = tracked msg /\
     Forall (fun ev => is_callback ev = false) evs) /\
  (fds_ok msg ->
   exists evs,
     virNetMessageClear msg
     = Val (set_tracked (tracked msg) message_zero, evs)).
Proof.
  split.
  - intros msg' evs. unfold virNetMessageClear.
    destruct (virNetMessageClearPayload msg) as [[m1 evs1]| |] eqn:Hclear;
      simpl; try discriminate.
    intros [= <- <-].
    apply virNetMessageClearPayload_returns in Hclear as [_ Hevs].
    repeat split; assumption.
  - intros Hok. unfold virNetMessageClear.
    rewrite (virNetMessageClearPayload_events msg Hok); simpl.
    eexists; reflexivity.
Qed.

(** C7.  [virNetMessageFree] of the null pointer does nothing.  Of a
    message with a callback, whenever it returns the record is gone from
    the store and the first thing done was the call of the callback, with
    the message and its cookie; nothing done after is a call of the
    callback.  When the descriptor array holds its descriptors once the
    callback is back, the function returns, and what follows the callback
    is the close of the descriptors the callback has left, then the
    release of the descriptor array, of the buffer and of the record. *)
Theorem virNetMessageFree_callback_once (h : gmap loc virNetMessage) :
  virNetMessageFree callbacks h None = Val (h, []) /\
  forall (l : loc) (m : virNetMessage) (f : N),
    h !! l = Some m ->
    cb m = Some f ->
    (forall h' evs,
       virNetMessageFree callbacks h (Some l) = Val (h', evs) ->
       h' = delete l h /\
       exists rest,
         evs = EvCallback f l (opaque m) :: rest /\
         Forall (fun ev => is_callback ev = false) rest) /\
    (fds_ok (callbacks f l (opaque m) m) ->
     virNetMessageFree callbacks h (Some l)
     = Val (delete l h,
            EvCallback f l (opaque m)
            :: close_events
                 (take (Z.to_nat (nfds (callbacks f l (opaque m) m)))
                       (fds (callbacks f l (opaque m) m)))
            ++ [EvFree FreedFds; EvFree FreedBuffer;
                EvFree (FreedMessage l)])).
Proof.
  split; [reflexivity|].
  intros l m f Hl Hcb. unfold virNetMessageFree. rewrite Hl, Hcb. split.
  - intros h' evs.
    destruct (virNetMessageClearPayload _) as [[m1 evs1]| |] eqn:Hclear;
      simpl; try discriminate.
    intros [= <- <-]. split; [reflexivity|].
    apply virNetMessageClearPayload_returns in Hclear as [_ Hevs].
    eexists; split; [reflexivity|].
    apply Forall_app; split; [assumption|repeat constructor].
  - intros Hok.
    rewrite (virNetMessageClearPayload_events _ Hok); simpl.
    now rewrite <- app_assoc.
Qed.

End Lifecycle.

Section ErrorCapture.
Context `{Constants}.

(** C8.  [virNetMessageSaveError] leaves a record that holds an error
    code as it is; into a record without one it puts the internal error
    with its fixed message when no thread-local error is set, and
    otherwise the code, domain, level, strings and integers of the
    thread-local error. *)
Theorem virNetMessageSaveError_first_wins (rerr : virNetMessageError.t)
    (verr : option virError.t) :
  (virNetMessageError.code rerr <> VIR_ERR_OK ->
     virNetMessageSaveError rerr verr = rerr) /\
  (virNetMessageError.code rerr = VIR_ERR_OK -> verr = None ->
     virNetMessageSaveError rerr verr =
     virNetMessageError.mk VIR_ERR_INTERNAL_ERROR VIR_FROM_RPC
       (Some "Library function returned error but did not set virError")
       VIR_ERR_ERROR None None None 0 0) /\
  (forall e, virNetMessageError.code rerr = VIR_ERR_OK -> verr = Some e ->
     virNetMessageSaveError rerr verr =
     virNetMessageError.mk (virError.code e) (virError.domain e)
       (virError.message e) (virError.level e) (virError.str1 e)
       (virError.str2 e) (virError.str3 e) (virError.int1 e)
       (virError.int2 e)).
Proof.
  unfold virNetMessageSaveError. repeat split.
  - intros Hne. now rewrite bool_decide_true.
  - intros Heq ->. rewrite bool_decide_false by (intros Hne; now apply Hne).
    reflexivity.
  - intros e Heq ->.
    rewrite bool_decide_false by (intros Hne; now apply Hne).
    reflexivity.
Qed.

End ErrorCapture.

Section Queue.

Lemma is_queue_insert_other h queue ms l m :
  l ∉ ms -> is_queue h queue ms -> is_queue (<[l := m]> h) queue ms.
Proof.
  revert queue. induction ms as [|l0 ms IH]; intros queue Hnot Hq.
  - exact Hq.
  - apply not_elem_of_cons in Hnot as [Hne Hnot].
    destruct Hq as (-> & m0 & Hl0 & Hrest). split; [reflexivity|].
    exists m0. split; [now rewrite lookup_insert_ne|]. now apply IH.
Qed.

(** The walk to the end of a queue, and the queue once a message has
    been linked after its last one. *)
Lemma queue_last_snoc l m : forall ms l0 fuel h,
  is_queue h (Some l0) (l0 :: ms) ->
  NoDup (l0 :: ms) ->
  l ∉ l0 :: ms ->
  h !! l = Some m -> next m = None ->
  (length (l0 :: ms) <= fuel)%nat ->
  exists t mt,
    queue_last fuel h l0 = Val t /\ h !! t = Some mt /\ t ∈ l0 :: ms /\
    is_queue (<[t := set_next (Some l) mt]> h) (Some l0)
             ((l0 :: ms) ++ [l]).
Proof.
  induction ms as [|l1 ms IH]; intros l0 fuel h Hq Hnd Hl Hm Hnext Hfuel;
    destruct fuel as [|fuel]; simpl in Hfuel; try lia;
    destruct Hq as (_ & m0 & Hl0 & Hrest);
    apply not_elem_of_cons in Hl as [Hne Hl].
  - simpl in Hrest. exists l0, m0. simpl. rewrite Hl0, Hrest.
    split; [reflexivity|]. split; [reflexivity|].
    split; [apply list_elem_of_here|].
    split; [reflexivity|].
    exists (set_next (Some l) m0). rewrite lookup_insert_eq.
    split; [reflexivity|]. simpl. split; [reflexivity|].
    exists m. rewrite lookup_insert_ne by congruence.
    split; assumption.
  - pose proof Hrest as (Hn & _).
    apply NoDup_cons in Hnd as [Hl0not Hnd].
    destruct (IH l1 fuel h) as (t & mt & Hlast & Ht & Hin & Hq');
      try assumption.
    { rewrite Hn in Hrest. exact Hrest. }
    { simpl; lia. }
    exists t, mt. simpl. rewrite Hl0, Hn.
    split; [exact Hlast|]. split; [assumption|].
    split; [now apply list_elem_of_further|].
    split; [reflexivity|].
    assert (t <> l0) by (intros ->; contradiction).
    exists m0. rewrite lookup_insert_ne by assumption.
    split; [assumption|]. rewrite Hn. exact Hq'.
Qed.

Lemma virNetMessageQueuePush_snoc h queue ms l m fuel :
  is_queue h queue ms ->
  NoDup ms -> l ∉ ms ->
  h !! l = Some m -> next m = None ->
  (length ms <= fuel)%nat ->
  exists h' queue',
    virNetMessageQueuePush fuel h queue (Some l) = Val (h', queue') /\
    is_queue h' queue' (ms ++ [l]) /\
    forall l', l' ∉ ms -> h' !! l' = h !! l'.
Proof.
  intros Hq Hnd Hl Hm Hnext Hfuel. destruct ms as [|l0 ms].
  - simpl in Hq; subst queue. exists h, (Some l). simpl.
    split; [reflexivity|]. split; [|reflexivity].
    split; [reflexivity|]. exists m. now rewrite Hnext.
  - pose proof Hq as (-> & _).
    destruct (queue_last_snoc l m ms l0 fuel h)
      as (t & mt & Hlast & Ht & Hin & Hq'); try assumption.
    exists (<[t := set_next (Some l) mt]> h), (Some l0).
    unfold virNetMessageQueuePush. rewrite Hlast; simpl. rewrite Ht.
    split; [reflexivity|]. split; [exact Hq'|].
    intros l' Hl'. apply lookup_insert_ne. intros ->. contradiction.
Qed.

Lemma queue_push_all_spec fuel : forall pending ms h queue,
  is_queue h queue ms ->
  NoDup (ms ++ pending) ->
  (forall l, l ∈ pending -> exists m, h !! l = Some m /\ next m = None) ->
  (length (ms ++ pending) <= fuel)%nat ->
  exists h' queue',
    queue_push_all fuel h queue pending = Val (h', queue') /\
    is_queue h' queue' (ms ++ pending).
Proof.
  induction pending as [|l pending IH]; intros ms h queue Hq Hnd Hnew Hfuel.
  - exists h, queue. rewrite app_nil_r. split; [reflexivity|exact Hq].
  - destruct (Hnew l) as (m & Hm & Hnext); [apply list_elem_of_here|].
    apply NoDup_app in Hnd as (Hnd1 & Hdisj & Hnd2).
    apply NoDup_cons in Hnd2 as [Hlnot Hnd2].
    assert (Hl : l ∉ ms).
    { intros Hin. apply (Hdisj l Hin). apply list_elem_of_here. }
    rewrite length_app in Hfuel; simpl in Hfuel.
    destruct (virNetMessageQueuePush_snoc h queue ms l m fuel)
      as (h1 & q1 & Hpush & Hq1 & Hframe); try assumption; [lia|].
    destruct (IH (ms ++ [l]) h1 q1) as (h' & queue' & Hall & Hq').
    + exact Hq1.
    + rewrite <- app_assoc. simpl. apply NoDup_app. split; [assumption|].
      split; [exact Hdisj|]. apply NoDup_cons. now split.
    + intros l' Hl'. rewrite Hframe.
      * apply Hnew. now apply list_elem_of_further.
      * intros Hin. apply (Hdisj l' Hin). now apply list_elem_of_further.
    + rewrite !length_app; simpl. lia.
    + exists h', queue'. simpl. rewrite Hpush; simpl.
      split; [exact Hall|]. rewrite <- app_assoc in Hq'. exact Hq'.
Qed.

Lemma queue_serve_n_spec : forall ms h queue,
  is_queue h queue ms ->
  NoDup ms ->
  exists h',
    queue_serve_n (length ms) h queue
    = Val (h', None, map (fun l => (Some l, None)) ms).
Proof.
  induction ms as [|l ms IH]; intros h queue Hq Hnd.
  - simpl in Hq; subst queue. exists h. reflexivity.
  - destruct Hq as (-> & m & Hm & Hrest).
    apply NoDup_cons in Hnd as [Hlnot Hnd].
    destruct (IH (<[l := set_next None m]> h) (next m)) as [h' Hserve].
    { now apply is_queue_insert_other. }
    { assumption. }
    exists h'. simpl. rewrite Hm; simpl. rewrite Hserve; simpl.
    now rewrite lookup_insert_eq.
Qed.

(** C5.  Distinct messages that are in no queue when they are pushed, as
    a caller of push has to see to (their [next] link is null, as new,
    cleared and served messages have it), pushed in order on an empty
    queue, come back in the same order from as many calls of serve, each
    with a null [next] link, and leave the queue empty; serve on an empty
    queue returns the null pointer. *)
Theorem queue_push_serve_fifo (h : gmap loc virNetMessage)
    (ms : list loc) (fuel : nat) :
  NoDup ms ->
  (forall l, l ∈ ms -> exists m, h !! l = Some m /\ next m = None) ->
  (length ms <= fuel)%nat ->
  exists h1 queue1 h2,
    queue_push_all fuel h None ms = Val (h1, queue1) /\
    queue_serve_n (length ms) h1 queue1
    = Val (h2, None, map (fun l => (Some l, None)) ms) /\
    virNetMessageQueueServe h2 None = Val (h2, None, None).
Proof.
  intros Hnd Hnew Hfuel.
  destruct (queue_push_all_spec fuel ms [] h None)
    as (h1 & queue1 & Hpush & Hq); simpl; try assumption; try reflexivity.
  simpl in Hq.
  destruct (queue_serve_n_spec ms h1 queue1 Hq Hnd) as [h2 Hserve].
  exists h1, queue1, h2. repeat split; assumption.
Qed.

End Queue.

Section EncodeLemmas.
Context `{Constants}.
Variable fresh_mem : nat -> byte.
Variable xdr_virNetMessageHeader : virNetMessageHeader -> xdrproc_t.

Hypothesis Hconst : constants_ok.

Lemma VIR_REALLOC_N_length buf n :
  length (VIR_REALLOC_N fresh_mem buf n) = Z.to_nat n.
Proof.
  unfold VIR_REALLOC_N.
  rewrite length_app, length_take, length_map, length_seq. lia.
Qed.

Lemma mem_load_length mem off len bs :
  mem_load mem off len = Val bs -> Z.of_nat (length bs) = len.
Proof.
  unfold mem_load. case_bool_decide as Hr; [|discriminate].
  intros [= <-]. rewrite length_take, length_drop. lia.
Qed.

Lemma mem_store_bounds mem off src mem' :
  mem_store mem off src = Val mem' ->
  0 <= off /\ off + Z.of_nat (length src) <= Z.of_nat (length mem).
Proof.
  unfold mem_store. case_bool_decide as Hr; [|discriminate]. now intros _.
Qed.

Lemma payload_stream_valid msg :
  encode_inv msg -> xdr_valid (payload_stream msg).
Proof.
  destruct Hconst as [Hinit Hmax].
  intros (Hoff & Hlen & Hcap). unfold VIR_NET_MESSAGE_LEN_MAX in Hcap.
  unfold xdr_valid, payload_stream; simpl.
  rewrite usize_small by lia. rewrite u32_small by lia. lia.
Qed.

Lemma payload_stream_size msg :
  encode_inv msg ->
  x_size (payload_stream msg) = bufferLength msg - bufferOffset msg.
Proof.
  destruct Hconst as [Hinit Hmax].
  intros (Hoff & Hlen & Hcap). unfold VIR_NET_MESSAGE_LEN_MAX in Hcap.
  unfold payload_stream; simpl.
  rewrite usize_small by lia. apply u32_small; lia.
Qed.

(** [xdr_u_int] on a valid encoding stream: it fails and leaves the
    stream alone, or writes its word and moves four bytes on. *)
Lemma xdr_u_int_encode_cases xdr v :
  xdr_valid xdr -> x_op xdr = XDR_ENCODE ->
  xdr_u_int xdr v = Val (false, xdr, v) \/
  exists mem,
    mem_store (x_mem xdr) (x_base xdr + x_pos xdr) (be32_bytes (u32 v))
    = Val mem /\
    x_pos xdr + 4 <= x_size xdr /\
    xdr_u_int xdr v =
    Val (true, mkXDR XDR_ENCODE mem (x_base xdr) (x_size xdr)
                 (x_pos xdr + 4), v).
Proof.
  intros (Hbase & Hpos & Hend) Hop.
  destruct (Z_lt_ge_dec (x_size xdr - x_pos xdr) 4) as [Hshort|Hroom].
  - left. now apply xdr_u_int_short.
  - right. destruct (xdr_u_int_encode xdr v) as (mem & Hst & Hx);
      try assumption; try lia.
    exists mem. repeat split; [assumption|lia|assumption].
Qed.

(** The growth step, on a message that has its length word. *)
Lemma encode_payload_grow_cases msg :
  VIR_NET_MESSAGE_LEN_MAX <= bufferLength msg
    <= VIR_NET_MESSAGE_MAX + VIR_NET_MESSAGE_LEN_MAX ->
  let cap := bufferLength msg - VIR_NET_MESSAGE_LEN_MAX in
  encode_payload_grow fresh_mem msg =
  if bool_decide (2 * cap > VIR_NET_MESSAGE_MAX) then None
  else
    Some (set_buffer
            (VIR_REALLOC_N fresh_mem (buffer msg)
               (2 * cap + VIR_NET_MESSAGE_LEN_MAX))
            (set_bufferLength (2 * cap + VIR_NET_MESSAGE_LEN_MAX) msg)).
Proof.
  destruct Hconst as [Hinit Hmax].
  intros Hbl cap. subst cap.
  unfold encode_payload_grow, VIR_NET_MESSAGE_LEN_MAX in *.
  rewrite usize_small by lia. rewrite (u32_small (_ - 4)) by lia.
  rewrite (u32_small (_ * 2)) by lia.
  replace ((bufferLength msg - 4) * 2)
    with (2 * (bufferLength msg - 4)) by lia.
  case_bool_decide as Hbig; [reflexivity|].
  simpl. rewrite u32_small by lia. reflexivity.
Qed.

(** Below the length word there is nothing to double: the loop gives
    up. *)
Lemma encode_payload_grow_short msg :
  0 <= bufferLength msg < VIR_NET_MESSAGE_LEN_MAX ->
  encode_payload_grow fresh_mem msg = None.
Proof.
  destruct Hconst as [Hinit Hmax].
  unfold VIR_NET_MESSAGE_LEN_MAX. intros Hbl.
  unfold encode_payload_grow, VIR_NET_MESSAGE_LEN_MAX.
  assert (Hw : u32 (usize (bufferLength msg - 4))
               = 2 ^ 32 + bufferLength msg - 4).
  { unfold u32, usize.
    change (2 ^ 64) with 18446744073709551616.
    change (2 ^ 32) with 4294967296.
    Z.to_euclidean_division_equations; lia. }
  rewrite Hw. rewrite bool_decide_true; [reflexivity|].
  unfold u32.
  change (2 ^ 32) with 4294967296 in *. change (2 ^ 31) with 2147483648 in *.
  Z.to_euclidean_division_equations; lia.
Qed.

Hypothesis Hheader : forall h, xdr_proc_ok (xdr_virNetMessageHeader h).

(** [virNetMessageEncodeHeader] returns, with the buffer allocated at its
    initial size and the cursor inside it. *)
Lemma virNetMessageEncodeHeader_inv msg0 :
  exists r msg,
    virNetMessageEncodeHeader fresh_mem xdr_virNetMessageHeader msg0
    = Val (r, msg) /\
    encode_inv msg /\
    bufferLength msg
    = VIR_NET_MESSAGE_INITIAL + VIR_NET_MESSAGE_LEN_MAX /\
    Z.of_nat (length (buffer msg)) = bufferLength msg.
Proof.
  destruct Hconst as [Hinit Hmax].
  unfold virNetMessageEncodeHeader, VIR_NET_MESSAGE_LEN_MAX, encode_inv.
  simpl. rewrite (usize_small (VIR_NET_MESSAGE_INITIAL + 4)) by lia.
  remember (VIR_NET_MESSAGE_INITIAL + 4) as bl eqn:Hbl.
  remember (VIR_REALLOC_N fresh_mem (buffer msg0) bl) as buf1 eqn:Hb.
  assert (Hbuf1 : Z.of_nat (length buf1) = bl).
  { rewrite Hb, VIR_REALLOC_N_length. lia. }
  destruct (xdr_u_int_encode (xdrmem_create buf1 0 bl XDR_ENCODE) 0)
    as (mem1 & Hst1 & Hx1).
  { reflexivity. }
  { simpl. rewrite u32_small by lia. lia. }
  { simpl. lia. }
  { simpl. lia. }
  rewrite Hx1; simpl. rewrite (u32_small bl) by lia.
  apply mem_store_length in Hst1. simpl in Hst1.
  destruct (Hheader (header msg0) (mkXDR XDR_ENCODE mem1 0 bl (0 + 4)))
    as (ok & xdr2 & Hhdr & Hop2 & Hbase2 & Hsize2 & Hmem2 & Hpos2).
  { unfold xdr_valid; simpl. lia. }
  simpl in Hop2, Hbase2, Hsize2, Hmem2, Hpos2.
  rewrite Hhdr; simpl. destruct ok; simpl.
  - unfold xdr_setpos. rewrite bool_decide_true by lia.
    destruct (xdr_u_int_encode
                (mkXDR (x_op xdr2) (x_mem xdr2) (x_base xdr2)
                   (x_size xdr2) 0) (xdr_getpos xdr2))
      as (mem3 & Hst3 & Hx3); simpl; try lia; try assumption.
    rewrite Hx3; simpl. apply mem_store_length in Hst3. simpl in Hst3.
    unfold xdr_getpos. rewrite usize_small by lia.
    eexists _, _. split; [reflexivity|]. simpl.
    unfold VIR_NET_MESSAGE_LEN_MAX. lia.
  - eexists _, _. split; [reflexivity|]. simpl.
    unfold VIR_NET_MESSAGE_LEN_MAX. lia.
Qed.

Lemma virNetMessageEncodeNumFDs_inv msg :
  encode_inv msg ->
  exists r msg',
    virNetMessageEncodeNumFDs msg = Val (r, msg') /\
    encode_inv msg' /\
    bufferLength msg' = bufferLength msg /\
    Z.of_nat (length (buffer msg')) = Z.of_nat (length (buffer msg)).
Proof.
  intros Hinv. pose proof (payload_stream_valid msg Hinv) as Hvalid.
  pose proof (payload_stream_size msg Hinv) as Hsize.
  destruct Hinv as (Hoff & Hlen & Hcap). destruct Hconst as [Hinit Hmax].
  unfold VIR_NET_MESSAGE_LEN_MAX in Hcap.
  unfold virNetMessageEncodeNumFDs. fold (payload_stream msg).
  case_bool_decide as Hbig.
  { eexists _, _. split; [reflexivity|].
    unfold encode_inv, VIR_NET_MESSAGE_LEN_MAX. lia. }
  destruct (xdr_u_int_encode_cases (payload_stream msg) (u32 (nfds msg))
              Hvalid eq_refl) as [Hx|(mem & Hst & Hroom & Hx)];
    rewrite Hx; simpl.
  - eexists _, _. split; [reflexivity|].
    unfold encode_inv, VIR_NET_MESSAGE_LEN_MAX; simpl. lia.
  - apply mem_store_length in Hst. rewrite Hsize in Hroom.
    simpl in Hst, Hroom. unfold xdr_getpos; simpl.
    rewrite usize_small by lia.
    eexists _, _. split; [reflexivity|].
    unfold encode_inv, VIR_NET_MESSAGE_LEN_MAX; simpl. lia.
Qed.

(** The step that grows the buffer keeps the cursors in order and the
    buffer as long as it is declared. *)
Lemma encode_payload_grow_inv msg mem msg' :
  encode_inv msg ->
  encode_payload_grow fresh_mem (set_buffer mem msg) = Some msg' ->
  encode_inv msg' /\
  bufferOffset msg' = bufferOffset msg /\
  VIR_NET_MESSAGE_LEN_MAX <= bufferLength msg /\
  bufferLength msg' - VIR_NET_MESSAGE_LEN_MAX
  = 2 * (bufferLength msg - VIR_NET_MESSAGE_LEN_MAX) /\
  Z.of_nat (length (buffer msg')) = bufferLength msg'.
Proof.
  destruct Hconst as [Hinit Hmax].
  intros (Hoff & Hlen & Hcap) Hgrow.
  destruct (Z_lt_ge_dec (bufferLength msg) VIR_NET_MESSAGE_LEN_MAX)
    as [Hshort|Hlong].
  { rewrite encode_payload_grow_short in Hgrow; [discriminate|].
    simpl. lia. }
  rewrite encode_payload_grow_cases in Hgrow by (simpl; lia).
  simpl in Hgrow. case_bool_decide as Hbig; [discriminate|].
  injection Hgrow as <-. unfold encode_inv; simpl.
  rewrite VIR_REALLOC_N_length.
  unfold VIR_NET_MESSAGE_LEN_MAX in *. lia.
Qed.

Lemma encoding_inv msg :
  encoding fresh_mem xdr_virNetMessageHeader msg ->
  encode_inv msg /\ VIR_NET_MESSAGE_LEN_MAX < bufferLength msg.
Proof.
  destruct Hconst as [Hinit Hmax].
  induction 1 as [msg0 msg Hhdr|msg msg' _ [IH1 IH2] Hfds
                 |msg mem msg' _ [IH1 IH2] Hgrow].
  - destruct (virNetMessageEncodeHeader_inv msg0)
      as (r & m & Heq & Hinv & Hbl & _).
    rewrite Hhdr in Heq. injection Heq as <- <-.
    split; [assumption|]. lia.
  - destruct (virNetMessageEncodeNumFDs_inv msg IH1)
      as (r & m & Heq & Hinv & Hbl & _).
    rewrite Hfds in Heq. injection Heq as <- <-.
    split; [assumption|]. lia.
  - destruct (encode_payload_grow_inv msg mem msg' IH1 Hgrow)
      as (Hinv & _ & _ & Hbl & _).
    split; [assumption|]. unfold VIR_NET_MESSAGE_LEN_MAX in *. lia.
Qed.

(** The end of the payload encoders: the length word written is the
    cursor, which becomes the declared length. *)
Lemma reencode_length_cases msg r msg' :
  0 <= bufferOffset msg < 2 ^ 32 ->
  reencode_length msg = Val (r, msg') ->
  length (buffer msg') = length (buffer msg) /\
  match r with
  | Success =>
      bufferLength msg' = bufferOffset msg /\ bufferOffset msg' = 0 /\
      length_word msg' = Some (bufferLength msg')
  | Failure _ =>
      bufferLength msg' = bufferLength msg /\
      bufferOffset msg' = bufferOffset msg
  end.
Proof.
  intros Hoff. unfold reencode_length, xdr_u_int. simpl.
  case_bool_decide as Hshort; simpl.
  { intros [= <- <-]. simpl. auto. }
  rewrite Z.add_0_r, !(u32_small (bufferOffset msg)) by lia.
  destruct (mem_store (buffer msg) 0 (be32_bytes (bufferOffset msg)))
    as [mem| |] eqn:Hst; simpl; try discriminate.
  intros [= <- <-]. simpl. split; [now apply mem_store_length in Hst|].
  repeat split. unfold length_word; simpl.
  apply mem_load_store in Hst. rewrite be32_bytes_length in Hst.
  change (Z.of_nat 4) with 4 in Hst. rewrite Hst.
  now apply be32_value_bytes.
Qed.

Lemma encode_payload_loop_inv filter :
  xdr_proc_ok filter ->
  forall fuel msg r,
    encode_inv msg ->
    encode_payload_loop fresh_mem fuel filter msg (payload_stream msg)
    = Val r ->
    match r with
    | inl msg' =>
        encode_inv msg' /\ bufferLength msg <= bufferLength msg' /\
        bufferOffset msg' = bufferOffset msg
    | inr (msg', xdr') =>
        encode_inv msg' /\ bufferLength msg <= bufferLength msg' /\
        bufferOffset msg' = bufferOffset msg /\
        0 <= x_pos xdr' <= bufferLength msg' - bufferOffset msg'
    end.
Proof.
  intros Hf. induction fuel as [|fuel IH]; intros msg r Hinv Hloop;
    [discriminate|].
  simpl in Hloop.
  destruct (Hf (payload_stream msg) (payload_stream_valid msg Hinv))
    as (ok & xdr' & Hfx & _ & _ & _ & Hmem & Hpos).
  rewrite Hfx in Hloop; simpl in Hloop.
  rewrite (payload_stream_size msg Hinv) in Hpos.
  assert (Hsync : encode_inv (sync_buffer xdr' msg)).
  { destruct Hinv as (Hoff & Hlen & Hcap). unfold encode_inv; simpl.
    simpl in Hmem. rewrite Hmem. auto. }
  destruct ok.
  - injection Hloop as <-. simpl. repeat split; try apply Hsync; lia.
  - destruct (encode_payload_grow fresh_mem (sync_buffer xdr' msg))
      as [msg2|] eqn:Hgrow.
    + destruct (encode_payload_grow_inv msg (x_mem xdr') msg2 Hinv Hgrow)
        as (Hinv2 & Hoff2 & Hlo & Hbl2 & _).
      specialize (IH msg2 r Hinv2 Hloop).
      unfold VIR_NET_MESSAGE_LEN_MAX in *.
      destruct r as [msg'|[msg' xdr'']].
      * destruct IH as (Hi & Hb & Ho). repeat split; try apply Hi; lia.
      * destruct IH as (Hi & Hb & Ho & Hp).
        repeat split; try apply Hi; lia.
    + injection Hloop as <-. simpl. repeat split; try apply Hsync; lia.
Qed.

Lemma reencode_length_cursors msg0 msg r msg' :
  encode_inv msg ->
  bufferOffset msg0 <= bufferOffset msg ->
  bufferLength msg0 <= bufferLength msg ->
  reencode_length msg = Val (r, msg') ->
  step_cursors msg0 r msg'.
Proof.
  destruct Hconst as [Hinit Hmax].
  intros (Hoff & Hlen & Hcap) Ho Hb Hre.
  unfold VIR_NET_MESSAGE_LEN_MAX in *.
  destruct (reencode_length_cases msg r msg' ltac:(lia) Hre)
    as (Hmem & Hr).
  unfold step_cursors, encode_inv, VIR_NET_MESSAGE_LEN_MAX.
  destruct r as [|e].
  - destruct Hr as (Hbl & Hoff' & Hword). rewrite Hmem. repeat split;
      try assumption; lia.
  - destruct Hr as (Hbl & Hoff'). rewrite Hmem. repeat split; lia.
Qed.

Lemma virNetMessageEncodePayload_cursors fuel msg filter r msg' :
  xdr_proc_ok filter ->
  encode_inv msg ->
  virNetMessageEncodePayload fresh_mem fuel msg filter = Val (r, msg') ->
  step_cursors msg r msg'.
Proof.
  destruct Hconst as [Hinit Hmax].
  intros Hf Hinv. unfold virNetMessageEncodePayload.
  destruct (encode_payload_loop fresh_mem fuel filter msg
              (payload_stream msg)) as [res| |] eqn:Hloop;
    simpl; try discriminate.
  pose proof (encode_payload_loop_inv filter Hf fuel msg res Hinv Hloop)
    as Hres.
  destruct res as [msg1|[msg1 xdr1]].
  - intros [= <- <-]. destruct Hres as (Hi & Hb & Ho).
    split; assumption.
  - destruct Hres as (Hi & Hb & Ho & Hp). intros Hre.
    pose proof Hi as (Hoff1 & Hlen1 & Hcap1).
    unfold VIR_NET_MESSAGE_LEN_MAX in *. unfold xdr_getpos in Hre.
    rewrite usize_small in Hre by lia.
    apply (reencode_length_cursors msg _ r msg') in Hre;
      [assumption| |simpl; lia|simpl; lia].
    unfold encode_inv, VIR_NET_MESSAGE_LEN_MAX; simpl. lia.
Qed.

Lemma usize_le z : 0 <= z -> usize z <= z.
Proof. intros Hz. unfold usize. apply Z.mod_le; lia. Qed.

Lemma virNetMessageEncodePayloadRaw_cursors msg data len r msg' :
  encode_inv msg ->
  virNetMessageEncodePayloadRaw fresh_mem msg data len = Val (r, msg') ->
  step_cursors msg r msg'.
Proof.
  destruct Hconst as [Hinit Hmax].
  intros Hinv. pose proof Hinv as (Hoff & Hlen & Hcap).
  assert (Hplain : forall r msg',
             reencode_length msg = Val (r, msg') ->
             step_cursors msg r msg').
  { intros r0 m0. apply reencode_length_cursors; [assumption|lia|lia]. }
  unfold virNetMessageEncodePayloadRaw.
  destruct data as [bytes|]; [|apply Hplain].
  case_bool_decide as Hpos; [|apply Hplain].
  unfold VIR_NET_MESSAGE_LEN_MAX in *.
  rewrite (usize_small (bufferLength msg - bufferOffset msg)) by lia.
  case_bool_decide as Hsmall.
  - case_bool_decide as Hbig.
    + intros [= <- <-]. split; [assumption|lia].
    + simpl.
      destruct (mem_load bytes 0 len) as [src| |] eqn:Hld;
        simpl; try discriminate.
      apply mem_load_length in Hld.
      destruct (mem_store _ (bufferOffset msg) src) as [mem| |] eqn:Hst;
        simpl; try discriminate.
      pose proof (mem_store_length _ _ _ _ Hst) as Hmem.
      apply mem_store_bounds in Hst as [_ Hend].
      rewrite VIR_REALLOC_N_length in Hend, Hmem.
      pose proof (usize_range (bufferOffset msg + len)) as Hrange.
      pose proof (usize_le (bufferOffset msg + len) ltac:(lia)) as Hle.
      rewrite Z2Nat.id in Hend by lia.
      intros Hre.
      apply (reencode_length_cursors msg _ r msg') in Hre;
        [assumption| |simpl; lia|simpl; lia].
      unfold encode_inv, VIR_NET_MESSAGE_LEN_MAX; simpl. rewrite Hmem. lia.
  - destruct (mem_load bytes 0 len) as [src| |] eqn:Hld;
      simpl; try discriminate.
    apply mem_load_length in Hld.
    destruct (mem_store _ (bufferOffset msg) src) as [mem| |] eqn:Hst;
      simpl; try discriminate.
    pose proof (mem_store_length _ _ _ _ Hst) as Hmem.
    rewrite usize_small by lia. intros Hre.
    apply (reencode_length_cursors msg _ r msg') in Hre;
      [assumption| |simpl; lia|simpl; lia].
    unfold encode_inv, VIR_NET_MESSAGE_LEN_MAX; simpl. rewrite Hmem. lia.
Qed.

(** C3.  On a message whose header has been encoded, after a payload
    encoder, typed or raw, has returned 0, the big-endian word in the
    first four bytes of the buffer is [bufferLength], and [bufferOffset]
    is 0. *)
Theorem encode_payload_length_prefix (msg : virNetMessage) :
  encoding fresh_mem xdr_virNetMessageHeader msg ->
  (forall fuel filter msg',
     xdr_proc_ok filter ->
     virNetMessageEncodePayload fresh_mem fuel msg filter
     = Val (Success, msg') ->
     length_word msg' = Some (bufferLength msg') /\
     bufferOffset msg' = 0) /\
  (forall data len msg',
     virNetMessageEncodePayloadRaw fresh_mem msg data len
     = Val (Success, msg') ->
     length_word msg' = Some (bufferLength msg') /\
     bufferOffset msg' = 0).
Proof.
  intros Henc. destruct (encoding_inv msg Henc) as [Hinv _]. split.
  - intros fuel filter msg' Hf Hrun.
    destruct (virNetMessageEncodePayload_cursors _ _ _ _ _ Hf Hinv Hrun)
      as (_ & _ & Hoff & Hword).
    split; assumption.
  - intros data len msg' Hrun.
    destruct (virNetMessageEncodePayloadRaw_cursors _ _ _ _ _ Hinv Hrun)
      as (_ & _ & Hoff & Hword).
    split; assumption.
Qed.

End EncodeLemmas.

Section GrowAndRetry.
Context `{Constants}.
Variable fresh_mem : nat -> byte.
Variable xdr_virNetMessageHeader : virNetMessageHeader -> xdrproc_t.

Hypothesis Hconst : constants_ok.

Lemma virNetMessageEncodeHeader_length msg0 r msg :
  virNetMessageEncodeHeader fresh_mem xdr_virNetMessageHeader msg0
  = Val (r, msg) ->
  bufferLength msg
  = VIR_NET_MESSAGE_INITIAL + VIR_NET_MESSAGE_LEN_MAX.
Proof.
  destruct Hconst as [Hinit Hmax].
  unfold virNetMessageEncodeHeader, VIR_NET_MESSAGE_LEN_MAX. simpl.
  rewrite (usize_small (VIR_NET_MESSAGE_INITIAL + 4)) by lia.
  destruct (xdr_u_int _ 0) as [[[ok1 xdr1] len1]| |]; simpl;
    try discriminate.
  destruct ok1; simpl; [|intros [= <- <-]; reflexivity].
  destruct (xdr_virNetMessageHeader _ xdr1) as [[ok2 xdr2]| |]; simpl;
    try discriminate.
  destruct ok2; simpl; [|intros [= <- <-]; reflexivity].
  destruct (xdr_setpos xdr2 0) as [ok3 xdr3].
  destruct (xdr_u_int xdr3 _) as [[[ok4 xdr4] len4]| |]; simpl;
    try discriminate.
  destruct ok4; simpl; intros [= <- <-]; reflexivity.
Qed.

Lemma virNetMessageEncodeNumFDs_length msg r msg' :
  virNetMessageEncodeNumFDs msg = Val (r, msg') ->
  bufferLength msg' = bufferLength msg.
Proof.
  unfold virNetMessageEncodeNumFDs.
  case_bool_decide; [intros [= <- <-]; reflexivity|].
  destruct (xdr_u_int _ _) as [[[ok xdr] n]| |]; simpl; try discriminate.
  destruct ok; simpl; intros [= <- <-]; reflexivity.
Qed.

(** In an encode in progress the payload capacity is at least one byte
    and at most the maximum. *)
Lemma encoding_capacity msg :
  encoding fresh_mem xdr_virNetMessageHeader msg ->
  VIR_NET_MESSAGE_LEN_MAX < bufferLength msg
    <= VIR_NET_MESSAGE_MAX + VIR_NET_MESSAGE_LEN_MAX.
Proof.
  destruct Hconst as [Hinit Hmax].
  induction 1 as [msg0 msg Hhdr|msg msg' _ IH Hfds|msg mem msg' _ IH Hgrow].
  - apply virNetMessageEncodeHeader_length in Hhdr. lia.
  - apply virNetMessageEncodeNumFDs_length in Hfds. lia.
  - rewrite (encode_payload_grow_cases fresh_mem Hconst) in Hgrow
      by (simpl; lia).
    simpl in Hgrow. case_bool_decide as Hbig; [discriminate|].
    injection Hgrow as <-. simpl.
    unfold VIR_NET_MESSAGE_LEN_MAX in *. lia.
Qed.

(** With a payload capacity [cap] such that [cap * 2 ^ n] is beyond the
    maximum, [n] retries are enough for the loop to end. *)
Lemma encode_payload_loop_ends filter :
  (forall xdr, filter xdr <> OutOfFuel) ->
  forall n msg xdr,
    VIR_NET_MESSAGE_LEN_MAX < bufferLength msg
      <= VIR_NET_MESSAGE_MAX + VIR_NET_MESSAGE_LEN_MAX ->
    VIR_NET_MESSAGE_MAX
      < (bufferLength msg - VIR_NET_MESSAGE_LEN_MAX) * 2 ^ Z.of_nat n ->
    encode_payload_loop fresh_mem (S n) filter msg xdr <> OutOfFuel.
Proof.
  intros Hret. induction n as [|n IH]; intros msg xdr Hbl Hpow;
    cbn [encode_payload_loop];
    (destruct (filter xdr) as [[ok xdr']| |] eqn:Hf; simpl;
     [|discriminate|now apply Hret in Hf]);
    (destruct ok; [discriminate|]);
    rewrite (encode_payload_grow_cases fresh_mem Hconst) by (simpl; lia);
    simpl; case_bool_decide as Hbig; try discriminate.
  - exfalso. simpl in Hpow. lia.
  - apply IH; simpl.
    + unfold VIR_NET_MESSAGE_LEN_MAX in *. lia.
    + rewrite Nat2Z.inj_succ, Z.pow_succ_r in Hpow by lia.
      unfold VIR_NET_MESSAGE_LEN_MAX in *. lia.
Qed.

Lemma xdr_u_int_returns xdr v : xdr_u_int xdr v <> OutOfFuel.
Proof.
  unfold xdr_u_int, mem_store, mem_load.
  repeat (case_bool_decide; simpl; try discriminate).
  - destruct (x_op xdr); simpl; [discriminate|].
    destruct (be32_value _); discriminate.
  - destruct (x_op xdr); simpl; discriminate.
  - destruct (x_op xdr); simpl; [discriminate|].
    destruct (be32_value _); discriminate.
  - destruct (x_op xdr); simpl; discriminate.
Qed.

Lemma reencode_length_returns msg : reencode_length msg <> OutOfFuel.
Proof.
  unfold reencode_length.
  destruct (xdr_u_int _ _) as [[[ok xdr] v]| |] eqn:Hx; simpl.
  - destruct ok; discriminate.
  - discriminate.
  - now apply xdr_u_int_returns in Hx.
Qed.

(** C2.  On a message whose header has been encoded, when the marshaller
    given to [virNetMessageEncodePayload] fails, whatever the reason, the
    payload capacity [bufferLength - 4] is doubled and the marshaller is
    tried again on the enlarged buffer, which is once more a message in
    the course of an encode; the encoder gives up, with its payload error,
    exactly when twice the capacity exceeds [VIR_NET_MESSAGE_MAX].  With a
    marshaller that returns, the loop has ended after 32 rounds. *)
Theorem virNetMessageEncodePayload_grow_and_retry
    (msg : virNetMessage) (filter : xdrproc_t) (xdr' : XDR) (fuel : nat) :
  encoding fresh_mem xdr_virNetMessageHeader msg ->
  filter (payload_stream msg) = Val (false, xdr') ->
  let cap := bufferLength msg - VIR_NET_MESSAGE_LEN_MAX in
  let grown :=
    set_buffer
      (VIR_REALLOC_N fresh_mem (x_mem xdr')
         (2 * cap + VIR_NET_MESSAGE_LEN_MAX))
      (set_bufferLength (2 * cap + VIR_NET_MESSAGE_LEN_MAX)
         (sync_buffer xdr' msg)) in
  (2 * cap > VIR_NET_MESSAGE_MAX ->
     virNetMessageEncodePayload fresh_mem (S fuel) msg filter =
     Val (Failure (mkReport VIR_ERR_RPC
                     "Unable to encode message payload" []),
          sync_buffer xdr' msg)) /\
  (2 * cap <= VIR_NET_MESSAGE_MAX ->
     virNetMessageEncodePayload fresh_mem (S fuel) msg filter =
     virNetMessageEncodePayload fresh_mem fuel grown filter /\
     encoding fresh_mem xdr_virNetMessageHeader grown /\
     bufferLength grown - VIR_NET_MESSAGE_LEN_MAX = 2 * cap /\
     bufferOffset grown = bufferOffset msg) /\
  ((forall xdr, filter xdr <> OutOfFuel) ->
   forall n, (32 <= n)%nat ->
     virNetMessageEncodePayload fresh_mem n msg filter <> OutOfFuel).
Proof.
  intros Henc Hfail cap grown.
  pose proof (encoding_capacity msg Henc) as Hbl.
  pose proof (encode_payload_grow_cases fresh_mem Hconst
                (sync_buffer xdr' msg) ltac:(simpl; lia)) as Hgrow.
  simpl in Hgrow. fold cap in Hgrow. fold grown in Hgrow.
  split; [|split].
  - intros Hbig. unfold virNetMessageEncodePayload.
    cbn [encode_payload_loop]. rewrite Hfail; simpl.
    rewrite Hgrow. now rewrite bool_decide_true by lia.
  - intros Hfit. rewrite bool_decide_false in Hgrow by lia.
    split; [|split; [|split]].
    + unfold virNetMessageEncodePayload at 1.
      cbn [encode_payload_loop]. rewrite Hfail; simpl.
      rewrite Hgrow. reflexivity.
    + apply (encoding_grow _ _ msg (x_mem xdr')); assumption.
    + unfold grown; simpl. lia.
    + reflexivity.
  - intros Hret n Hn. destruct n as [|n]; [lia|].
    unfold virNetMessageEncodePayload.
    pose proof (encode_payload_loop_ends filter Hret n msg
                  (payload_stream msg) Hbl) as Hends.
    destruct (encode_payload_loop fresh_mem (S n) filter msg
                (payload_stream msg)) as [res| |] eqn:Hloop.
    + destruct res as [m1|[m1 x1]]; simpl; [discriminate|].
      apply reencode_length_returns.
    + discriminate.
    + exfalso. apply Hends; [|reflexivity].
      destruct Hconst as [Hinit Hmax].
      assert (Hp : 2 ^ 31 <= 2 ^ Z.of_nat n)
        by (apply Z.pow_le_mono_r; lia).
      unfold VIR_NET_MESSAGE_LEN_MAX in *. nia.
Qed.

End GrowAndRetry.

(** * The model at work *)

Section Instances.

Lemma be32_value_total bs :
  length bs = 4%nat -> exists w, be32_value bs = Some w.
Proof.
  destruct bs as [|b0 [|b1 [|b2 [|b3 [|? ?]]]]]; simpl; try discriminate.
  intros _. eexists; reflexivity.
Qed.

Lemma xdr_u_int_ok v xdr :
  xdr_valid xdr ->
  exists ok xdr' v',
    xdr_u_int xdr v = Val (ok, xdr', v') /\
    xdr_same_frame xdr xdr' /\ xdr_valid xdr'.
Proof.
  intros Hvalid. pose proof Hvalid as (Hbase & Hpos & Hend).
  destruct (Z_lt_ge_dec (x_size xdr - x_pos xdr) 4) as [Hshort|Hroom].
  { exists false, xdr, v. rewrite xdr_u_int_short by assumption.
    unfold xdr_same_frame. auto 10. }
  destruct (x_op xdr) eqn:Hop.
  - destruct (xdr_u_int_encode xdr v) as (mem & Hst & Hx);
      try assumption; try lia.
    apply mem_store_length in Hst.
    exists true, (mkXDR XDR_ENCODE mem (x_base xdr) (x_size xdr)
                    (x_pos xdr + 4)), v.
    split; [exact Hx|]. unfold xdr_same_frame, xdr_valid; simpl.
    rewrite Hst, Hop. repeat split; lia.
  - destruct (mem_load (x_mem xdr) (x_base xdr + x_pos xdr) 4)
      as [bs| |] eqn:Hld.
    + pose proof (mem_load_length _ _ _ _ Hld) as Hlen.
      destruct (be32_value_total bs ltac:(lia)) as [w Hw].
      exists true, (mkXDR XDR_DECODE (x_mem xdr) (x_base xdr) (x_size xdr)
                      (x_pos xdr + 4)), w.
      split; [apply (xdr_u_int_decode xdr v bs w);
              [assumption|lia|assumption|assumption]|].
      unfold xdr_same_frame, xdr_valid; simpl.
      rewrite Hop. repeat split; lia.
    + unfold mem_load in Hld. rewrite bool_decide_true in Hld by lia.
      discriminate.
    + unfold mem_load in Hld. rewrite bool_decide_true in Hld by lia.
      discriminate.
Qed.

Lemma xdr_words_valid : forall vs xdr,
  xdr_valid xdr ->
  exists ok xdr',
    xdr_words vs xdr = Val (ok, xdr') /\
    xdr_same_frame xdr xdr' /\ xdr_valid xdr'.
Proof.
  induction vs as [|v vs IH]; intros xdr Hvalid.
  - exists true, xdr. split; [reflexivity|]. split; [|assumption].
    destruct Hvalid as (? & ? & ?). unfold xdr_same_frame. auto 10.
  - destruct (xdr_u_int_ok v xdr Hvalid)
      as (ok & xdr1 & v1 & Hx & Hframe1 & Hvalid1).
    simpl. rewrite Hx; simpl. destruct ok.
    + destruct (IH xdr1 Hvalid1) as (ok2 & xdr2 & Hw & Hframe2 & Hvalid2).
      exists ok2, xdr2. split; [exact Hw|]. split; [|assumption].
      destruct Hframe1 as (Ho1 & Hb1 & Hs1 & Hm1 & Hp1).
      destruct Hframe2 as (Ho2 & Hb2 & Hs2 & Hm2 & Hp2).
      unfold xdr_same_frame. rewrite Ho2, Hb2, Hs2, Hm2.
      rewrite <- Hs1. auto 10.
    + exists false, xdr1. auto.
Qed.

Lemma xdr_words_ok vs : xdr_proc_ok (xdr_words vs).
Proof.
  intros xdr Hvalid.
  destruct (xdr_words_valid vs xdr Hvalid) as (ok & xdr' & Hw & Hframe & _).
  exists ok, xdr'. now split.
Qed.

Lemma xdr_header_words_ok h : xdr_proc_ok (xdr_header_words h).
Proof. apply xdr_words_ok. Qed.

Lemma small_constants_ok : constants_ok (H := small_constants).
Proof. unfold constants_ok; simpl. lia. Qed.

Lemma header_msg_encoding :
  encoding (H := small_constants) zero_mem xdr_header_words header_msg.
Proof. apply (encoding_header _ _ message_zero). reflexivity. Qed.

Lemma grown_msg_encoding :
  encoding (H := small_constants) zero_mem xdr_header_words grown_msg.
Proof.
  apply (encoding_grow _ _ header_msg (buffer header_msg));
    [exact header_msg_encoding|reflexivity].
Qed.

Lemma full_msg_encoding :
  encoding (H := small_constants) zero_mem xdr_header_words full_msg.
Proof.
  apply (encoding_grow _ _ grown_msg (buffer grown_msg));
    [exact grown_msg_encoding|reflexivity].
Qed.

End Instances.

(** The boundary cases of the length decoder: a length below the length
    word, a length beyond the largest frame, a frame of twelve bytes. *)
Lemma virNetMessageDecodeLength_spec_witness :
  virNetMessageDecodeLength (H := small_constants) zero_mem
    (length_msg x00 x00 x00 x03)
  = Val (Failure (mkReport 39
           "packet %d bytes received from server too small, want %d"
           [3; 4]),
         set_bufferOffset 4 (length_msg x00 x00 x00 x03)) /\
  virNetMessageDecodeLength (H := small_constants) zero_mem
    (length_msg xff xff xff xff)
  = Val (Failure (mkReport 39
           "packet %d bytes received from server too large, want %d"
           [4294967291; 128]),
         set_bufferOffset 4 (length_msg xff xff xff xff)) /\
  exists msg',
    virNetMessageDecodeLength (H := small_constants) zero_mem
      (length_msg x00 x00 x00 x0c) = Val (Success, msg') /\
    bufferLength msg' = 12 /\ bufferOffset msg' = 4 /\
    length (buffer msg') = 12%nat /\
    take 4 (buffer msg') = [x00; x00; x00; x0c].
Proof.
  split; [|split].
  - apply (proj1 (virNetMessageDecodeLength_spec (H := small_constants)
                    zero_mem (length_msg x00 x00 x00 x03) 3
                    eq_refl eq_refl)).
    lia.
  - apply (proj1 (proj2 (virNetMessageDecodeLength_spec
                           (H := small_constants) zero_mem
                           (length_msg xff xff xff xff) 4294967295
                           eq_refl eq_refl))); simpl; lia.
  - apply (proj2 (proj2 (virNetMessageDecodeLength_spec
                           (H := small_constants) zero_mem
                           (length_msg x00 x00 x00 x0c) 12
                           eq_refl eq_refl))); simpl; lia.
Defined.

(** A marshaller that always fails, on a buffer of 32, then 64, then 128
    bytes of payload under a maximum of 128: one retry, then the end. *)
Lemma virNetMessageEncodePayload_grow_and_retry_witness :
  (virNetMessageEncodePayload (H := small_constants) zero_mem 3 header_msg
     xdr_never
   = virNetMessageEncodePayload (H := small_constants) zero_mem 2 grown_msg
       xdr_never /\
   encoding (H := small_constants) zero_mem xdr_header_words grown_msg /\
   bufferLength grown_msg - 4 = 64 /\
   bufferOffset grown_msg = 28) /\
  virNetMessageEncodePayload (H := small_constants) zero_mem 1 full_msg
    xdr_never
  = Val (Failure (mkReport 39 "Unable to encode message payload" []),
         full_msg) /\
  virNetMessageEncodePayload (H := small_constants) zero_mem 32 header_msg
    xdr_never <> OutOfFuel.
Proof.
  split; [|split].
  - apply (proj1 (proj2 (virNetMessageEncodePayload_grow_and_retry
                           (H := small_constants) zero_mem xdr_header_words
                           small_constants_ok header_msg xdr_never
                           (payload_stream header_msg) 2
                           header_msg_encoding eq_refl))).
    vm_compute. discriminate.
  - apply (proj1 (virNetMessageEncodePayload_grow_and_retry
                    (H := small_constants) zero_mem xdr_header_words
                    small_constants_ok full_msg xdr_never
                    (payload_stream full_msg) 0
                    full_msg_encoding eq_refl)).
    vm_compute. reflexivity.
  - apply (proj2 (proj2 (virNetMessageEncodePayload_grow_and_retry
                           (H := small_constants) zero_mem xdr_header_words
                           small_constants_ok header_msg xdr_never
                           (payload_stream header_msg) 0
                           header_msg_encoding eq_refl))).
    + intros xdr. discriminate.
    + lia.
Defined.

(** The length word after a typed and after a raw payload. *)
Lemma encode_payload_length_prefix_witness :
  (length_word typed_msg = Some (bufferLength typed_msg) /\
   bufferOffset typed_msg = 0) /\
  (length_word raw_msg = Some (bufferLength raw_msg) /\
   bufferOffset raw_msg = 0).
Proof.
  split.
  - apply (proj1 (encode_payload_length_prefix (H := small_constants)
                    zero_mem xdr_header_words small_constants_ok
                    xdr_header_words_ok header_msg header_msg_encoding)
             1%nat (xdr_words [7]) typed_msg (xdr_words_ok [7])).
    vm_compute. reflexivity.
  - apply (proj2 (encode_payload_length_prefix (H := small_constants)
                    zero_mem xdr_header_words small_constants_ok
                    xdr_header_words_ok header_msg header_msg_encoding)
             (Some (replicate 12 xab)) 12 raw_msg).
    vm_compute. reflexivity.
Defined.

(** The cursors after each call of the sample encode: the header, the
    descriptor count, then the payload, for which the buffer grows from 36
    to 68 bytes before the frame is cut to the 44 bytes written. *)
Example sample_trace_cursors :
  cursor_trace sample_trace = [(0, 36, 28); (0, 36, 32); (0, 44, 0)].
Proof. vm_compute. reflexivity. Qed.

(** The smallest frame: a header and no payload, 28 bytes under the header
    marshaller of six words. *)
Example empty_payload_frame :
  virNetMessageEncodePayloadRaw (H := small_constants) zero_mem header_msg
    None 0
  = Val (Success, set_bufferOffset 0 (set_bufferLength 28 header_msg)) /\
  take 4 (buffer header_msg) = [x00; x00; x00; x1c].
Proof. split; vm_compute; reflexivity. Qed.

(** C4 as it is stated fails: the header encoder leaves a declared length
    of 36 bytes, and the raw encoder, called with no data to finish the
    frame, brings it down to the 28 bytes written. *)
Lemma encode_session_length_decreases :
  exists m1 m2,
    encode_session (H := small_constants) zero_mem xdr_header_words 1
      message_zero [OpPayloadRaw None 0]
    = Val [(Success, m1); (Success, m2)] /\
    bufferLength m1 = 36 /\ bufferLength m2 = 28 /\
    bufferLength m2 < bufferLength m1.
Proof.
  exists header_msg, (set_bufferOffset 0 (set_bufferLength 28 header_msg)).
  repeat split; reflexivity.
Qed.


(** Three new messages pushed and served. *)
Lemma queue_push_serve_fifo_witness :
  exists h1 queue1 h2,
    queue_push_all 3 three_messages None [1; 2; 3]%positive
    = Val (h1, queue1) /\
    queue_serve_n 3 h1 queue1
    = Val (h2, None,
           [(Some 1%positive, None); (Some 2%positive, None);
            (Some 3%positive, None)]) /\
    virNetMessageQueueServe h2 None = Val (h2, None, None).
Proof.
  apply (queue_push_serve_fifo three_messages [1; 2; 3]%positive 3).
  - compute_done.
  - intros l Hl.
    repeat (apply elem_of_cons in Hl as [->|Hl]);
      [| | |now apply elem_of_nil in Hl].
    + exists (virNetMessageNew true). split; reflexivity.
    + exists (virNetMessageNew false). split; reflexivity.
    + exists (virNetMessageNew true). split; reflexivity.
  - simpl. lia.
Defined.

(** A tracked message with descriptors and a callback, cleared. *)
Lemma virNetMessageClear_keeps_tracked_witness :
  exists evs,
    virNetMessageClear fd_msg = Val (set_tracked true message_zero, evs).
Proof.
  apply (proj2 (virNetMessageClear_keeps_tracked fd_msg)).
  unfold fds_ok; simpl. lia.
Defined.

(** The same message freed: the callback, then the close of the descriptor
    still open, then the releases. *)
Lemma virNetMessageFree_callback_once_witness :
  virNetMessageFree no_callbacks (<[1%positive := fd_msg]> ∅)
    (Some 1%positive)
  = Val (delete 1%positive (<[1%positive := fd_msg]> ∅),
         [EvCallback 0%N 1%positive 42; EvClose 5; EvFree FreedFds;
          EvFree FreedBuffer; EvFree (FreedMessage 1%positive)]).
Proof.
  apply (proj2 (proj2 (virNetMessageFree_callback_once no_callbacks
                         (<[1%positive := fd_msg]> ∅))
                  1%positive fd_msg 0%N
                  (lookup_insert_eq _ _ _) eq_refl)).
  unfold fds_ok; simpl. lia.
Defined.

(** A record that holds an error, and an empty one without and with a
    thread-local error. *)
Lemma virNetMessageSaveError_first_wins_witness :
  virNetMessageSaveError (H := small_constants)
    (virNetMessageError.mk 39 7 (Some "first") 2 None None None 0 0)
    (Some (virError.mk 1 7 (Some "second") 2 None None None 0 0))
  = virNetMessageError.mk 39 7 (Some "first") 2 None None None 0 0 /\
  virNetMessageSaveError (H := small_constants) virNetMessageError.zero None
  = virNetMessageError.mk 1 7
      (Some "Library function returned error but did not set virError")
      2 None None None 0 0 /\
  virNetMessageSaveError (H := small_constants) virNetMessageError.zero
    (Some (virError.mk 39 7 (Some "first") 2 (Some "a") None None 5 6))
  = virNetMessageError.mk 39 7 (Some "first") 2 (Some "a") None None 5 6.
Proof.
  split; [|split].
  - apply (proj1 (virNetMessageSaveError_first_wins (H := small_constants)
                    (virNetMessageError.mk 39 7 (Some "first") 2
                       None None None 0 0)
                    (Some (virError.mk 1 7 (Some "second") 2
                             None None None 0 0)))).
    simpl. lia.
  - apply (proj1 (proj2 (virNetMessageSaveError_first_wins
                           (H := small_constants)
                           virNetMessageError.zero None)));
      reflexivity.
  - apply (proj2 (proj2 (virNetMessageSaveError_first_wins
                           (H := small_constants)
                           virNetMessageError.zero
                           (Some (virError.mk 39 7 (Some "first") 2
                                    (Some "a") None None 5 6))))
             _ eq_refl eq_refl).
Defined.

(** 33 descriptors are too many; the count of two goes out after the
    header. *)
Lemma virNetMessageEncodeNumFDs_in_range_examples :
  virNetMessageEncodeNumFDs (H := small_constants) (set_nfds 33 header_msg)
  = Val (Failure (mkReport 39
                    "Too many FDs to send %d, expected %d maximum"
                    [33; 32]),
         set_nfds 33 header_msg) /\
  exists mem,
    mem_store (buffer header_msg) 28 [x00; x00; x00; x02] = Val mem /\
    virNetMessageEncodeNumFDs (H := small_constants) (set_nfds 2 header_msg)
    = Val (Success,
           set_bufferOffset 32 (set_buffer mem (set_nfds 2 header_msg))).
Proof.
  split.
  - apply (proj1 (virNetMessageEncodeNumFDs_in_range (H := small_constants)
                    (set_nfds 33 header_msg) ltac:(simpl; lia))).
    simpl. lia.
  - apply (proj2 (virNetMessageEncodeNumFDs_in_range (H := small_constants)
                    (set_nfds 2 header_msg) ltac:(simpl; lia))).
    + simpl. lia.
    + vm_compute. repeat split; intros; discriminate.
    + vm_compute. discriminate.
Defined.

(** A count of 33 read from the wire: the error, and the cursor moved from
    0 to 4. *)
Lemma virNetMessageDecodeNumFDs_too_many_witness :
  virNetMessageDecodeNumFDs (H := small_constants)
    (length_msg x00 x00 x00 x21)
  = Val (Failure (mkReport 39
                    "Received too many FDs %d, expected %d maximum"
                    [33; 32]),
         set_bufferOffset 4 (length_msg x00 x00 x00 x21)) /\
  bufferOffset (set_bufferOffset 4 (length_msg x00 x00 x00 x21))
  <> bufferOffset (length_msg x00 x00 x00 x21).
Proof.
  apply (proj2 (virNetMessageDecodeNumFDs_too_many (H := small_constants)
                  (length_msg x00 x00 x00 x21))
           [x00; x00; x00; x21] 33).
  - vm_compute. repeat split; intros; discriminate.
  - vm_compute. discriminate.
  - reflexivity.
  - reflexivity.
  - lia.
Defined.

(** * More of the codec

    The decoders, the descriptor calls and what the encoders leave in the
    buffer. *)

Section Memory.

Lemma mem_store_inv mem off src mem' :
  mem_store mem off src = Val mem' ->
  0 <= off /\ off + Z.of_nat (length src) <= Z.of_nat (length mem) /\
  mem' = take (Z.to_nat off) mem ++ src
         ++ drop (Z.to_nat off + length src) mem.
Proof.
  unfold mem_store. case_bool_decide; [|discriminate].
  intros [= <-]. tauto.
Qed.

Lemma mem_store_take mem off src mem' n :
  mem_store mem off src = Val mem' ->
  (n <= Z.to_nat off)%nat -> take n mem' = take n mem.
Proof.
  intros Hs Hn. apply mem_store_inv in Hs as (H0 & Hb & ->).
  rewrite take_app_le by (rewrite length_take; lia).
  rewrite take_take. f_equal. lia.
Qed.

Lemma mem_store_drop mem off src mem' n :
  mem_store mem off src = Val mem' ->
  (Z.to_nat off + length src <= n)%nat -> drop n mem' = drop n mem.
Proof.
  intros Hs Hn. apply mem_store_inv in Hs as (H0 & Hb & ->).
  rewrite app_assoc.
  rewrite drop_app_ge by (rewrite length_app, length_take; lia).
  rewrite drop_drop. f_equal.
  rewrite length_app, length_take. lia.
Qed.

Lemma bytes_at_iff mem off bs :
  bytes_at mem off bs <->
  0 <= off /\ off + Z.of_nat (length bs) <= Z.of_nat (length mem) /\
  take (length bs) (drop (Z.to_nat off) mem) = bs.
Proof.
  unfold bytes_at, mem_load. rewrite Nat2Z.id. split.
  - case_bool_decide; [|discriminate]. intros [= Hb]. intuition lia.
  - intros (H0 & Hb & Ht). rewrite bool_decide_eq_true_2 by lia.
    now rewrite Ht.
Qed.

Lemma mem_store_bytes_at mem off src mem' :
  mem_store mem off src = Val mem' -> bytes_at mem' off src.
Proof.
  intros Hs. unfold bytes_at. eapply mem_load_store; eauto.
Qed.

(** A range of bytes depends on the memory up to its end only. *)
Lemma bytes_at_take mem mem' off bs n :
  bytes_at mem off bs ->
  take n mem' = take n mem ->
  off + Z.of_nat (length bs) <= Z.of_nat n ->
  off + Z.of_nat (length bs) <= Z.of_nat (length mem') ->
  bytes_at mem' off bs.
Proof.
  rewrite !bytes_at_iff. intros (H0 & Hb & Ht) Hn Hle Hlen.
  split; [lia|]. split; [lia|].
  rewrite <- Ht at 2.
  rewrite !take_drop_commute.
  replace (take (Z.to_nat off + length bs) mem')
    with (take (Z.to_nat off + length bs) (take n mem'))
    by (rewrite take_take; f_equal; lia).
  replace (take (Z.to_nat off + length bs) mem)
    with (take (Z.to_nat off + length bs) (take n mem))
    by (rewrite take_take; f_equal; lia).
  now rewrite Hn.
Qed.

(** ... and on the memory from its start on only. *)
Lemma bytes_at_drop mem mem' off bs n :
  bytes_at mem off bs ->
  drop n mem' = drop n mem ->
  length mem' = length mem ->
  Z.of_nat n <= off ->
  bytes_at mem' off bs.
Proof.
  rewrite !bytes_at_iff. intros (H0 & Hb & Ht) Hn Hlen Hle.
  split; [lia|]. split; [lia|].
  rewrite <- Ht at 2.
  replace (Z.to_nat off) with (n + (Z.to_nat off - n))%nat by lia.
  rewrite <- !drop_drop. now rewrite Hn.
Qed.

(** A store leaves the bytes outside its range. *)
Lemma bytes_at_store mem off src mem' a bs :
  mem_store mem off src = Val mem' ->
  bytes_at mem a bs ->
  a + Z.of_nat (length bs) <= off \/ off + Z.of_nat (length src) <= a ->
  bytes_at mem' a bs.
Proof.
  intros Hs Hb Hd.
  pose proof (mem_store_length _ _ _ _ Hs) as Hlen.
  pose proof (mem_store_inv _ _ _ _ Hs) as (H0 & Hbd & _).
  pose proof (proj1 (bytes_at_iff _ _ _) Hb) as (Ha & _).
  destruct Hd as [Hd|Hd].
  - apply (bytes_at_take mem mem' a bs (Z.to_nat off)); try lia; auto.
    eapply mem_store_take; eauto.
  - apply (bytes_at_drop mem mem' a bs (Z.to_nat off + length src));
      try lia; auto.
    eapply mem_store_drop; eauto.
Qed.

Lemma bytes_at_app mem off bs1 bs2 :
  bytes_at mem off (bs1 ++ bs2) <->
  bytes_at mem off bs1 /\ bytes_at mem (off + Z.of_nat (length bs1)) bs2.
Proof.
  rewrite !bytes_at_iff, length_app.
  split.
  - intros (H0 & Hb & Ht).
    replace (Z.to_nat (off + Z.of_nat (length bs1)))
      with (Z.to_nat off + length bs1)%nat by lia.
    rewrite <- drop_drop.
    assert (Ht1 : take (length bs1) (drop (Z.to_nat off) mem) = bs1).
    { pose proof (f_equal (take (length bs1)) Ht) as Ht'.
      rewrite take_take, take_app_length in Ht'.
      replace (length bs1 `min` (length bs1 + length bs2))%nat
        with (length bs1) in Ht' by lia.
      exact Ht'. }
    assert (Ht2 : take (length bs2)
                    (drop (length bs1) (drop (Z.to_nat off) mem)) = bs2).
    { pose proof (f_equal (drop (length bs1)) Ht) as Ht'.
      rewrite drop_app_length in Ht'.
      rewrite take_drop_commute. exact Ht'. }
    repeat split; auto; lia.
  - intros ((H0 & Hb1 & Ht1) & (_ & Hb2 & Ht2)).
    replace (Z.to_nat (off + Z.of_nat (length bs1)))
      with (Z.to_nat off + length bs1)%nat in Ht2 by lia.
    rewrite <- drop_drop in Ht2.
    split; [lia|]. split; [lia|].
    rewrite <- (take_drop (length bs1) (drop (Z.to_nat off) mem)) at 1.
    rewrite take_app_ge by (rewrite length_take, length_drop; lia).
    rewrite length_take, length_drop.
    replace (length bs1 `min` (length mem - Z.to_nat off))%nat
      with (length bs1) by lia.
    rewrite Ht1. f_equal.
    rewrite <- Ht2 at 2. f_equal. lia.
Qed.

End Memory.

Section WordStreams.

Lemma words_bytes_length vs :
  Z.of_nat (length (words_bytes vs)) = 4 * Z.of_nat (length vs).
Proof.
  induction vs as [|v vs IH]; [reflexivity|].
  change (words_bytes (v :: vs)) with (be32_bytes (u32 v) ++ words_bytes vs).
  rewrite length_app, be32_bytes_length. simpl length. lia.
Qed.

Lemma xdr_u_int_reads xdr v0 v :
  x_op xdr = XDR_DECODE ->
  4 <= x_size xdr - x_pos xdr ->
  bytes_at (x_mem xdr) (x_base xdr + x_pos xdr) (be32_bytes (u32 v)) ->
  xdr_u_int xdr v0 =
  Val (true, mkXDR XDR_DECODE (x_mem xdr) (x_base xdr) (x_size xdr)
               (x_pos xdr + 4), u32 v).
Proof.
  intros Hop Hroom Hb.
  eapply xdr_u_int_decode; eauto.
  apply be32_value_bytes, u32_range.
Qed.

Lemma xdr_u_int_encode_shape xdr v :
  x_op xdr = XDR_ENCODE ->
  xdr_u_int xdr v = Undef \/
  xdr_u_int xdr v = Val (false, xdr, v) \/
  exists xdr', xdr_u_int xdr v = Val (true, xdr', v) /\
               x_op xdr' = XDR_ENCODE.
Proof.
  intros Hop. unfold xdr_u_int. case_bool_decide; [tauto|].
  rewrite Hop.
  destruct (mem_store _ _ _) as [mem| |] eqn:Hs; simpl.
  - right; right. eexists; split; [reflexivity|]. reflexivity.
  - now left.
  - unfold mem_store in Hs. case_bool_decide; discriminate.
Qed.

Lemma xdr_words_encode : forall vs xdr,
  xdr_valid xdr -> x_op xdr = XDR_ENCODE ->
  4 * Z.of_nat (length vs) <= x_size xdr - x_pos xdr ->
  exists mem',
    xdr_words vs xdr =
    Val (true, mkXDR XDR_ENCODE mem' (x_base xdr) (x_size xdr)
                 (x_pos xdr + 4 * Z.of_nat (length vs))) /\
    length mem' = length (x_mem xdr) /\
    bytes_at mem' (x_base xdr + x_pos xdr) (words_bytes vs) /\
    take (Z.to_nat (x_base xdr + x_pos xdr)) mem'
    = take (Z.to_nat (x_base xdr + x_pos xdr)) (x_mem xdr) /\
    drop (Z.to_nat (x_base xdr + x_pos xdr + 4 * Z.of_nat (length vs))) mem'
    = drop (Z.to_nat (x_base xdr + x_pos xdr + 4 * Z.of_nat (length vs)))
           (x_mem xdr).
Proof.
  induction vs as [|v vs IH]; intros xdr Hv Hop Hroom.
  - exists (x_mem xdr). destruct Hv as (Hb & Hp & Hm).
    simpl length. rewrite Z.mul_0_r, !Z.add_0_r.
    repeat split; auto.
    + destruct xdr; simpl in *; subst; reflexivity.
    + apply bytes_at_iff. simpl. repeat split; try lia.
  - destruct Hv as (Hb & Hp & Hm).
    simpl length in *.
    destruct (xdr_u_int_encode xdr v Hop) as (mem1 & Hs & Hu); try lia.
    pose proof (mem_store_length _ _ _ _ Hs) as Hlen1.
    set (xdr1 := mkXDR XDR_ENCODE mem1 (x_base xdr) (x_size xdr)
                   (x_pos xdr + 4)) in *.
    destruct (IH xdr1) as (mem' & Hw & Hlen & Hby & Htk & Hdr).
    { unfold xdr_valid; simpl. rewrite Hlen1. lia. }
    { reflexivity. }
    { simpl. lia. }
    simpl in Hw, Hlen, Hby, Htk, Hdr.
    exists mem'. split; [|split; [|split; [|split]]].
    + simpl. rewrite Hu. simpl. rewrite Hw. do 3 f_equal. lia.
    + congruence.
    + change (words_bytes (v :: vs))
        with (be32_bytes (u32 v) ++ words_bytes vs).
      apply bytes_at_app. split.
      * eapply (bytes_at_take mem1 mem' _ _
                  (Z.to_nat (x_base xdr + (x_pos xdr + 4)))).
        -- eapply mem_store_bytes_at; eauto.
        -- exact Htk.
        -- rewrite be32_bytes_length. lia.
        -- rewrite be32_bytes_length. lia.
      * rewrite be32_bytes_length.
        replace (x_base xdr + x_pos xdr + Z.of_nat 4)
          with (x_base xdr + (x_pos xdr + 4)) by lia.
        exact Hby.
    + transitivity (take (Z.to_nat (x_base xdr + x_pos xdr)) mem1).
      * apply (f_equal (take (Z.to_nat (x_base xdr + x_pos xdr)))) in Htk.
        rewrite !take_take in Htk.
        replace (Z.to_nat (x_base xdr + x_pos xdr)
                 `min` Z.to_nat (x_base xdr + (x_pos xdr + 4)))%nat
          with (Z.to_nat (x_base xdr + x_pos xdr)) in Htk by lia.
        exact Htk.
      * eapply mem_store_take; eauto.
    + replace (x_base xdr + x_pos xdr + 4 * Z.of_nat (S (length vs)))
        with (x_base xdr + (x_pos xdr + 4) + 4 * Z.of_nat (length vs))
        by lia.
      rewrite Hdr. eapply mem_store_drop; eauto.
      rewrite be32_bytes_length. lia.
Qed.

Lemma xdr_words_short : forall vs xdr,
  xdr_valid xdr -> x_op xdr = XDR_ENCODE ->
  x_size xdr - x_pos xdr < 4 * Z.of_nat (length vs) ->
  exists xdr',
    xdr_words vs xdr = Val (false, xdr') /\ xdr_same_frame xdr xdr'.
Proof.
  induction vs as [|v vs IH]; intros xdr Hv Hop Hroom.
  - simpl in Hroom. destruct Hv as (Hb & Hp & Hm). lia.
  - destruct Hv as (Hb & Hp & Hm). simpl length in *.
    destruct (Z_lt_ge_dec (x_size xdr - x_pos xdr) 4) as [Hs|Hs].
    + exists xdr. simpl. rewrite xdr_u_int_short by lia. simpl.
      split; [reflexivity|]. unfold xdr_same_frame. repeat split; lia.
    + destruct (xdr_u_int_encode xdr v Hop) as (mem1 & Hst & Hu); try lia.
      pose proof (mem_store_length _ _ _ _ Hst) as Hlen1.
      set (xdr1 := mkXDR XDR_ENCODE mem1 (x_base xdr) (x_size xdr)
                     (x_pos xdr + 4)) in *.
      destruct (IH xdr1) as (xdr' & Hw & Hf).
      { unfold xdr_valid; simpl. rewrite Hlen1. lia. }
      { reflexivity. }
      { simpl. lia. }
      exists xdr'. simpl. rewrite Hu. simpl. split; [exact Hw|].
      destruct Hf as (F1 & F2 & F3 & F4 & F5). simpl in *.
      unfold xdr_same_frame. rewrite F1, F2, F3, F4, Hlen1.
      repeat split; auto; lia.
Qed.

Lemma xdr_words_needs vs :
  xdr_proc_needs (xdr_words vs) (4 * Z.of_nat (length vs)).
Proof.
  intros xdr Hv Hop. case_bool_decide as Hroom.
  - destruct (xdr_words_encode vs xdr Hv Hop Hroom)
      as (mem' & Hw & Hlen & _).
    eexists; split; [|split; [exact Hw|reflexivity]].
    destruct Hv as (Hb & Hp & Hm).
    unfold xdr_same_frame; simpl. repeat split; auto; lia.
  - destruct (xdr_words_short vs xdr Hv Hop) as (xdr' & Hw & Hf); [lia|].
    exists xdr'. split; auto.
Qed.

Lemma xdr_words_forward vs : xdr_proc_forward (xdr_words vs).
Proof.
  revert vs. induction vs as [|v vs IH]; intros xdr ok xdr' Hv Hf.
  - simpl in Hf. injection Hf as <- <-. split; [lia|reflexivity].
  - simpl in Hf.
    destruct (xdr_u_int_ok v xdr Hv) as (ok1 & xdr1 & v1 & Hu & Hfr & Hv1).
    rewrite Hu in Hf. simpl in Hf.
    assert (Hstep : x_pos xdr <= x_pos xdr1 /\
              take (Z.to_nat (x_base xdr + x_pos xdr)) (x_mem xdr1)
              = take (Z.to_nat (x_base xdr + x_pos xdr)) (x_mem xdr)).
    { revert Hu. unfold xdr_u_int. case_bool_decide.
      - intros [= <- <- <-]. split; [lia|reflexivity].
      - destruct (x_op xdr).
        + destruct (mem_store _ _ _) as [m| |] eqn:Hs; simpl; try discriminate.
          intros [= <- <- <-]. simpl. split; [lia|].
          eapply mem_store_take; eauto.
        + destruct (mem_load _ _ _) as [bs| |]; simpl; try discriminate.
          destruct (be32_value bs); try discriminate.
          intros [= <- <- <-]. simpl. split; [lia|reflexivity]. }
    destruct Hstep as [Hp1 Ht1].
    destruct ok1.
    + destruct (IH xdr1 ok xdr' Hv1 Hf) as [Hp2 Ht2].
      destruct Hfr as (F1 & F2 & F3 & F4 & F5).
      destruct Hv as (Hb & Hp & Hm).
      split; [lia|].
      rewrite <- Ht1.
      apply (f_equal (take (Z.to_nat (x_base xdr + x_pos xdr)))) in Ht2.
      rewrite !take_take in Ht2. rewrite F2 in Ht2.
      replace (Z.to_nat (x_base xdr + x_pos xdr)
               `min` Z.to_nat (x_base xdr + x_pos xdr1))%nat
        with (Z.to_nat (x_base xdr + x_pos xdr)) in Ht2 by lia.
      exact Ht2.
    + injection Hf as <- <-. split; auto.
Qed.

Lemma xdr_header_fields_encode h xdr :
  x_op xdr = XDR_ENCODE ->
  xdr_apply xdr_header_fields h xdr = xdr_words (header_words h) xdr.
Proof.
  intros Hop. destruct h as [p v pr t s st].
  unfold xdr_apply, xdr_header_fields, header_words. simpl.
  repeat match goal with
  | |- context [xdr_u_int ?x ?w] =>
      let Hu := fresh "Hu" in
      let x' := fresh "x'" in
      let Hop' := fresh "Hop'" in
      destruct (xdr_u_int_encode_shape x w) as [Hu|[Hu|(x' & Hu & Hop')]];
      [assumption| | |];
      rewrite Hu; simpl; try reflexivity
  end.
Qed.

Lemma xdr_header_fields_decode h0 h xdr :
  x_op xdr = XDR_DECODE ->
  24 <= x_size xdr - x_pos xdr ->
  bytes_at (x_mem xdr) (x_base xdr + x_pos xdr)
    (words_bytes (header_words h)) ->
  xdr_header_fields xdr h0 =
  Val (true,
       mkXDR XDR_DECODE (x_mem xdr) (x_base xdr) (x_size xdr)
         (x_pos xdr + 24),
       mkHeader (u32 (prog h)) (u32 (vers h)) (u32 (proc h))
         (u32 (type h)) (u32 (serial h)) (u32 (status h))).
Proof.
  intros Hop Hroom Hb.
  unfold header_words in Hb.
  change (words_bytes [prog h; vers h; proc h; type h; serial h; status h])
    with (be32_bytes (u32 (prog h)) ++ be32_bytes (u32 (vers h)) ++
          be32_bytes (u32 (proc h)) ++ be32_bytes (u32 (type h)) ++
          be32_bytes (u32 (serial h)) ++ be32_bytes (u32 (status h)) ++ [])
    in Hb.
  apply bytes_at_app in Hb as [B0 Hb]. rewrite be32_bytes_length in Hb.
  apply bytes_at_app in Hb as [B1 Hb]. rewrite be32_bytes_length in Hb.
  apply bytes_at_app in Hb as [B2 Hb]. rewrite be32_bytes_length in Hb.
  apply bytes_at_app in Hb as [B3 Hb]. rewrite be32_bytes_length in Hb.
  apply bytes_at_app in Hb as [B4 Hb]. rewrite be32_bytes_length in Hb.
  apply bytes_at_app in Hb as [B5 _].
  unfold xdr_header_fields.
  rewrite (xdr_u_int_reads xdr _ (prog h)); auto; try lia.
  simpl.
  rewrite (xdr_u_int_reads _ _ (vers h)); simpl; auto; try lia.
  2: { replace (x_base xdr + (x_pos xdr + 4))
         with (x_base xdr + x_pos xdr + Z.of_nat 4) by lia. exact B1. }
  rewrite (xdr_u_int_reads _ _ (proc h)); simpl; auto; try lia.
  2: { replace (x_base xdr + (x_pos xdr + 4 + 4))
         with (x_base xdr + x_pos xdr + Z.of_nat 4 + Z.of_nat 4) by lia.
       exact B2. }
  rewrite (xdr_u_int_reads _ _ (type h)); simpl; auto; try lia.
  2: { replace (x_base xdr + (x_pos xdr + 4 + 4 + 4))
         with (x_base xdr + x_pos xdr + Z.of_nat 4 + Z.of_nat 4
               + Z.of_nat 4) by lia.
       exact B3. }
  rewrite (xdr_u_int_reads _ _ (serial h)); simpl; auto; try lia.
  2: { replace (x_base xdr + (x_pos xdr + 4 + 4 + 4 + 4))
         with (x_base xdr + x_pos xdr + Z.of_nat 4 + Z.of_nat 4
               + Z.of_nat 4 + Z.of_nat 4) by lia.
       exact B4. }
  rewrite (xdr_u_int_reads _ _ (status h)); simpl; auto; try lia.
  2: { replace (x_base xdr + (x_pos xdr + 4 + 4 + 4 + 4 + 4))
         with (x_base xdr + x_pos xdr + Z.of_nat 4 + Z.of_nat 4
               + Z.of_nat 4 + Z.of_nat 4 + Z.of_nat 4) by lia.
       exact B5. }
  replace (x_pos xdr + 4 + 4 + 4 + 4 + 4 + 4) with (x_pos xdr + 24) by lia.
  reflexivity.
Qed.

End WordStreams.

Section PayloadBytes.
Context `{Constants}.
Variable fresh_mem : nat -> byte.

Hypothesis Hconst : constants_ok.

Lemma VIR_REALLOC_N_take buf n k :
  (k <= Z.to_nat n)%nat -> (k <= length buf)%nat ->
  take k (VIR_REALLOC_N fresh_mem buf n) = take k buf.
Proof.
  intros Hn Hk. unfold VIR_REALLOC_N.
  rewrite take_app_le by (rewrite length_take; lia).
  rewrite take_take. f_equal. lia.
Qed.

Lemma bytes_at_realloc buf n a bs :
  bytes_at buf a bs -> a + Z.of_nat (length bs) <= n ->
  bytes_at (VIR_REALLOC_N fresh_mem buf n) a bs.
Proof.
  intros Hb Hn.
  pose proof (proj1 (bytes_at_iff _ _ _) Hb) as (H0 & Hlen & _).
  apply (bytes_at_take buf _ a bs (Z.to_nat (a + Z.of_nat (length bs))));
    auto; try lia.
  - apply VIR_REALLOC_N_take; lia.
  - rewrite VIR_REALLOC_N_length. lia.
Qed.

(** The length word is the only part of the buffer the finalisation
    writes. *)
Lemma reencode_length_bytes msg r msg' :
  reencode_length msg = Val (r, msg') ->
  drop 4 (buffer msg') = drop 4 (buffer msg) /\
  length (buffer msg') = length (buffer msg).
Proof.
  unfold reencode_length, xdr_u_int, xdrmem_create.
  cbn [x_op x_mem x_base x_size x_pos].
  case_bool_decide; cbn [exec_bind negb].
  - intros [= <- <-]. auto.
  - destruct (mem_store _ _ _) as [mem| |] eqn:Hs;
      cbn [exec_bind negb]; try discriminate.
    intros [= <- <-]. cbn [buffer sync_buffer set_buffer set_bufferLength
                             set_bufferOffset x_mem].
    split.
    + eapply mem_store_drop; [exact Hs|]. rewrite be32_bytes_length.
      simpl. lia.
    + eapply mem_store_length; eauto.
Qed.

Lemma reencode_length_succeeds msg :
  4 <= VIR_NET_MESSAGE_HEADER_XDR_LEN < 2 ^ 32 ->
  (4 <= length (buffer msg))%nat ->
  exists msg', reencode_length msg = Val (Success, msg').
Proof.
  intros Hx Hlen.
  unfold reencode_length.
  destruct (xdr_u_int_encode
              (xdrmem_create (buffer msg) 0 VIR_NET_MESSAGE_HEADER_XDR_LEN
                 XDR_ENCODE) (u32 (bufferOffset msg)))
    as (mem & Hs & Hu);
    [reflexivity | simpl; rewrite u32_small; lia | simpl; lia
    | simpl; lia | ].
  simpl in Hu. rewrite Hu. simpl. eauto.
Qed.

Lemma reencode_length_word msg msg' :
  0 <= bufferOffset msg < 2 ^ 32 ->
  reencode_length msg = Val (Success, msg') ->
  bytes_at (buffer msg') 0 (be32_bytes (bufferOffset msg)).
Proof.
  intros Hoff.
  unfold reencode_length, xdr_u_int, xdrmem_create.
  cbn [x_op x_mem x_base x_size x_pos].
  case_bool_decide; cbn [exec_bind negb]; [discriminate|].
  destruct (mem_store _ _ _) as [mem| |] eqn:Hs;
    cbn [exec_bind negb]; try discriminate.
  intros [= <-]. cbn [buffer sync_buffer set_buffer set_bufferLength
                        set_bufferOffset x_mem].
  rewrite !u32_small in Hs by (rewrite ?u32_small; lia).
  change (0 + 0) with 0 in Hs.
  eapply mem_store_bytes_at; eauto.
Qed.

(** Where the raw encoder puts things: the length word, what was in the
    buffer before the payload, and the payload. *)
Lemma virNetMessageEncodePayloadRaw_layout (msg : virNetMessage)
    (bytes : list byte) (len : Z) (msg' : virNetMessage) :
  encode_inv msg ->
  4 <= bufferOffset msg ->
  0 < len ->
  virNetMessageEncodePayloadRaw fresh_mem msg (Some bytes) len
  = Val (Success, msg') ->
  bufferLength msg' = bufferOffset msg + len /\
  bytes_at (buffer msg') 0 (be32_bytes (bufferOffset msg + len)) /\
  bytes_at (buffer msg') (bufferOffset msg) (take (Z.to_nat len) bytes) /\
  Z.of_nat (length (take (Z.to_nat len) bytes)) = len /\
  forall a bs,
    4 <= a -> a + Z.of_nat (length bs) <= bufferOffset msg ->
    bytes_at (buffer msg) a bs -> bytes_at (buffer msg') a bs.
Proof.
  intros Hinv Hoff Hlen Hrun.
  destruct Hconst as [Hinit Hmax].
  destruct Hinv as (Ho & Hb & Hm).
  unfold VIR_NET_MESSAGE_LEN_MAX in *.
  unfold virNetMessageEncodePayloadRaw in Hrun.
  rewrite bool_decide_eq_true_2 in Hrun by lia.
  set (room := usize (bufferLength msg - bufferOffset msg)) in *.
  assert (Hroom : room = bufferLength msg - bufferOffset msg).
  { unfold room. apply usize_small. lia. }
  destruct (mem_load bytes 0 len) as [src| |] eqn:Hld.
  2: { repeat case_bool_decide; simpl in Hrun. all: try discriminate. }
  2: { revert Hld. unfold mem_load.
       destruct (bool_decide (0 <= 0 /\ 0 <= len
                              /\ 0 + len <= Z.of_nat (length bytes)));
         discriminate. }
  pose proof (mem_load_length _ _ _ _ Hld) as Hsrc.
  assert (Hsrc_eq : src = take (Z.to_nat len) bytes).
  { revert Hld. unfold mem_load.
    destruct (bool_decide (0 <= 0 /\ 0 <= len
                           /\ 0 + len <= Z.of_nat (length bytes)));
      [|discriminate].
    intros [= <-]. reflexivity. }
  case_bool_decide as Hsmall.
  - case_bool_decide as Htoo; [discriminate|].
    unfold VIR_NET_MESSAGE_LEN_MAX in Htoo.
    cbn [exec_bind] in Hrun.
    cbn [buffer bufferOffset bufferLength set_buffer set_bufferLength]
      in Hrun.
    destruct (mem_store _ _ _) as [mem| |] eqn:Hst;
      cbn [exec_bind] in Hrun; try discriminate.
    pose proof (mem_store_bounds _ _ _ _ Hst) as [_ Hbd].
    rewrite VIR_REALLOC_N_length in Hbd.
    pose proof (usize_range (bufferOffset msg + len)) as Hur.
    pose proof (usize_le (bufferOffset msg + len)) as Hul.
    assert (Hus : usize (bufferOffset msg + len) = bufferOffset msg + len)
      by lia.
    rewrite Hus in *.
    eapply reencode_length_cases in Hrun as Hcs; [|simpl; lia].
    destruct Hcs as (_ & Hbl & _).
    pose proof (reencode_length_bytes _ _ _ Hrun) as (Hdrop & Hl').
    eapply reencode_length_word in Hrun as Hword; [|simpl; lia].
    cbn [buffer bufferOffset bufferLength set_buffer set_bufferLength
         set_bufferOffset] in Hbl, Hdrop, Hl', Hword.
    pose proof (mem_store_length _ _ _ _ Hst) as Hlm.
    split; [exact Hbl|]. split; [exact Hword|].
    split; [|split; [subst src; exact Hsrc|]].
    + subst src.
      eapply (bytes_at_drop mem _ _ _ 4); eauto; try lia.
      eapply mem_store_bytes_at; eauto.
    + intros a bs Ha Hend Hbs.
      eapply (bytes_at_drop mem _ _ _ 4); eauto; try lia.
      eapply (bytes_at_store _ _ _ _ _ _ Hst);
        [apply bytes_at_realloc; [exact Hbs|lia] | lia].
  - cbn [exec_bind] in Hrun.
    destruct (mem_store _ _ _) as [mem| |] eqn:Hst;
      cbn [exec_bind] in Hrun; try discriminate.
    cbn [buffer bufferOffset bufferLength set_buffer set_bufferLength]
      in Hrun.
    assert (Hus : usize (bufferOffset msg + len) = bufferOffset msg + len).
    { apply usize_small. lia. }
    rewrite Hus in *.
    eapply reencode_length_cases in Hrun as Hcs; [|simpl; lia].
    destruct Hcs as (_ & Hbl & _).
    pose proof (reencode_length_bytes _ _ _ Hrun) as (Hdrop & Hl').
    eapply reencode_length_word in Hrun as Hword; [|simpl; lia].
    cbn [buffer bufferOffset bufferLength set_buffer set_bufferLength
         set_bufferOffset] in Hbl, Hdrop, Hl', Hword.
    pose proof (mem_store_length _ _ _ _ Hst) as Hlm.
    split; [exact Hbl|]. split; [exact Hword|].
    split; [|split; [subst src; exact Hsrc|]].
    + subst src.
      eapply (bytes_at_drop mem _ _ _ 4); eauto; try lia.
      eapply mem_store_bytes_at; eauto.
    + intros a bs Ha Hend Hbs.
      eapply (bytes_at_drop mem _ _ _ 4); eauto; try lia.
      eapply (bytes_at_store _ _ _ _ _ _ Hst); [exact Hbs | lia].
Qed.

End PayloadBytes.

Section PayloadTotal.
Context `{Constants}.
Variable fresh_mem : nat -> byte.

Hypothesis Hconst : constants_ok.

(** X7.  On a message being encoded, [virNetMessageEncodePayloadRaw] given
    [len] readable bytes fails with the too-long error, and leaves the
    message as it was, when [bufferOffset + len] passes
    [VIR_NET_MESSAGE_MAX + VIR_NET_MESSAGE_LEN_MAX]; it reports [len] and the
    room left under that limit.  Otherwise it returns 0. *)
Theorem virNetMessageEncodePayloadRaw_limit (msg : virNetMessage)
    (bytes : list byte) (len : Z) :
  encode_inv msg ->
  4 <= bufferOffset msg ->
  4 <= VIR_NET_MESSAGE_HEADER_XDR_LEN < 2 ^ 32 ->
  0 < len <= Z.of_nat (length bytes) ->
  bufferOffset msg + len < 2 ^ 64 ->
  (bufferOffset msg + len > VIR_NET_MESSAGE_MAX + VIR_NET_MESSAGE_LEN_MAX ->
     virNetMessageEncodePayloadRaw fresh_mem msg (Some bytes) len =
     Val (Failure (mkReport VIR_ERR_RPC
            ("Stream data too long to send "
             ++ "(%zu bytes needed, %zu bytes available)")
            [len;
             VIR_NET_MESSAGE_MAX + VIR_NET_MESSAGE_LEN_MAX
             - bufferOffset msg]), msg)) /\
  (bufferOffset msg + len <= VIR_NET_MESSAGE_MAX + VIR_NET_MESSAGE_LEN_MAX ->
     exists msg',
       virNetMessageEncodePayloadRaw fresh_mem msg (Some bytes) len
       = Val (Success, msg')).
Proof.
  intros Hinv Hoff Hx Hlen Hwrap.
  destruct Hconst as [Hinit Hmax].
  destruct Hinv as (Ho & Hb & Hm).
  unfold VIR_NET_MESSAGE_LEN_MAX in *.
  assert (Hroom : usize (bufferLength msg - bufferOffset msg)
                  = bufferLength msg - bufferOffset msg)
    by (apply usize_small; lia).
  assert (Hus : usize (bufferOffset msg + len) = bufferOffset msg + len)
    by (apply usize_small; lia).
  assert (Hld : mem_load bytes 0 len = Val (take (Z.to_nat len) bytes)).
  { unfold mem_load. rewrite bool_decide_eq_true_2 by lia. reflexivity. }
  assert (Hsl : Z.of_nat (length (take (Z.to_nat len) bytes)) = len).
  { rewrite length_take. lia. }
  unfold virNetMessageEncodePayloadRaw.
  rewrite bool_decide_eq_true_2 by lia.
  rewrite Hroom, Hus, Hld. unfold VIR_NET_MESSAGE_LEN_MAX.
  split.
  - intros Hbig.
    rewrite bool_decide_eq_true_2 by lia.
    rewrite bool_decide_eq_true_2 by lia.
    rewrite usize_small by lia. reflexivity.
  - intros Hfit.
    case_bool_decide as Hsmall.
    + rewrite bool_decide_eq_false_2 by lia.
      cbn [exec_bind buffer bufferOffset bufferLength set_buffer
           set_bufferLength].
      unfold mem_store at 1.
      rewrite bool_decide_eq_true_2
        by (rewrite VIR_REALLOC_N_length; lia).
      cbn [exec_bind].
      apply reencode_length_succeeds; auto.
      cbn [buffer set_buffer set_bufferOffset].
      rewrite !length_app, length_take, VIR_REALLOC_N_length. lia.
    + cbn [exec_bind].
      unfold mem_store at 1.
      rewrite bool_decide_eq_true_2 by lia.
      cbn [exec_bind].
      apply reencode_length_succeeds; auto.
      cbn [buffer set_buffer set_bufferOffset].
      rewrite !length_app, length_take. lia.
Qed.

Lemma encode_payload_loop_keeps filter :
  xdr_proc_ok filter -> xdr_proc_forward filter ->
  forall fuel msg res,
    encode_inv msg -> 4 <= bufferOffset msg ->
    encode_payload_loop fresh_mem fuel filter msg (payload_stream msg)
    = Val res ->
    take (Z.to_nat (bufferOffset msg))
      (buffer (match res with inl m => m | inr (m, _) => m end))
    = take (Z.to_nat (bufferOffset msg)) (buffer msg).
Proof.
  intros Hok Hfw. induction fuel as [|fuel IH]; intros msg res Hinv Hoff Hrun.
  - discriminate.
  - simpl in Hrun.
    pose proof (payload_stream_valid Hconst msg Hinv) as Hv.
    destruct (Hok _ Hv) as (ok & xdr' & Hf & Hfr).
    rewrite Hf in Hrun. cbn [exec_bind] in Hrun.
    destruct (Hfw _ _ _ Hv Hf) as [_ Htk].
    cbn [payload_stream xdrmem_create x_base x_pos x_mem] in Htk.
    rewrite Z.add_0_r in Htk.
    destruct ok.
    + injection Hrun as <-. exact Htk.
    + destruct (encode_payload_grow fresh_mem (sync_buffer xdr' msg))
        as [msg2|] eqn:Hg.
      * pose proof (encode_payload_grow_inv fresh_mem Hconst msg
                      (x_mem xdr') msg2 Hinv Hg)
          as (Hinv2 & Hoff2 & Hbl & Hcap2 & Hlen2).
        specialize (IH msg2 res Hinv2 ltac:(lia) Hrun).
        rewrite Hoff2 in IH. rewrite IH, <- Htk.
        destruct Hinv as (Ho & Hb & Hm).
        destruct Hfr as (_ & _ & _ & Hml & _).
        cbn [payload_stream xdrmem_create x_mem] in Hml.
        rewrite encode_payload_grow_cases in Hg by
          (auto; cbn [bufferLength sync_buffer set_buffer]; lia).
        cbv zeta in Hg.
        case_bool_decide; [discriminate|].
        injection Hg as <-.
        cbn [buffer bufferLength sync_buffer set_buffer set_bufferLength].
        apply VIR_REALLOC_N_take; unfold VIR_NET_MESSAGE_LEN_MAX in *; lia.
      * injection Hrun as <-. exact Htk.
Qed.

(** The typed encoder keeps what was in the buffer before the payload,
    the length word apart. *)
Lemma virNetMessageEncodePayload_keeps (fuel : nat)
    (msg : virNetMessage) (filter : xdrproc_t) (r : retval)
    (msg' : virNetMessage) :
  xdr_proc_ok filter -> xdr_proc_forward filter ->
  encode_inv msg -> 4 <= bufferOffset msg ->
  virNetMessageEncodePayload fresh_mem fuel msg filter = Val (r, msg') ->
  forall a bs,
    4 <= a -> a + Z.of_nat (length bs) <= bufferOffset msg ->
    bytes_at (buffer msg) a bs -> bytes_at (buffer msg') a bs.
Proof.
  intros Hok Hfw Hinv Hoff Hrun a bs Ha Hend Hbs.
  unfold virNetMessageEncodePayload in Hrun.
  destruct (encode_payload_loop _ _ _ _ _) as [res| |] eqn:Hloop;
    cbn [exec_bind] in Hrun; try discriminate.
  pose proof (encode_payload_loop_keeps filter Hok Hfw _ _ _ Hinv Hoff Hloop)
    as Htk.
  pose proof (encode_payload_loop_inv fresh_mem Hconst filter Hok _ _ _
                Hinv Hloop) as Hres.
  destruct res as [m|[m x]].
  - injection Hrun as <- <-. destruct Hres as ((Ho & Hb & Hm) & Hbl & Hofs).
    eapply (bytes_at_take _ _ _ _ (Z.to_nat (bufferOffset msg)));
      eauto; lia.
  - destruct Hres as ((Ho & Hb & Hm) & Hbl & Hofs & Hpos).
    pose proof (reencode_length_bytes _ _ _ Hrun) as (Hdrop & Hl').
    cbn [buffer set_bufferOffset] in Hdrop, Hl'.
    eapply (bytes_at_drop (buffer m) _ _ _ 4); eauto; try lia.
    eapply (bytes_at_take _ _ _ _ (Z.to_nat (bufferOffset msg)));
      eauto; lia.
Qed.

Lemma encode_payload_loop_fits filter need :
  xdr_proc_needs filter need -> 0 <= need ->
  forall k msg,
    encode_inv msg -> 4 <= bufferLength msg ->
    (bufferLength msg - 4) * 2 ^ Z.of_nat k <= VIR_NET_MESSAGE_MAX ->
    bufferOffset msg + need
      <= (bufferLength msg - 4) * 2 ^ Z.of_nat k + 4 ->
    exists m x,
      encode_payload_loop fresh_mem (S k) filter msg (payload_stream msg)
      = Val (inr (m, x)) /\
      x_pos x = need /\ bufferOffset m = bufferOffset msg /\
      bufferOffset msg + need <= bufferLength m /\
      bufferLength msg <= bufferLength m /\
      encode_inv m.
Proof.
  intros Hneeds Hneed. induction k as [|k IH]; intros msg Hinv Hbl Hcap Hfit.
  - pose proof (payload_stream_valid Hconst msg Hinv) as Hv.
    pose proof (payload_stream_size Hconst msg Hinv) as Hsz.
    destruct (Hneeds _ Hv eq_refl) as (x' & Hfr & Hcase).
    rewrite bool_decide_eq_true_2 in Hcase
      by (rewrite Hsz; simpl in *; lia).
    destruct Hcase as [Hf Hpos].
    exists (sync_buffer x' msg), x'. simpl. rewrite Hf. simpl.
    destruct Hinv as (Ho & Hb & Hm).
    destruct Hfr as (_ & _ & _ & Hml & _).
    simpl in Hml, Hpos.
    repeat split; simpl; try lia.
  - pose proof (payload_stream_valid Hconst msg Hinv) as Hv.
    pose proof (payload_stream_size Hconst msg Hinv) as Hsz.
    destruct (Hneeds _ Hv eq_refl) as (x' & Hfr & Hcase).
    case_bool_decide as Hroom.
    + destruct Hcase as [Hf Hpos].
      exists (sync_buffer x' msg), x'.
      change (encode_payload_loop fresh_mem (S (S k)) filter msg
                (payload_stream msg))
        with (let* (ok, xdr) := filter (payload_stream msg) in
              let msg := sync_buffer xdr msg in
              if ok then Val (inr (msg, xdr))
              else
                match encode_payload_grow fresh_mem msg with
                | None => Val (inl msg)
                | Some msg =>
                    encode_payload_loop fresh_mem (S k) filter msg
                      (payload_stream msg)
                end).
      rewrite Hf. cbn [exec_bind].
      destruct Hinv as (Ho & Hb & Hm).
      destruct Hfr as (_ & _ & _ & Hml & _).
      simpl in Hml, Hpos. rewrite Hsz in Hroom. simpl in Hroom.
      repeat split; simpl; try lia.
    + change (encode_payload_loop fresh_mem (S (S k)) filter msg
                (payload_stream msg))
        with (let* (ok, xdr) := filter (payload_stream msg) in
              let msg := sync_buffer xdr msg in
              if ok then Val (inr (msg, xdr))
              else
                match encode_payload_grow fresh_mem msg with
                | None => Val (inl msg)
                | Some msg =>
                    encode_payload_loop fresh_mem (S k) filter msg
                      (payload_stream msg)
                end).
      rewrite Hcase. cbn [exec_bind].
      assert (Hpow : 0 < 2 ^ Z.of_nat k) by (apply Z.pow_pos_nonneg; lia).
      assert (Hpk : 2 ^ Z.of_nat (S k) = 2 * 2 ^ Z.of_nat k)
        by (rewrite Nat2Z.inj_succ, Z.pow_succ_r by lia; reflexivity).
      rewrite Hpk in Hcap, Hfit.
      assert (H2 : 2 * (bufferLength msg - 4) <= VIR_NET_MESSAGE_MAX) by nia.
      destruct Hfr as (_ & _ & _ & Hml & _).
      cbn [payload_stream xdrmem_create x_mem] in Hml.
      pose proof Hinv as (Ho & Hb & Hm).
      unfold VIR_NET_MESSAGE_LEN_MAX in *.
      destruct (encode_payload_grow fresh_mem (sync_buffer x' msg))
        as [msg2|] eqn:Hg.
      2: { rewrite encode_payload_grow_cases in Hg by
             (auto; cbn [bufferLength sync_buffer set_buffer];
              unfold VIR_NET_MESSAGE_LEN_MAX; lia).
           cbv zeta in Hg. unfold VIR_NET_MESSAGE_LEN_MAX in Hg.
           cbn [bufferLength sync_buffer set_buffer] in Hg.
           rewrite bool_decide_eq_false_2 in Hg by lia. discriminate. }
      pose proof (encode_payload_grow_inv fresh_mem Hconst msg
                    (x_mem x') msg2 Hinv Hg)
        as (Hinv2 & Hoff2 & _ & Hcap2 & Hlen2).
      unfold VIR_NET_MESSAGE_LEN_MAX in *.
      destruct (IH msg2 Hinv2) as (m & x & Hrun & Hpos & Hofs & Hend & Hbl2
                                   & Hinvm); try nia.
      exists m, x. split; [exact Hrun|].
      repeat split; try lia; try apply Hinvm.
Qed.

(** X5.  When the object of the marshaller takes [need] bytes and [k]
    doublings of the payload capacity stay within [VIR_NET_MESSAGE_MAX] and
    make room for them after [bufferOffset], [virNetMessageEncodePayload]
    returns 0 within [k + 1] rounds of its loop; the frame is then
    [bufferOffset + need] bytes long, which is what the length word says,
    and the cursor is at 0. *)
Theorem virNetMessageEncodePayload_fits (filter : xdrproc_t) (need : Z)
    (k : nat) (msg : virNetMessage) :
  xdr_proc_needs filter need -> 0 <= need ->
  4 <= VIR_NET_MESSAGE_HEADER_XDR_LEN < 2 ^ 32 ->
  encode_inv msg -> 4 <= bufferLength msg ->
  (bufferLength msg - 4) * 2 ^ Z.of_nat k <= VIR_NET_MESSAGE_MAX ->
  bufferOffset msg + need <= (bufferLength msg - 4) * 2 ^ Z.of_nat k + 4 ->
  exists msg',
    virNetMessageEncodePayload fresh_mem (S k) msg filter
    = Val (Success, msg') /\
    bufferLength msg' = bufferOffset msg + need /\
    bufferOffset msg' = 0 /\
    length_word msg' = Some (bufferOffset msg + need).
Proof.
  intros Hneeds Hneed Hx Hinv Hbl Hcap Hfit.
  destruct (encode_payload_loop_fits filter need Hneeds Hneed k msg
              Hinv Hbl Hcap Hfit)
    as (m & x & Hrun & Hpos & Hofs & Hend & Hbl2 & (Ho & Hb & Hm)).
  destruct Hconst as [Hinit Hmax].
  unfold VIR_NET_MESSAGE_LEN_MAX in *.
  unfold virNetMessageEncodePayload. rewrite Hrun. cbn [exec_bind].
  unfold xdr_getpos. rewrite Hpos, Hofs.
  rewrite usize_small by lia.
  destruct (reencode_length_succeeds
              (set_bufferOffset (bufferOffset msg + need) m) Hx)
    as (msg' & Hre).
  { cbn [buffer set_bufferOffset]. lia. }
  exists msg'. split; [exact Hre|].
  eapply reencode_length_cases in Hre as Hcs; [|simpl; lia].
  destruct Hcs as (_ & Hbl' & Hoff' & Hlw).
  cbn [bufferOffset set_bufferOffset] in Hbl'.
  rewrite Hlw, Hbl'. auto.
Qed.

End PayloadTotal.

Section HeaderFrame.
Context `{Constants}.
Variable fresh_mem : nat -> byte.

Hypothesis Hconst : constants_ok.

(** The steps of [virNetMessageEncodeHeader]: the place holder of the
    length word is stored, the marshaller runs on the stream after it, and
    the length word is stored again with the position reached. *)
Lemma virNetMessageEncodeHeader_run
    (hdr : virNetMessageHeader -> xdrproc_t) (msg0 : virNetMessage) :
  exists mem1,
    mem_store
      (VIR_REALLOC_N fresh_mem (buffer msg0) (VIR_NET_MESSAGE_INITIAL + 4))
      0 (be32_bytes (u32 0)) = Val mem1 /\
    xdr_valid (mkXDR XDR_ENCODE mem1 0 (VIR_NET_MESSAGE_INITIAL + 4) 4) /\
    forall ok x2,
      hdr (header msg0)
          (mkXDR XDR_ENCODE mem1 0 (VIR_NET_MESSAGE_INITIAL + 4) 4)
      = Val (ok, x2) ->
      xdr_same_frame
        (mkXDR XDR_ENCODE mem1 0 (VIR_NET_MESSAGE_INITIAL + 4) 4) x2 ->
      if ok then
        exists mem3 msg,
          mem_store (x_mem x2) 0 (be32_bytes (u32 (x_pos x2))) = Val mem3 /\
          virNetMessageEncodeHeader fresh_mem hdr msg0 = Val (Success, msg) /\
          buffer msg = mem3 /\ bufferOffset msg = x_pos x2 /\
          bufferLength msg = VIR_NET_MESSAGE_INITIAL + 4 /\
          header msg = header msg0
      else
        exists msg,
          virNetMessageEncodeHeader fresh_mem hdr msg0
          = Val (Failure (mkReport VIR_ERR_RPC
                            "Unable to encode message header" []), msg) /\
          buffer msg = x_mem x2 /\ bufferOffset msg = 0 /\
          bufferLength msg = VIR_NET_MESSAGE_INITIAL + 4.
Proof.
  destruct Hconst as [Hinit Hmax].
  unfold virNetMessageEncodeHeader, VIR_NET_MESSAGE_LEN_MAX.
  simpl. rewrite (usize_small (VIR_NET_MESSAGE_INITIAL + 4)) by lia.
  remember (VIR_NET_MESSAGE_INITIAL + 4) as bl eqn:Hbl.
  remember (VIR_REALLOC_N fresh_mem (buffer msg0) bl) as buf1 eqn:Hb.
  assert (Hbuf1 : Z.of_nat (length buf1) = bl).
  { rewrite Hb, VIR_REALLOC_N_length. lia. }
  destruct (xdr_u_int_encode (xdrmem_create buf1 0 bl XDR_ENCODE) 0)
    as (mem1 & Hst1 & Hx1).
  { reflexivity. }
  { simpl. rewrite u32_small by lia. lia. }
  { simpl. lia. }
  { simpl. lia. }
  simpl in Hst1. exists mem1. split; [exact Hst1|].
  rewrite Hx1; simpl. rewrite (u32_small bl) by lia.
  change (0 + 4) with 4.
  apply mem_store_length in Hst1. simpl in Hst1.
  split; [unfold xdr_valid; simpl; lia|].
  intros ok x2 Hhdr (Hop2 & Hbase2 & Hsize2 & Hmem2 & Hpos2).
  simpl in Hop2, Hbase2, Hsize2, Hmem2, Hpos2.
  rewrite Hhdr; simpl. destruct ok; simpl.
  - unfold xdr_setpos. rewrite bool_decide_true by lia.
    destruct (xdr_u_int_encode
                (mkXDR (x_op x2) (x_mem x2) (x_base x2)
                   (x_size x2) 0) (xdr_getpos x2))
      as (mem3 & Hst3 & Hx3); simpl; try lia; try assumption.
    rewrite Hx3; simpl. simpl in Hst3. rewrite Hbase2 in Hst3.
    unfold xdr_getpos in *. rewrite usize_small by lia.
    exists mem3. eexists. split; [exact Hst3|].
    split; [reflexivity|]. simpl. auto.
  - eexists. split; [reflexivity|]. simpl. auto.
Qed.

(** X4.  [virNetMessageEncodeHeader] works in the initial capacity only.
    With a header marshaller whose object takes [need] bytes it returns 0
    when [need] is within [VIR_NET_MESSAGE_INITIAL], leaving the cursor
    after the length word and the header and the length word equal to the
    cursor; when [need] is larger it fails with the header error, the
    cursor at 0, the buffer not enlarged. *)
Theorem virNetMessageEncodeHeader_total
    (hdr : virNetMessageHeader -> xdrproc_t) (need : Z)
    (msg0 : virNetMessage) :
  (forall h, xdr_proc_needs (hdr h) need) ->
  0 <= need ->
  (need <= VIR_NET_MESSAGE_INITIAL ->
     exists msg,
       virNetMessageEncodeHeader fresh_mem hdr msg0 = Val (Success, msg) /\
       bufferOffset msg = VIR_NET_MESSAGE_LEN_MAX + need /\
       bufferLength msg
       = VIR_NET_MESSAGE_INITIAL + VIR_NET_MESSAGE_LEN_MAX /\
       length_word msg = Some (bufferOffset msg)) /\
  (VIR_NET_MESSAGE_INITIAL < need ->
     exists msg,
       virNetMessageEncodeHeader fresh_mem hdr msg0
       = Val (Failure (mkReport VIR_ERR_RPC
                         "Unable to encode message header" []), msg) /\
       bufferOffset msg = 0 /\
       bufferLength msg
       = VIR_NET_MESSAGE_INITIAL + VIR_NET_MESSAGE_LEN_MAX).
Proof.
  intros Hneeds Hneed.
  destruct (virNetMessageEncodeHeader_run hdr msg0)
    as (mem1 & Hst1 & Hv & Hrun).
  destruct (Hneeds (header msg0) _ Hv eq_refl) as (x2 & Hfr & Hcase).
  cbn [x_size x_pos] in Hcase.
  unfold VIR_NET_MESSAGE_LEN_MAX.
  destruct Hconst as [Hinit Hmax].
  split; intros Hcmp.
  - rewrite bool_decide_eq_true_2 in Hcase by lia.
    destruct Hcase as [Hhdr Hpos].
    destruct (Hrun true x2 Hhdr Hfr)
      as (mem3 & msg & Hst3 & Henc & Hbuf & Hoff & Hbl & _).
    exists msg. split; [exact Henc|].
    rewrite Hoff, Hpos. repeat split; try lia.
    unfold length_word. rewrite Hbuf.
    pose proof (mem_load_store _ _ _ _ Hst3) as Hld.
    rewrite be32_bytes_length in Hld. change (Z.of_nat 4) with 4 in Hld.
    rewrite Hld. rewrite Hpos.
    rewrite (u32_small (4 + need)) by lia.
    apply be32_value_bytes. lia.
  - rewrite bool_decide_eq_false_2 in Hcase by lia.
    destruct (Hrun false x2 Hcase Hfr) as (msg & Henc & _ & Hoff & Hbl).
    exists msg. repeat split; auto.
Qed.

(** With the marshaller of the six fields, the header lies at offset 4. *)
Lemma virNetMessageEncodeHeader_fields msg0 msg :
  virNetMessageEncodeHeader fresh_mem (xdr_apply xdr_header_fields) msg0
  = Val (Success, msg) ->
  bufferOffset msg = 28 /\
  bufferLength msg = VIR_NET_MESSAGE_INITIAL + 4 /\
  Z.of_nat (length (buffer msg)) = VIR_NET_MESSAGE_INITIAL + 4 /\
  24 <= VIR_NET_MESSAGE_INITIAL /\
  header msg = header msg0 /\
  bytes_at (buffer msg) 4 (words_bytes (header_words (header msg0))).
Proof.
  intros Henc.
  destruct (virNetMessageEncodeHeader_run (xdr_apply xdr_header_fields) msg0)
    as (mem1 & Hst1 & Hv & Hrun).
  pose proof (mem_store_length _ _ _ _ Hst1) as Hl1.
  rewrite VIR_REALLOC_N_length in Hl1.
  destruct Hconst as [Hinit Hmax].
  rewrite xdr_header_fields_encode in Hrun by reflexivity.
  destruct (Z_le_gt_dec 24 VIR_NET_MESSAGE_INITIAL) as [Hfit|Hshort].
  - destruct (xdr_words_encode (header_words (header msg0)) _ Hv eq_refl)
      as (mem2 & Hw & Hl2 & Hby & Htk & Hdr).
    { simpl. lia. }
    cbn [x_base x_size x_pos x_mem] in Hw, Hl2, Hby, Htk, Hdr.
    specialize (Hrun true _ Hw).
    destruct Hrun as (mem3 & msg1 & Hst3 & Henc1 & Hbuf & Hoff & Hbl & Hh).
    { unfold xdr_same_frame; simpl. repeat split; auto; lia. }
    rewrite Henc in Henc1. injection Henc1 as <-.
    cbn [x_pos x_mem] in *. simpl length in *.
    pose proof (mem_store_length _ _ _ _ Hst3) as Hl3.
    rewrite Hbuf.
    split; [lia|]. split; [lia|]. split; [lia|]. split; [lia|].
    split; [exact Hh|].
    eapply (bytes_at_store _ _ _ _ _ _ Hst3); [exact Hby|].
    right. rewrite be32_bytes_length. simpl. lia.
  - destruct (xdr_words_short (header_words (header msg0)) _ Hv eq_refl)
      as (x2 & Hw & Hfr).
    { simpl. lia. }
    destruct (Hrun false x2 Hw Hfr) as (msg1 & Henc1 & _).
    rewrite Henc in Henc1. discriminate.
Qed.

(** A header that fits its words comes back as it was. *)
Lemma header_in_range_u32 h :
  header_in_range h ->
  mkHeader (u32 (prog h)) (u32 (vers h)) (u32 (proc h)) (u32 (type h))
    (u32 (serial h)) (u32 (status h)) = h.
Proof.
  intros (H1 & H2 & H3 & H4 & H5 & H6). destruct h; simpl in *.
  rewrite !u32_small by lia. reflexivity.
Qed.

Lemma virNetMessageDecodeHeader_fields rx h :
  28 <= bufferLength rx < 2 ^ 32 ->
  bytes_at (buffer rx) 4 (words_bytes (header_words h)) ->
  header_in_range h ->
  virNetMessageDecodeHeader xdr_header_fields rx
  = Val (Success, set_bufferOffset 28 (set_header h rx)).
Proof.
  intros Hbl Hby Hh.
  unfold virNetMessageDecodeHeader, VIR_NET_MESSAGE_LEN_MAX.
  rewrite bool_decide_eq_false_2 by lia.
  cbn [buffer bufferOffset bufferLength header set_bufferOffset].
  rewrite (xdr_header_fields_decode _ h).
  - cbn [exec_bind negb xdr_getpos x_pos x_mem xdrmem_create].
    rewrite header_in_range_u32 by exact Hh.
    cbn [buffer bufferOffset bufferLength header set_bufferOffset
         set_header sync_buffer set_buffer x_mem].
    rewrite usize_small by (simpl; lia). reflexivity.
  - reflexivity.
  - cbn [xdrmem_create x_size x_pos].
    rewrite usize_small by lia. rewrite u32_small by lia. lia.
  - cbn [xdrmem_create x_mem x_base x_pos].
    rewrite Z.add_0_r. exact Hby.
Qed.

End HeaderFrame.

Section RoundTrip.
Context `{Constants}.
Variable fresh_mem : nat -> byte.

Hypothesis Hconst : constants_ok.

(** The length decoder accepts a buffer that holds a length word in range:
    the declared length becomes the length, the buffer is enlarged to
    it. *)
Lemma virNetMessageDecodeLength_accepts (msg : virNetMessage) (L : Z) :
  be32_value (buffer msg) = Some L ->
  bufferLength msg = 4 ->
  4 <= L -> L - 4 <= VIR_NET_MESSAGE_MAX ->
  exists msg',
    virNetMessageDecodeLength fresh_mem msg = Val (Success, msg') /\
    bufferLength msg' = L /\ bufferOffset msg' = 4 /\
    Z.of_nat (length (buffer msg')) = L /\
    take 4 (buffer msg') = buffer msg.
Proof.
  intros HL Hlen H4 Hok.
  pose proof (be32_value_range _ _ HL) as HLr.
  pose proof (be32_value_length _ _ HL) as Hbl.
  assert (Hdec : xdr_u_int (xdrmem_create (buffer msg) 0 (bufferLength msg)
                              XDR_DECODE) 0
                 = Val (true, mkXDR XDR_DECODE (buffer msg) 0 4 4, L)).
  { unfold xdr_u_int, xdrmem_create; simpl. rewrite Hlen.
    change (u32 4) with 4. rewrite bool_decide_false by lia.
    change 4 with (Z.of_nat 4) at 1. rewrite <- Hbl.
    change (0 + 0) with 0. rewrite mem_load_all; simpl. now rewrite HL. }
  unfold virNetMessageDecodeLength. rewrite Hdec; simpl.
  unfold VIR_NET_MESSAGE_LEN_MAX, xdr_getpos; simpl.
  rewrite bool_decide_false by lia.
  rewrite (u32_small (L - 4)) by lia.
  rewrite bool_decide_false by lia.
  eexists; split; [reflexivity|]. simpl. rewrite Hlen.
  replace (4 + (L - 4)) with L by lia.
  rewrite (usize_small L) by lia.
  unfold VIR_REALLOC_N.
  repeat split.
  + rewrite length_app, length_take, length_map, length_seq. lia.
  + rewrite take_app_le; [|rewrite length_take; lia].
    rewrite take_take. rewrite take_ge; [reflexivity|lia].
Qed.

Lemma length_word_take msg L :
  length_word msg = Some L -> be32_value (take 4 (buffer msg)) = Some L.
Proof.
  unfold length_word, mem_load. case_bool_decide; [|discriminate].
  simpl. auto.
Qed.

(** X9.  The first four bytes of a frame that a payload encoder has
    finalised are accepted by [virNetMessageDecodeLength]: read into a
    four-byte buffer they decode to the [bufferLength] of the frame, and the
    receiving buffer is enlarged to that size with the cursor after the
    length word. *)
Theorem encoded_frame_length_accepted (msg : virNetMessage) :
  encode_inv msg -> 4 <= bufferOffset msg ->
  forall msg' rx,
    (exists fuel filter,
        xdr_proc_ok filter /\
        virNetMessageEncodePayload fresh_mem fuel msg filter
        = Val (Success, msg')) \/
    (exists data len,
        virNetMessageEncodePayloadRaw fresh_mem msg data len
        = Val (Success, msg')) ->
    buffer rx = take 4 (buffer msg') -> bufferLength rx = 4 ->
    exists rx',
      virNetMessageDecodeLength fresh_mem rx = Val (Success, rx') /\
      bufferLength rx' = bufferLength msg' /\
      bufferOffset rx' = 4 /\
      Z.of_nat (length (buffer rx')) = bufferLength msg' /\
      take 4 (buffer rx') = take 4 (buffer msg').
Proof.
  intros Hinv Hoff msg' rx Henc Hbuf Hbl.
  assert (Hstep : step_cursors msg Success msg').
  { destruct Henc as [(fuel & filter & Hok & Hrun)|(data & len & Hrun)].
    - eapply virNetMessageEncodePayload_cursors; eauto.
    - eapply virNetMessageEncodePayloadRaw_cursors; eauto. }
  destruct Hstep as ((Ho & Hb & Hm) & Hge & _ & Hlw).
  unfold VIR_NET_MESSAGE_LEN_MAX in *.
  apply length_word_take in Hlw. rewrite <- Hbuf in Hlw.
  destruct (virNetMessageDecodeLength_accepts rx _ Hlw Hbl)
    as (rx' & Hdec & H1 & H2 & H3 & H4); try lia.
  exists rx'. rewrite <- Hbuf. auto.
Qed.

(** X8.  The frame [virNetMessageEncodePayloadRaw] leaves when it returns
    0: the length word, which holds the size of the whole frame, then what
    the buffer held between the length word and the cursor, then the [len]
    bytes given, unchanged. *)
Theorem virNetMessageEncodePayloadRaw_wire (msg : virNetMessage)
    (bytes : list byte) (len : Z) (msg' : virNetMessage) :
  encode_inv msg ->
  4 <= bufferOffset msg ->
  0 < len ->
  virNetMessageEncodePayloadRaw fresh_mem msg (Some bytes) len
  = Val (Success, msg') ->
  wire msg' =
  be32_bytes (bufferOffset msg + len)
  ++ drop 4 (take (Z.to_nat (bufferOffset msg)) (buffer msg))
  ++ take (Z.to_nat len) bytes.
Proof.
  intros Hinv Hoff Hlen Hrun.
  destruct (virNetMessageEncodePayloadRaw_layout fresh_mem Hconst _ _ _ _
              Hinv Hoff Hlen Hrun)
    as (Hbl & Hword & Hpay & Hsl & Hkeep).
  destruct Hinv as (Ho & Hb & Hm).
  set (mid := drop 4 (take (Z.to_nat (bufferOffset msg)) (buffer msg))).
  assert (Hmidlen : Z.of_nat (length mid) = bufferOffset msg - 4).
  { unfold mid. rewrite length_drop, length_take. lia. }
  assert (Hmid : bytes_at (buffer msg') 4 mid).
  { apply Hkeep; try lia.
    apply bytes_at_iff. split; [lia|]. split; [lia|].
    unfold mid. rewrite take_drop_commute. do 2 f_equal.
    rewrite length_drop, length_take. lia. }
  assert (Hall : bytes_at (buffer msg') 0
                   (be32_bytes (bufferOffset msg + len) ++ mid
                    ++ take (Z.to_nat len) bytes)).
  { apply bytes_at_app. split; [exact Hword|].
    rewrite be32_bytes_length. apply bytes_at_app. split; [exact Hmid|].
    replace (0 + Z.of_nat 4 + Z.of_nat (length mid))
      with (bufferOffset msg) by lia.
    exact Hpay. }
  apply bytes_at_iff in Hall as (_ & _ & Htk).
  rewrite <- Htk at 1. unfold wire. simpl drop. f_equal.
  rewrite !length_app, be32_bytes_length. lia.
Qed.

(** X10.  A frame made by [virNetMessageEncodeHeader] and
    [virNetMessageEncodePayloadRaw], once it is in the buffer of a receiver,
    is decoded by [virNetMessageDecodeHeader] into the header it was made
    from, with the cursor after the header; the bytes from the cursor to the
    end of the frame are the payload bytes that were given to the
    encoder. *)
Theorem raw_frame_round_trip (msg0 msg1 msg2 rx : virNetMessage)
    (bytes : list byte) (len : Z) :
  header_in_range (header msg0) ->
  0 < len ->
  virNetMessageEncodeHeader fresh_mem (xdr_apply xdr_header_fields) msg0
  = Val (Success, msg1) ->
  virNetMessageEncodePayloadRaw fresh_mem msg1 (Some bytes) len
  = Val (Success, msg2) ->
  buffer rx = wire msg2 ->
  bufferLength rx = bufferLength msg2 ->
  virNetMessageDecodeHeader xdr_header_fields rx
  = Val (Success, set_bufferOffset 28 (set_header (header msg0) rx)) /\
  mem_load (buffer rx) 28 (bufferLength rx - 28)
  = Val (take (Z.to_nat len) bytes) /\
  bufferLength rx - 28 = len.
Proof.
  intros Hh Hlen Hhdr Hraw Hbuf Hbl.
  destruct (virNetMessageEncodeHeader_fields fresh_mem Hconst _ _ Hhdr)
    as (Hoff1 & Hbl1 & Hlen1 & Hinit & _ & Hby1).
  destruct Hconst as [Hini Hmax].
  assert (Hinv1 : encode_inv msg1).
  { unfold encode_inv, VIR_NET_MESSAGE_LEN_MAX. lia. }
  destruct (virNetMessageEncodePayloadRaw_layout fresh_mem
              (conj Hini Hmax) _ _ _ _ Hinv1 ltac:(lia) Hlen Hraw)
    as (Hbl2 & Hword & Hpay & Hsl & Hkeep).
  pose proof (virNetMessageEncodePayloadRaw_cursors fresh_mem
                (conj Hini Hmax) _ _ _ _ _ Hinv1 Hraw)
    as ((Ho2 & Hb2 & Hm2) & _).
  unfold VIR_NET_MESSAGE_LEN_MAX in *.
  assert (Hby2 : bytes_at (buffer msg2) 4
                   (words_bytes (header_words (header msg0)))).
  { apply Hkeep; auto; try lia.
    rewrite words_bytes_length. simpl. lia. }
  assert (Hwire : forall a bs,
            a + Z.of_nat (length bs) <= bufferLength msg2 ->
            bytes_at (buffer msg2) a bs -> bytes_at (buffer rx) a bs).
  { intros a bs Hend Hbs. rewrite Hbuf. unfold wire.
    pose proof (proj1 (bytes_at_iff _ _ _) Hbs) as (Ha & _).
    eapply (bytes_at_take _ _ _ _ (Z.to_nat (bufferLength msg2)));
      eauto; try lia.
    - rewrite take_take. f_equal. lia.
    - rewrite length_take. lia. }
  split; [|split].
  - apply virNetMessageDecodeHeader_fields; auto; try lia.
    apply Hwire; auto. rewrite words_bytes_length. simpl. lia.
  - rewrite Hbl, Hbl2, Hoff1.
    replace (28 + len - 28) with len by lia.
    rewrite <- Hsl at 1. apply Hwire; try lia.
    rewrite <- Hoff1. exact Hpay.
  - lia.
Qed.

End RoundTrip.

Section TypedRoundTrip.
Context `{Constants}.
Variable fresh_mem : nat -> byte.

Hypothesis Hconst : constants_ok.

Lemma xdr_word_array_decode : forall ws vs0 xdr,
  x_op xdr = XDR_DECODE ->
  length vs0 = length ws ->
  4 * Z.of_nat (length ws) <= x_size xdr - x_pos xdr ->
  bytes_at (x_mem xdr) (x_base xdr + x_pos xdr) (words_bytes ws) ->
  xdr_word_array xdr vs0 =
  Val (true,
       mkXDR XDR_DECODE (x_mem xdr) (x_base xdr) (x_size xdr)
         (x_pos xdr + 4 * Z.of_nat (length ws)),
       map u32 ws).
Proof.
  induction ws as [|w ws IH]; intros vs0 xdr Hop Hlen Hroom Hby.
  - destruct vs0; [|discriminate]. simpl.
    rewrite Z.add_0_r. destruct xdr; simpl in *; subst; reflexivity.
  - destruct vs0 as [|v0 vs0]; [discriminate|].
    injection Hlen as Hlen. simpl length in *.
    change (words_bytes (w :: ws))
      with (be32_bytes (u32 w) ++ words_bytes ws) in Hby.
    apply bytes_at_app in Hby as [Hb0 Hb1].
    rewrite be32_bytes_length in Hb1.
    cbn [xdr_word_array].
    rewrite (xdr_u_int_reads xdr _ w); auto; try lia.
    cbn [exec_bind].
    rewrite (IH vs0); cbn [x_op x_mem x_base x_size x_pos]; auto; try lia.
    + cbn [exec_bind map].
      replace (x_pos xdr + 4 + 4 * Z.of_nat (length ws))
        with (x_pos xdr + 4 * Z.of_nat (S (length ws))) by lia.
      reflexivity.
    + replace (x_base xdr + (x_pos xdr + 4))
        with (x_base xdr + x_pos xdr + Z.of_nat 4) by lia.
      exact Hb1.
Qed.

Lemma encode_payload_loop_last filter :
  xdr_proc_ok filter ->
  forall fuel msg m x,
    encode_inv msg ->
    encode_payload_loop fresh_mem fuel filter msg (payload_stream msg)
    = Val (inr (m, x)) ->
    exists m0,
      encode_inv m0 /\ bufferOffset m0 = bufferOffset msg /\
      filter (payload_stream m0) = Val (true, x) /\
      m = sync_buffer x m0.
Proof.
  intros Hok. induction fuel as [|fuel IH]; intros msg m x Hinv Hrun.
  - discriminate.
  - simpl in Hrun.
    pose proof (payload_stream_valid Hconst msg Hinv) as Hv.
    destruct (Hok _ Hv) as (ok & xdr' & Hf & Hfr).
    rewrite Hf in Hrun. cbn [exec_bind] in Hrun.
    destruct ok.
    + injection Hrun as <- <-. exists msg. auto.
    + destruct (encode_payload_grow fresh_mem (sync_buffer xdr' msg))
        as [msg2|] eqn:Hg; [|discriminate].
      pose proof (encode_payload_grow_inv fresh_mem Hconst msg
                    (x_mem xdr') msg2 Hinv Hg)
        as (Hinv2 & Hoff2 & _).
      destruct (IH msg2 m x Hinv2 Hrun) as (m0 & Hi0 & Ho0 & Hf0 & Hm0).
      exists m0. repeat split; auto; try apply Hi0. congruence.
Qed.

(** Where the typed encoder puts the words of a payload. *)
Lemma virNetMessageEncodePayload_words fuel msg vs msg' :
  encode_inv msg -> 4 <= bufferOffset msg ->
  virNetMessageEncodePayload fresh_mem fuel msg (xdr_words vs)
  = Val (Success, msg') ->
  bufferLength msg' = bufferOffset msg + 4 * Z.of_nat (length vs) /\
  bytes_at (buffer msg') (bufferOffset msg) (words_bytes vs).
Proof.
  intros Hinv Hoff Hrun.
  unfold virNetMessageEncodePayload in Hrun.
  destruct (encode_payload_loop _ _ _ _ _) as [res| |] eqn:Hloop;
    cbn [exec_bind] in Hrun; try discriminate.
  destruct res as [m|[m x]]; [discriminate|].
  destruct (encode_payload_loop_last _ (xdr_words_ok vs) _ _ _ _ Hinv Hloop)
    as (m0 & Hinv0 & Hoff0 & Hf0 & ->).
  pose proof (payload_stream_valid Hconst m0 Hinv0) as Hv.
  pose proof (payload_stream_size Hconst m0 Hinv0) as Hsz.
  destruct Hconst as [Hinit Hmax].
  pose proof Hinv0 as (Ho & Hb & Hm).
  unfold VIR_NET_MESSAGE_LEN_MAX in *.
  destruct (Z_le_gt_dec (4 * Z.of_nat (length vs))
              (x_size (payload_stream m0) - x_pos (payload_stream m0)))
    as [Hfit|Hshort].
  - destruct (xdr_words_encode vs _ Hv eq_refl Hfit)
      as (mem' & Hw & Hl & Hby & _).
    rewrite Hw in Hf0. injection Hf0 as <-.
    cbn [payload_stream xdrmem_create x_base x_pos x_mem x_size] in *.
    rewrite Z.add_0_r in Hby. rewrite Z.add_0_l in Hrun.
    unfold xdr_getpos in Hrun.
    cbn [x_pos bufferOffset sync_buffer set_buffer] in Hrun.
    rewrite usize_small in Hrun by lia.
    eapply reencode_length_cases in Hrun as Hcs; [|simpl; lia].
    destruct Hcs as (_ & Hbl' & _).
    pose proof (reencode_length_bytes _ _ _ Hrun) as (Hdrop & Hl').
    cbn [buffer bufferOffset set_bufferOffset sync_buffer set_buffer x_mem]
      in Hbl', Hdrop, Hl'.
    split; [lia|].
    rewrite <- Hoff0.
    eapply (bytes_at_drop mem' _ _ _ 4); eauto; lia.
  - destruct (xdr_words_short vs _ Hv eq_refl) as (x2 & Hw & _); [lia|].
    rewrite Hw in Hf0. discriminate.
Qed.

(** X6.  [virNetMessageEncodePayload] writes nothing before the cursor it
    starts from except the length word: when it returns 0 the frame starts
    with the new length word followed by what the buffer held between the
    length word and the cursor; when it fails everything before the cursor
    is as it was, also after the buffer was enlarged. *)
Theorem virNetMessageEncodePayload_prefix (fuel : nat)
    (msg : virNetMessage) (filter : xdrproc_t) (r : retval)
    (msg' : virNetMessage) :
  xdr_proc_ok filter -> xdr_proc_forward filter ->
  encode_inv msg -> 4 <= bufferOffset msg ->
  virNetMessageEncodePayload fresh_mem fuel msg filter = Val (r, msg') ->
  match r with
  | Success =>
      take (Z.to_nat (bufferOffset msg)) (buffer msg')
      = be32_bytes (bufferLength msg')
        ++ drop 4 (take (Z.to_nat (bufferOffset msg)) (buffer msg))
  | Failure _ =>
      take (Z.to_nat (bufferOffset msg)) (buffer msg')
      = take (Z.to_nat (bufferOffset msg)) (buffer msg)
  end.
Proof.
  intros Hok Hfw Hinv Hoff Hrun.
  pose proof (virNetMessageEncodePayload_keeps fresh_mem Hconst _ _ _ _ _
                Hok Hfw Hinv Hoff Hrun) as Hkeep.
  pose proof (virNetMessageEncodePayload_cursors fresh_mem Hconst _ _ _ _ _
                Hok Hinv Hrun) as (Hinv' & Hr).
  pose proof Hinv as (Ho & Hb & Hm).
  pose proof Hinv' as (Ho' & Hb' & Hm').
  destruct Hconst as [Hinit Hmax].
  unfold VIR_NET_MESSAGE_LEN_MAX in *.
  set (mid := drop 4 (take (Z.to_nat (bufferOffset msg)) (buffer msg))).
  assert (Hmidlen : Z.of_nat (length mid) = bufferOffset msg - 4).
  { unfold mid. rewrite length_drop, length_take. lia. }
  assert (Hmid : bytes_at (buffer msg') 4 mid).
  { apply Hkeep; try lia.
    apply bytes_at_iff. split; [lia|]. split; [lia|].
    unfold mid. rewrite take_drop_commute. do 2 f_equal.
    rewrite length_drop, length_take. lia. }
  unfold virNetMessageEncodePayload in Hrun.
  destruct (encode_payload_loop _ _ _ _ _) as [res| |] eqn:Hloop;
    cbn [exec_bind] in Hrun; try discriminate.
  pose proof (encode_payload_loop_keeps fresh_mem (conj Hinit Hmax) filter
                Hok Hfw _ _ _ Hinv Hoff Hloop) as Htk.
  pose proof (encode_payload_loop_inv fresh_mem (conj Hinit Hmax) filter
                Hok _ _ _ Hinv Hloop) as Hres.
  destruct res as [m|[m x]].
  - injection Hrun as <- <-. exact Htk.
  - destruct Hres as ((Hom & Hbm & Hmm) & Hblm & Hofm & Hpos).
    unfold VIR_NET_MESSAGE_LEN_MAX in *.
    destruct r.
    + eapply reencode_length_cases in Hrun as Hcs;
        [|cbn [bufferOffset set_bufferOffset]; unfold xdr_getpos;
          rewrite usize_small by lia; lia].
      destruct Hcs as (_ & Hbl' & _).
      eapply reencode_length_word in Hrun as Hword;
        [|cbn [bufferOffset set_bufferOffset]; unfold xdr_getpos;
          rewrite usize_small by lia; lia].
      rewrite <- Hbl' in Hword.
      assert (Hall : bytes_at (buffer msg') 0
                       (be32_bytes (bufferLength msg') ++ mid)).
      { apply bytes_at_app. split; [exact Hword|].
        rewrite be32_bytes_length. exact Hmid. }
      apply bytes_at_iff in Hall as (_ & _ & Hall).
      etransitivity; [|exact Hall]. simpl drop. f_equal.
      rewrite length_app, be32_bytes_length. lia.
    + pose proof (reencode_length_bytes _ _ _ Hrun) as (Hdrop & Hl').
      cbn [buffer set_bufferOffset] in Hdrop, Hl'.
      revert Hrun. unfold reencode_length, xdr_u_int, xdrmem_create.
      cbn [x_op x_mem x_base x_size x_pos].
      case_bool_decide; cbn [exec_bind negb].
      * intros [= _ <-]. exact Htk.
      * destruct (mem_store _ _ _); cbn [exec_bind negb]; discriminate.
Qed.

(** X11.  A frame made by [virNetMessageEncodeHeader] and
    [virNetMessageEncodePayload] from an array of words, once it is in the
    buffer of a receiver, is decoded by [virNetMessageDecodeHeader] into the
    header and then by [virNetMessageDecodePayload] into the words it was
    made from; the payload decoder leaves the cursor where the header
    decoder put it and adds the size of the payload to [bufferLength]. *)
Theorem typed_frame_round_trip (msg0 msg1 msg2 rx : virNetMessage)
    (vs : list Z) (fuel : nat) :
  header_in_range (header msg0) ->
  Forall (fun v => 0 <= v < 2 ^ 32) vs ->
  virNetMessageEncodeHeader fresh_mem (xdr_apply xdr_header_fields) msg0
  = Val (Success, msg1) ->
  virNetMessageEncodePayload fresh_mem fuel msg1 (xdr_words vs)
  = Val (Success, msg2) ->
  buffer rx = wire msg2 ->
  bufferLength rx = bufferLength msg2 ->
  let rx1 := set_bufferOffset 28 (set_header (header msg0) rx) in
  virNetMessageDecodeHeader xdr_header_fields rx = Val (Success, rx1) /\
  virNetMessageDecodePayload rx1 xdr_word_array (replicate (length vs) 0)
  = Val (Success,
         set_bufferLength
           (bufferLength rx + 4 * Z.of_nat (length vs)) rx1,
         vs).
Proof.
  intros Hh Hvs Hhdr Henc Hbuf Hbl rx1.
  destruct (virNetMessageEncodeHeader_fields fresh_mem Hconst _ _ Hhdr)
    as (Hoff1 & Hbl1 & Hlen1 & Hinit & _ & Hby1).
  pose proof Hconst as [Hini Hmax].
  assert (Hinv1 : encode_inv msg1).
  { unfold encode_inv, VIR_NET_MESSAGE_LEN_MAX. lia. }
  destruct (virNetMessageEncodePayload_words _ _ _ _ Hinv1 ltac:(lia) Henc)
    as (Hbl2 & Hpay).
  pose proof (virNetMessageEncodePayload_cursors fresh_mem Hconst _ _ _ _ _
                (xdr_words_ok vs) Hinv1 Henc)
    as ((Ho2 & Hb2 & Hm2) & _).
  unfold VIR_NET_MESSAGE_LEN_MAX in *.
  assert (Hby2 : bytes_at (buffer msg2) 4
                   (words_bytes (header_words (header msg0)))).
  { eapply (virNetMessageEncodePayload_keeps fresh_mem Hconst);
      eauto using xdr_words_ok, xdr_words_forward; try lia.
    rewrite words_bytes_length. simpl. lia. }
  assert (Hwire : forall a bs,
            a + Z.of_nat (length bs) <= bufferLength msg2 ->
            bytes_at (buffer msg2) a bs -> bytes_at (buffer rx) a bs).
  { intros a bs Hend Hbs. rewrite Hbuf. unfold wire.
    pose proof (proj1 (bytes_at_iff _ _ _) Hbs) as (Ha & _).
    eapply (bytes_at_take _ _ _ _ (Z.to_nat (bufferLength msg2)));
      eauto; try lia.
    - rewrite take_take. f_equal. lia.
    - rewrite length_take. lia. }
  split.
  - apply virNetMessageDecodeHeader_fields; auto; try lia.
    apply Hwire; auto. rewrite words_bytes_length. simpl. lia.
  - unfold virNetMessageDecodePayload, rx1.
    cbn [buffer bufferOffset bufferLength set_bufferOffset set_header].
    rewrite (xdr_word_array_decode vs).
    + assert (Hmap : map u32 vs = vs).
      { clear -Hvs. induction Hvs as [|v vs Hv _ IH]; [reflexivity|].
        simpl. rewrite IH, u32_small by lia. reflexivity. }
      rewrite Hmap.
      cbn [exec_bind negb]. unfold xdr_getpos, sync_buffer.
      cbn [x_pos x_mem bufferLength set_buffer set_bufferOffset set_header].
      rewrite Z.add_0_l. rewrite usize_small by lia.
      destruct rx; reflexivity.
    + reflexivity.
    + apply length_replicate.
    + cbn [xdrmem_create x_size x_pos].
      rewrite usize_small by lia. rewrite u32_small by lia. lia.
    + cbn [xdrmem_create x_mem x_base x_pos]. rewrite Z.add_0_r.
      rewrite <- Hoff1.
      apply Hwire; [rewrite words_bytes_length; lia | exact Hpay].
Qed.

End TypedRoundTrip.

Section DecodeEdges.
Context `{Constants}.
Variable fresh_mem : nat -> byte.

(** X1.  [virNetMessageDecodeLength] fails on a buffer of fewer than four
    bytes and leaves the message as it was; and whenever it fails, for
    whatever reason, the buffer and [bufferLength] are what they were: a
    length that is refused allocates nothing. *)
Theorem virNetMessageDecodeLength_rejects (msg : virNetMessage) :
  (0 <= bufferLength msg < 4 ->
     virNetMessageDecodeLength fresh_mem msg
     = Val (Failure (mkReport VIR_ERR_RPC
                       "Unable to decode message length" []), msg)) /\
  (forall e msg',
     virNetMessageDecodeLength fresh_mem msg = Val (Failure e, msg') ->
     buffer msg' = buffer msg /\ bufferLength msg' = bufferLength msg /\
     report_code e = VIR_ERR_RPC).
Proof.
  split.
  - intros Hbl. unfold virNetMessageDecodeLength.
    rewrite xdr_u_int_short; [reflexivity|].
    simpl. rewrite u32_small by lia. lia.
  - intros e msg'. unfold virNetMessageDecodeLength.
    destruct (xdr_u_int _ _) as [[[ok xdr] len]| |];
      cbn [exec_bind]; try discriminate.
    destruct ok; cbn [negb].
    + repeat case_bool_decide; intros [= <- <-]; auto.
    + intros [= <- <-]; auto.
Qed.

(** X2.  [virNetMessageDecodeHeader] fails with the internal error, and
    leaves the message as it was, when fewer than
    [VIR_NET_MESSAGE_LEN_MAX] bytes have been received.  Otherwise it starts
    after the length word whatever the cursor was: when it returns 0 the
    cursor lies between the length word and [bufferLength]; when the
    marshaller fails the cursor is left after the length word;
    [bufferLength] is unchanged. *)
Theorem virNetMessageDecodeHeader_cursor
    (hdr : xdr_codec virNetMessageHeader) (msg : virNetMessage) :
  xdr_codec_ok hdr ->
  (bufferLength msg < VIR_NET_MESSAGE_LEN_MAX ->
     virNetMessageDecodeHeader hdr msg
     = Val (Failure (mkReport VIR_ERR_INTERNAL_ERROR
                       "Unable to decode header until len is received" []),
            msg)) /\
  (VIR_NET_MESSAGE_LEN_MAX <= bufferLength msg < 2 ^ 32 ->
   bufferLength msg <= Z.of_nat (length (buffer msg)) ->
   exists r msg',
     virNetMessageDecodeHeader hdr msg = Val (r, msg') /\
     bufferLength msg' = bufferLength msg /\
     match r with
     | Success =>
         VIR_NET_MESSAGE_LEN_MAX <= bufferOffset msg' <= bufferLength msg
     | Failure e =>
         e = mkReport VIR_ERR_RPC "Unable to decode message header" [] /\
         bufferOffset msg' = VIR_NET_MESSAGE_LEN_MAX
     end).
Proof.
  intros Hok. unfold virNetMessageDecodeHeader, VIR_NET_MESSAGE_LEN_MAX.
  split.
  - intros Hbl. now rewrite bool_decide_eq_true_2 by lia.
  - intros Hbl Hlen. rewrite bool_decide_eq_false_2 by lia.
    cbn [buffer bufferOffset bufferLength header set_bufferOffset].
    rewrite (usize_small (bufferLength msg - 4)) by lia.
    destruct (Hok (xdrmem_create (buffer msg) 4 (bufferLength msg - 4)
                     XDR_DECODE) (header msg))
      as (ok & xdr' & h' & Hrun & _ & _ & Hsz & _ & Hpos).
    { unfold xdr_valid; simpl. rewrite u32_small by lia. lia. }
    simpl in Hsz, Hpos. rewrite u32_small in Hpos by lia.
    rewrite Hrun. cbn [exec_bind].
    destruct ok; cbn [negb].
    + eexists _, _. split; [reflexivity|]. simpl.
      unfold xdr_getpos. rewrite usize_small by lia. lia.
    + eexists _, _. split; [reflexivity|]. simpl. auto.
Qed.

(** X3.  [virNetMessageDecodePayload] runs the marshaller once, on a stream
    over the bytes from [bufferOffset] to [bufferLength], and returns.  The
    marshaller stops [x_pos xdr'] bytes into that stream, within its size.
    When the marshaller succeeds the call returns 0 and [bufferLength] is
    what it was plus that number of bytes; when it fails the call fails
    with the error Unable to decode message payload and [bufferLength] is
    what it was.  [bufferOffset] is what it was either way, and so is every
    field but [bufferLength] and the buffer, which is the memory of the
    stream the marshaller leaves. *)
Theorem virNetMessageDecodePayload_cursors {A : Type}
    (filter : xdr_codec A) (data : A) (msg : virNetMessage) :
  xdr_codec_ok filter ->
  buffer_ok msg ->
  exists ok xdr' data' msg',
    filter (xdrmem_create (buffer msg) (bufferOffset msg)
              (bufferLength msg - bufferOffset msg) XDR_DECODE) data
    = Val (ok, xdr', data') /\
    0 <= x_pos xdr' <= bufferLength msg - bufferOffset msg /\
    virNetMessageDecodePayload msg filter data
    = Val (if ok then Success
           else Failure (mkReport VIR_ERR_RPC
                           "Unable to decode message payload" []),
           msg', data') /\
    bufferOffset msg' = bufferOffset msg /\
    bufferLength msg'
    = (if ok then bufferLength msg + x_pos xdr' else bufferLength msg) /\
    msg' = set_bufferLength (bufferLength msg')
             (set_buffer (x_mem xdr') msg).
Proof.
  intros Hok (Ho & Hb & Hlt). unfold virNetMessageDecodePayload.
  rewrite (usize_small (bufferLength msg - bufferOffset msg)) by lia.
  destruct (Hok (xdrmem_create (buffer msg) (bufferOffset msg)
                   (bufferLength msg - bufferOffset msg) XDR_DECODE) data)
    as (ok & xdr' & d' & Hrun & _ & _ & Hsz & _ & Hpos).
  { unfold xdr_valid; simpl. rewrite u32_small by lia. lia. }
  simpl in Hsz, Hpos. rewrite u32_small in Hpos by lia.
  rewrite Hrun. cbn [exec_bind].
  exists ok, xdr', d'.
  destruct ok; cbn [negb].
  - eexists. split; [reflexivity|]. split; [exact Hpos|].
    split; [reflexivity|]. unfold xdr_getpos, sync_buffer. simpl.
    rewrite usize_small by lia. repeat split.
  - eexists. split; [reflexivity|]. split; [exact Hpos|].
    split; [reflexivity|]. unfold sync_buffer.
    destruct msg. repeat split.
Qed.

End DecodeEdges.

Section DescriptorCountRoundTrip.
Context `{Constants}.

Lemma new_fd_slots_fill : forall m k,
  foldl (fun a i => <[i := -1]> a)
        (replicate k (-1) ++ replicate m 0) (seq k m)
  = replicate (k + m) (-1).
Proof.
  induction m as [|m IH]; intros k.
  - simpl. rewrite app_nil_r. f_equal. lia.
  - cbn [seq foldl replicate].
    rewrite insert_app_r_alt by (rewrite length_replicate; lia).
    rewrite length_replicate, Nat.sub_diag. cbn [insert list_insert].
    replace (replicate k (-1) ++ -1 :: replicate m 0)
      with (replicate (S k) (-1) ++ replicate m 0).
    + rewrite IH. f_equal. lia.
    + rewrite replicate_S_end, <- app_assoc. reflexivity.
Qed.

Lemma new_fd_slots_replicate n :
  new_fd_slots n = replicate (Z.to_nat n) (-1).
Proof.
  unfold new_fd_slots.
  exact (new_fd_slots_fill (Z.to_nat n) 0).
Qed.

(** What the count decoder does with a count within the limit. *)
Lemma virNetMessageDecodeNumFDs_accepts (msg : virNetMessage) (count : Z) :
  buffer_ok msg -> 4 <= buffer_space msg ->
  bytes_at (buffer msg) (bufferOffset msg) (be32_bytes count) ->
  0 <= count <= VIR_NET_MESSAGE_NUM_FDS_MAX ->
  virNetMessageDecodeNumFDs msg
  = Val (Success,
         if bool_decide (nfds msg = 0)
         then set_fds (replicate (Z.to_nat count) (-1))
                (set_nfds count
                   (set_bufferOffset (bufferOffset msg + 4) msg))
         else set_bufferOffset (bufferOffset msg + 4) msg).
Proof.
  intros Hok Hsp Hby Hc. unfold VIR_NET_MESSAGE_NUM_FDS_MAX in *.
  pose proof Hok as (Ho & Hb & Hlt). unfold buffer_space in Hsp.
  unfold virNetMessageDecodeNumFDs.
  rewrite (xdr_u_int_decode _ _ (be32_bytes count) count).
  - cbn [exec_bind negb xdr_getpos x_pos xdrmem_create].
    rewrite Z.add_0_l.
    rewrite (usize_small (bufferOffset msg + 4)) by lia.
    unfold VIR_NET_MESSAGE_NUM_FDS_MAX.
    rewrite bool_decide_eq_false_2 by lia.
    cbn [nfds set_bufferOffset].
    case_bool_decide; [|reflexivity].
    cbn [nfds set_nfds]. now rewrite new_fd_slots_replicate.
  - reflexivity.
  - cbn [xdrmem_create x_size x_pos].
    rewrite payload_window by exact Hok. unfold buffer_space. lia.
  - cbn [xdrmem_create x_mem x_base x_pos]. rewrite Z.add_0_r. exact Hby.
  - apply be32_value_bytes. lia.
Qed.

(** X12.  A descriptor count within the limit, encoded by
    [virNetMessageEncodeNumFDs] where four bytes are free, moves the cursor
    four bytes on; [virNetMessageDecodeNumFDs] on a message that holds the
    same bytes at the same cursor returns 0, moves its cursor past the count
    and, when the message has no descriptors yet, takes the count and
    allocates that many slots, each -1; a message that has descriptors keeps
    them and its own count. *)
Theorem numfds_round_trip (msg : virNetMessage) :
  0 <= nfds msg <= VIR_NET_MESSAGE_NUM_FDS_MAX ->
  buffer_ok msg -> 4 <= buffer_space msg ->
  exists msg',
    virNetMessageEncodeNumFDs msg = Val (Success, msg') /\
    bufferOffset msg' = bufferOffset msg + 4 /\
    forall rx,
      buffer rx = buffer msg' ->
      bufferOffset rx = bufferOffset msg ->
      bufferLength rx = bufferLength msg ->
      virNetMessageDecodeNumFDs rx
      = Val (Success,
             if bool_decide (nfds rx = 0)
             then set_fds (replicate (Z.to_nat (nfds msg)) (-1))
                    (set_nfds (nfds msg)
                       (set_bufferOffset (bufferOffset msg + 4) rx))
             else set_bufferOffset (bufferOffset msg + 4) rx).
Proof.
  intros Hn Hok Hsp. unfold VIR_NET_MESSAGE_NUM_FDS_MAX in *.
  destruct (virNetMessageEncodeNumFDs_in_range msg ltac:(lia))
    as [_ Henc].
  destruct (Henc ltac:(lia) Hok Hsp) as (mem & Hst & Hrun).
  eexists. split; [exact Hrun|]. split; [reflexivity|].
  intros rx Hbuf Hoff Hbl.
  cbn [buffer set_bufferOffset set_buffer] in Hbuf.
  pose proof (mem_store_length _ _ _ _ Hst) as Hlm.
  pose proof Hok as (Ho & Hb & Hlt).
  rewrite <- Hoff.
  apply virNetMessageDecodeNumFDs_accepts.
  - unfold buffer_ok. rewrite Hbuf, Hoff, Hbl, Hlm. auto.
  - unfold buffer_space in *. rewrite Hoff, Hbl. exact Hsp.
  - rewrite Hbuf, Hoff. eapply mem_store_bytes_at; eauto.
  - unfold VIR_NET_MESSAGE_NUM_FDS_MAX. lia.
Qed.

End DescriptorCountRoundTrip.

Section DescriptorCountNoRoom.
Context `{Constants}.

(** X13.  With fewer than four bytes between the cursor and
    [bufferLength], [virNetMessageEncodeNumFDs] (for a count within the
    limit) and [virNetMessageDecodeNumFDs] fail and leave the message as it
    was: the buffer is not enlarged and the cursor is not moved. *)
Theorem numfds_no_room (msg : virNetMessage) :
  buffer_ok msg -> buffer_space msg < 4 ->
  (u32 (nfds msg) <= VIR_NET_MESSAGE_NUM_FDS_MAX ->
     virNetMessageEncodeNumFDs msg
     = Val (Failure (mkReport VIR_ERR_RPC
                       "Unable to encode number of FDs" []), msg)) /\
  virNetMessageDecodeNumFDs msg
  = Val (Failure (mkReport VIR_ERR_RPC
                    "Unable to decode number of FDs" []), msg).
Proof.
  intros Hok Hsp. split.
  - intros Hn. unfold virNetMessageEncodeNumFDs.
    rewrite bool_decide_eq_false_2 by lia.
    rewrite xdr_u_int_short.
    + cbn [exec_bind negb]. destruct msg; reflexivity.
    + cbn [xdrmem_create x_size x_pos].
      rewrite payload_window by exact Hok. lia.
  - unfold virNetMessageDecodeNumFDs.
    rewrite xdr_u_int_short; [reflexivity|].
    cbn [xdrmem_create x_size x_pos].
    rewrite payload_window by exact Hok. lia.
Qed.

End DescriptorCountNoRoom.

Section ClearTwice.

Lemma closed_fds_app evs1 evs2 :
  closed_fds (evs1 ++ evs2) = closed_fds evs1 ++ closed_fds evs2.
Proof. unfold closed_fds. apply flat_map_app. Qed.

Lemma closed_fds_close_events a :
  closed_fds (close_events a) = filter (fun fd => 0 <= fd) a.
Proof.
  induction a as [|fd a IH]; [reflexivity|].
  unfold close_events in *. cbn [flat_map].
  rewrite closed_fds_app, IH. unfold VIR_FORCE_CLOSE.
  case_bool_decide.
  - rewrite filter_cons_False by lia. reflexivity.
  - rewrite filter_cons_True by lia. reflexivity.
Qed.

(** X14.  [virNetMessageClearPayload] closes the descriptors that are
    open among the first [nfds] of the array, each once and in order, and
    leaves no descriptors and no buffer; called again on the message it
    leaves, it closes nothing and changes nothing. *)
Theorem virNetMessageClearPayload_once (msg : virNetMessage) :
  fds_ok msg ->
  exists msg' evs,
    virNetMessageClearPayload msg = Val (msg', evs) /\
    closed_fds evs
    = filter (fun fd => 0 <= fd) (take (Z.to_nat (nfds msg)) (fds msg)) /\
    nfds msg' = 0 /\ fds msg' = [] /\ buffer msg' = [] /\
    bufferLength msg' = 0 /\ bufferOffset msg' = 0 /\
    virNetMessageClearPayload msg'
    = Val (msg', [EvFree FreedFds; EvFree FreedBuffer]).
Proof.
  intros Hok.
  rewrite (virNetMessageClearPayload_events msg Hok).
  eexists _, _. split; [reflexivity|].
  split.
  - rewrite closed_fds_app, closed_fds_close_events.
    simpl. now rewrite app_nil_r.
  - repeat split.
Qed.

End ClearTwice.

Section ErrorTwice.
Context `{Constants}.

(** X15.  A second call of [virNetMessageSaveError] changes nothing: what
    the first call saved stays, whatever the thread-local error is by then,
    given that the internal error code is not [VIR_ERR_OK] and that a
    thread-local error, when set, has a code other than [VIR_ERR_OK]. *)
Theorem virNetMessageSaveError_twice (rerr : virNetMessageError.t)
    (verr1 verr2 : option virError.t) :
  VIR_ERR_INTERNAL_ERROR <> VIR_ERR_OK ->
  (forall e, verr1 = Some e -> virError.code e <> VIR_ERR_OK) ->
  virNetMessageSaveError (virNetMessageSaveError rerr verr1) verr2
  = virNetMessageSaveError rerr verr1.
Proof.
  intros Hint Hset.
  assert (Hcode : virNetMessageError.code
                    (virNetMessageSaveError rerr verr1) <> VIR_ERR_OK).
  { unfold virNetMessageSaveError. case_bool_decide; [assumption|].
    destruct verr1 as [e|]; simpl; auto. }
  unfold virNetMessageSaveError at 1.
  now rewrite bool_decide_eq_true_2 by exact Hcode.
Qed.

End ErrorTwice.

Section QueueSteps.

(** X16.  On a queue that holds the distinct messages [ms]:
    [virNetMessageQueuePush] of an unlinked message that is not in the queue
    leaves a queue that holds [ms] followed by that message, with the same
    head when [ms] is not empty, and touches no record outside [ms];
    [virNetMessageQueueServe] returns the first message with its link
    cleared, leaves a queue holding the rest and touches no other
    record. *)
Theorem queue_push_serve_steps (h : gmap loc virNetMessage)
    (queue : option loc) (ms : list loc) :
  is_queue h queue ms -> NoDup ms ->
  (forall l m fuel,
     l ∉ ms -> h !! l = Some m -> next m = None ->
     (length ms <= fuel)%nat ->
     exists h' queue',
       virNetMessageQueuePush fuel h queue (Some l) = Val (h', queue') /\
       is_queue h' queue' (ms ++ [l]) /\
       (ms <> [] -> queue' = queue) /\
       forall l', l' ∉ ms -> h' !! l' = h !! l') /\
  (forall l ms',
     ms = l :: ms' ->
     exists h' queue',
       virNetMessageQueueServe h queue = Val (h', queue', Some l) /\
       is_queue h' queue' ms' /\
       link_of h' (Some l) = None /\
       forall l', l' <> l -> h' !! l' = h !! l').
Proof.
  intros Hq Hnd. split.
  - intros l m fuel Hl Hm Hnext Hfuel.
    destruct (virNetMessageQueuePush_snoc h queue ms l m fuel Hq Hnd Hl Hm
                Hnext Hfuel) as (h' & queue' & Hpush & Hq' & Hfr).
    exists h', queue'. repeat split; auto.
    intros Hne. destruct ms as [|l0 ms0]; [congruence|].
    destruct Hq as [-> _]. simpl in Hpush.
    destruct (queue_last _ _ _) as [t| |]; simpl in Hpush;
      try discriminate.
    destruct (h !! t); try discriminate. now injection Hpush as _ <-.
  - intros l ms' ->. destruct Hq as [-> (m & Hm & Hrest)].
    apply NoDup_cons in Hnd as [Hl Hnd'].
    simpl. rewrite Hm.
    eexists _, _. split; [reflexivity|].
    split; [|split].
    + apply is_queue_insert_other; auto.
    + simpl. now rewrite lookup_insert_eq.
    + intros l' Hne. now rewrite lookup_insert_ne.
Qed.

Lemma queue_last_self_loop h l m : forall fuel,
  h !! l = Some m -> next m = Some l -> queue_last fuel h l = OutOfFuel.
Proof.
  induction fuel as [|fuel IH]; intros Hm Hn; [reflexivity|].
  simpl. rewrite Hm, Hn. now apply IH.
Qed.

(** X17.  [virNetMessageQueuePush] does not check whether the message is
    queued already: pushed again onto the queue whose only element it is,
    the message becomes its own successor, and after that no push onto that
    queue returns, whatever the number of rounds given to its loop. *)
Theorem virNetMessageQueuePush_again_never_returns
    (h : gmap loc virNetMessage) (l : loc) (m : virNetMessage)
    (fuel : nat) :
  h !! l = Some m -> next m = None ->
  exists h2,
    virNetMessageQueuePush fuel h None (Some l) = Val (h, Some l) /\
    virNetMessageQueuePush (S fuel) h (Some l) (Some l)
    = Val (h2, Some l) /\
    link_of h2 (Some l) = Some l /\
    forall fuel' msg,
      virNetMessageQueuePush fuel' h2 (Some l) msg = OutOfFuel.
Proof.
  intros Hm Hn.
  exists (<[l := set_next (Some l) m]> h).
  split; [reflexivity|]. split; [|split].
  - simpl. rewrite Hm, Hn. simpl. now rewrite Hm.
  - simpl. now rewrite lookup_insert_eq.
  - intros fuel' msg. simpl.
    rewrite (queue_last_self_loop _ l (set_next (Some l) m)); auto.
    now rewrite lookup_insert_eq.
Qed.

End QueueSteps.

Section DescriptorCalls.
Context `{Constants}.
Variable os : Type.
Variable dup : os -> Z -> os * Z.
Variable virSetInherit : os -> Z -> bool -> os * Z.
Variable VIR_ERR_SYSTEM_ERROR : Z.

(** X18.  [virNetMessageAddFD] stores the descriptor [dup] returns, not
    the one it is given: when it returns 0 that descriptor is the new last
    element of the array, [nfds] is one more, nothing was closed and the
    buffer and cursors are as they were.  When it fails the message is as it
    was and the duplicate, if [dup] had made one, has been closed. *)
Theorem virNetMessageAddFD_owns_duplicate (s : os) (msg : virNetMessage)
    (fd : Z) (r : retval) (msg' : virNetMessage) (s' : os)
    (evs : list event) :
  virNetMessageAddFD os dup virSetInherit VIR_ERR_SYSTEM_ERROR s msg fd
  = (r, msg', s', evs) ->
  let newfd := snd (dup s fd) in
  match r with
  | Success =>
      0 <= newfd /\ evs = [] /\
      nfds msg' = usize (nfds msg + 1) /\
      (Z.of_nat (length (fds msg)) = nfds msg ->
       fds msg' = fds msg ++ [newfd]) /\
      buffer msg' = buffer msg /\ bufferLength msg' = bufferLength msg /\
      bufferOffset msg' = bufferOffset msg
  | Failure e =>
      msg' = msg /\ report_code e = VIR_ERR_SYSTEM_ERROR /\
      closed_fds evs = (if bool_decide (newfd < 0) then [] else [newfd])
  end.
Proof.
  unfold virNetMessageAddFD.
  destruct (dup s fd) as [s1 newfd] eqn:Hdup. cbn [snd].
  case_bool_decide as Hneg.
  - unfold VIR_FORCE_CLOSE. rewrite bool_decide_eq_true_2 by lia.
    intros [= <- <- <- <-]. auto.
  - destruct (virSetInherit s1 newfd false) as [s2 rc].
    case_bool_decide as Hrc.
    + unfold VIR_FORCE_CLOSE. rewrite bool_decide_eq_false_2 by lia.
      intros [= <- <- <- <-]. auto.
    + unfold VIR_APPEND_ELEMENT. intros [= <- <- <- <-].
      cbn [nfds fds buffer bufferLength bufferOffset set_nfds set_fds].
      repeat split; auto; try lia.
      intros Hlen. rewrite resize_all_alt by lia. reflexivity.
Qed.

(** X20.  [virNetMessageDupFD] for a slot at or past [nfds] fails with the
    internal error without a call to the descriptor table.  For a slot
    within [nfds] it returns the descriptor [dup] gives for the descriptor
    in the slot, with nothing closed; when it fails instead, the duplicate,
    if [dup] had made one, has been closed. *)
Theorem virNetMessageDupFD_spec (s : os) (msg : virNetMessage) (slot : Z) :
  (slot >= nfds msg ->
     virNetMessageDupFD os dup virSetInherit VIR_ERR_SYSTEM_ERROR s msg slot
     = Val (inl (mkReport VIR_ERR_INTERNAL_ERROR
                   "No FD available at slot %zu" [slot]), s, [])) /\
  (0 <= slot < nfds msg -> fds_ok msg ->
   exists old r s' evs,
     fds msg !! Z.to_nat slot = Some old /\
     virNetMessageDupFD os dup virSetInherit VIR_ERR_SYSTEM_ERROR s msg slot
     = Val (r, s', evs) /\
     match r with
     | inr fd => fd = snd (dup s old) /\ 0 <= fd /\ evs = []
     | inl e =>
         report_code e = VIR_ERR_SYSTEM_ERROR /\
         closed_fds evs
         = (if bool_decide (snd (dup s old) < 0) then []
            else [snd (dup s old)])
     end).
Proof.
  unfold virNetMessageDupFD. split.
  - intros Hs. now rewrite bool_decide_eq_true_2 by lia.
  - intros Hs [_ Hlen]. rewrite bool_decide_eq_false_2 by lia.
    destruct (lookup_lt_is_Some_2 (fds msg) (Z.to_nat slot) ltac:(lia))
      as [old Hold].
    rewrite Hold. exists old.
    destruct (dup s old) as [s1 fd] eqn:Hdup. cbn [snd].
    case_bool_decide as Hneg.
    + eexists _, _, _. split; [reflexivity|]. split; [reflexivity|].
      simpl. auto.
    + destruct (virSetInherit s1 fd false) as [s2 rc].
      case_bool_decide as Hrc.
      * unfold VIR_FORCE_CLOSE. rewrite bool_decide_eq_false_2 by lia.
        eexists _, _, _. split; [reflexivity|]. split; [reflexivity|].
        simpl. auto.
      * eexists _, _, _. split; [reflexivity|]. split; [reflexivity|].
        simpl. repeat split; auto. lia.
Qed.

(** X19.  A descriptor added by [virNetMessageAddFD] belongs to the
    message: [virNetMessageClearFDs] afterwards closes the descriptors that
    were open in the message and then the duplicate that was added, and
    leaves no descriptors. *)
Theorem virNetMessageAddFD_then_clear (s : os) (msg msg' : virNetMessage)
    (fd : Z) (s' : os) (evs : list event) :
  Z.of_nat (length (fds msg)) = nfds msg ->
  nfds msg + 1 < 2 ^ 64 ->
  virNetMessageAddFD os dup virSetInherit VIR_ERR_SYSTEM_ERROR s msg fd
  = (Success, msg', s', evs) ->
  exists msg'' evs',
    virNetMessageClearFDs msg' = Val (msg'', evs') /\
    closed_fds evs'
    = filter (fun fd => 0 <= fd) (fds msg) ++ [snd (dup s fd)] /\
    nfds msg'' = 0 /\ fds msg'' = [].
Proof.
  intros Hlen Hwrap. unfold virNetMessageAddFD.
  destruct (dup s fd) as [s1 newfd] eqn:Hdup. cbn [snd].
  case_bool_decide as Hneg.
  { destruct (VIR_FORCE_CLOSE newfd). discriminate. }
  destruct (virSetInherit s1 newfd false) as [s2 rc].
  case_bool_decide as Hrc.
  { destruct (VIR_FORCE_CLOSE newfd). discriminate. }
  unfold VIR_APPEND_ELEMENT. intros [= <- <- <-].
  rewrite resize_all_alt by lia.
  rewrite usize_small by lia.
  rewrite virNetMessageClearFDs_events.
  2: { unfold fds_ok. cbn [nfds fds set_nfds set_fds].
       rewrite length_app. simpl. lia. }
  eexists _, _. split; [reflexivity|].
  cbn [nfds fds set_nfds set_fds set_donefds].
  rewrite closed_fds_app, closed_fds_close_events.
  rewrite take_ge by (rewrite length_app; simpl; lia).
  rewrite filter_app, filter_cons_True by lia.
  simpl. rewrite app_nil_r. auto.
Qed.

End DescriptorCalls.

Section EmptyPayload.
Context `{Constants}.
Variable fresh_mem : nat -> byte.

Hypothesis Hconst : constants_ok.

(** X21.  [virNetMessageEncodePayloadRaw] given a null pointer, or a length
    of 0, encodes an empty payload, whatever the other argument is: it
    returns 0, and the frame is the length word, which holds the cursor the
    call started from, followed by what the buffer held between the length
    word and that cursor. *)
Theorem virNetMessageEncodePayloadRaw_empty (msg : virNetMessage)
    (data : option (list byte)) (len : Z) :
  encode_inv msg ->
  4 <= bufferOffset msg ->
  4 <= VIR_NET_MESSAGE_HEADER_XDR_LEN < 2 ^ 32 ->
  data = None \/ len = 0 ->
  exists msg',
    virNetMessageEncodePayloadRaw fresh_mem msg data len
    = Val (Success, msg') /\
    bufferLength msg' = bufferOffset msg /\
    bufferOffset msg' = 0 /\
    wire msg' =
    be32_bytes (bufferOffset msg)
    ++ drop 4 (take (Z.to_nat (bufferOffset msg)) (buffer msg)).
Proof.
  intros Hinv Hoff Hx Hempty.
  destruct Hconst as [Hinit Hmax].
  pose proof Hinv as (Ho & Hb & Hm).
  unfold VIR_NET_MESSAGE_LEN_MAX in *.
  assert (Hraw : virNetMessageEncodePayloadRaw fresh_mem msg data len
                 = reencode_length msg).
  { unfold virNetMessageEncodePayloadRaw.
    destruct Hempty as [-> | ->]; [reflexivity|].
    destruct data; [|reflexivity].
    now rewrite bool_decide_eq_false_2 by lia. }
  rewrite Hraw.
  destruct (reencode_length_succeeds msg Hx ltac:(lia)) as (msg' & Hrun).
  exists msg'. split; [exact Hrun|].
  eapply reencode_length_cases in Hrun as Hcs; [|lia].
  destruct Hcs as (Hl' & Hbl' & Hoff' & _).
  pose proof (reencode_length_bytes _ _ _ Hrun) as (Hdrop & _).
  eapply reencode_length_word in Hrun as Hword; [|lia].
  split; [exact Hbl'|]. split; [exact Hoff'|].
  set (mid := drop 4 (take (Z.to_nat (bufferOffset msg)) (buffer msg))).
  assert (Hmidlen : Z.of_nat (length mid) = bufferOffset msg - 4).
  { unfold mid. rewrite length_drop, length_take. lia. }
  assert (Hmid : bytes_at (buffer msg') 4 mid).
  { apply (bytes_at_drop (buffer msg) _ _ _ 4); auto; try lia.
    apply bytes_at_iff. split; [lia|]. split; [lia|].
    unfold mid. rewrite take_drop_commute. do 2 f_equal.
    rewrite length_drop, length_take. lia. }
  assert (Hall : bytes_at (buffer msg') 0
                   (be32_bytes (bufferOffset msg) ++ mid)).
  { apply bytes_at_app. split; [exact Hword|].
    rewrite be32_bytes_length. exact Hmid. }
  apply bytes_at_iff in Hall as (_ & _ & Htk).
  etransitivity; [|exact Htk]. unfold wire. simpl drop. f_equal.
  rewrite length_app, be32_bytes_length. lia.
Qed.

End EmptyPayload.

(** * The cursors, store by store *)

Section CursorHistory.
Context `{Constants}.
Variable fresh_mem : nat -> byte.
Variable xdr_virNetMessageHeader : virNetMessageHeader -> xdrproc_t.

Hypothesis Hconst : constants_ok.
Hypothesis Hheader : forall h, xdr_proc_ok (xdr_virNetMessageHeader h).

Lemma last_cursors_app prev log1 log2 :
  last_cursors prev (log1 ++ log2)
  = last_cursors (last_cursors prev log1) log2.
Proof.
  unfold last_cursors. destruct log2 as [|e log2 _] using rev_ind.
  - rewrite app_nil_r. simpl. now destruct (last log1) as [[? ?]|].
  - rewrite app_assoc, !last_snoc. reflexivity.
Qed.

Lemma stores_ok_app log1 : forall prev log2,
  stores_ok prev log1 ->
  stores_ok (last_cursors prev log1) log2 ->
  stores_ok prev (log1 ++ log2).
Proof.
  induction log1 as [|[k c] log1 IH]; intros prev log2 H1 H2.
  - exact H2.
  - destruct H1 as (Hc & Hk & Hrest). simpl. split; [exact Hc|].
    split; [exact Hk|]. apply IH; [exact Hrest|].
    replace (last_cursors c log1)
      with (last_cursors prev ((k, c) :: log1)); [exact H2|].
    change ((k, c) :: log1) with ([(k, c)] ++ log1).
    now rewrite last_cursors_app.
Qed.

(** The finalisation stores the cursor as the length, then 0 as the
    cursor. *)
Lemma reencode_length_stores_eq msg :
  reencode_length_stores msg =
  let* (r, m) := reencode_length msg in
  Val (r, m,
       match r with
       | Success =>
           [(StoreFinal, (bufferOffset msg, bufferOffset msg));
            (StoreOffset, (bufferOffset msg, 0))]
       | Failure _ => []
       end).
Proof.
  unfold reencode_length_stores, reencode_length.
  destruct (xdr_u_int _ _) as [[[ok xdr] v]| |]; simpl; try reflexivity.
  destruct ok; reflexivity.
Qed.

Lemma virNetMessageEncodeHeader_stores_eq msg :
  virNetMessageEncodeHeader_stores fresh_mem xdr_virNetMessageHeader msg =
  let* (r, m) :=
    virNetMessageEncodeHeader fresh_mem xdr_virNetMessageHeader msg in
  Val (r, m,
       [(StoreLength,
         (usize (VIR_NET_MESSAGE_INITIAL + VIR_NET_MESSAGE_LEN_MAX),
          bufferOffset msg));
        (StoreOffset,
         (usize (VIR_NET_MESSAGE_INITIAL + VIR_NET_MESSAGE_LEN_MAX), 0))]
       ++ match r with
          | Success => [(StoreOffset, cursors m)]
          | Failure _ => []
          end).
Proof.
  unfold virNetMessageEncodeHeader_stores, virNetMessageEncodeHeader.
  cbv zeta.
  destruct (xdr_u_int _ _) as [[[ok xdr] v]| |]; simpl; try reflexivity.
  destruct ok; simpl; [|reflexivity].
  destruct (xdr_virNetMessageHeader _ _) as [[ok2 xdr2]| |]; simpl;
    try reflexivity.
  destruct ok2; simpl; [|reflexivity].
  destruct (xdr_setpos xdr2 0) as [b xdr3].
  destruct (xdr_u_int _ _) as [[[ok4 xdr4] v4]| |]; simpl; try reflexivity.
  destruct ok4; reflexivity.
Qed.

Lemma virNetMessageEncodeNumFDs_stores_eq msg :
  virNetMessageEncodeNumFDs_stores msg =
  let* (r, m) := virNetMessageEncodeNumFDs msg in
  Val (r, m,
       match r with
       | Success => [(StoreOffset, cursors m)]
       | Failure _ => []
       end).
Proof.
  unfold virNetMessageEncodeNumFDs_stores, virNetMessageEncodeNumFDs.
  case_bool_decide; [reflexivity|].
  destruct (xdr_u_int _ _) as [[[ok xdr] v]| |]; simpl; try reflexivity.
  destruct ok; reflexivity.
Qed.

Lemma encode_payload_loop_stores_eq filter : forall fuel msg xdr,
  (let* (r, _) := encode_payload_loop_stores fresh_mem fuel filter msg xdr in
   Val r)
  = encode_payload_loop fresh_mem fuel filter msg xdr.
Proof.
  induction fuel as [|fuel IH]; intros msg xdr; [reflexivity|].
  simpl. destruct (filter xdr) as [[ok xdr']| |]; simpl; try reflexivity.
  destruct ok; [reflexivity|].
  destruct (encode_payload_grow fresh_mem (sync_buffer xdr' msg))
    as [msg2|]; [|reflexivity].
  rewrite <- IH.
  destruct (encode_payload_loop_stores _ _ _ _ _) as [[r log]| |];
    reflexivity.
Qed.

Lemma virNetMessageEncodePayload_stores_eq fuel msg filter :
  (let* (r, m, _) :=
     virNetMessageEncodePayload_stores fresh_mem fuel msg filter in
   Val (r, m))
  = virNetMessageEncodePayload fresh_mem fuel msg filter.
Proof.
  unfold virNetMessageEncodePayload_stores, virNetMessageEncodePayload.
  rewrite <- encode_payload_loop_stores_eq.
  destruct (encode_payload_loop_stores _ _ _ _ _) as [[res log]| |];
    simpl; try reflexivity.
  destruct res as [m|[m x]]; [reflexivity|].
  rewrite reencode_length_stores_eq.
  destruct (reencode_length _) as [[r m']| |]; reflexivity.
Qed.

Lemma virNetMessageEncodePayloadRaw_stores_eq msg data len :
  (let* (r, m, _) :=
     virNetMessageEncodePayloadRaw_stores fresh_mem msg data len in
   Val (r, m))
  = virNetMessageEncodePayloadRaw fresh_mem msg data len.
Proof.
  assert (Hre : forall m,
            (let* (r, m', _) := reencode_length_stores m in Val (r, m'))
            = reencode_length m).
  { intros m. rewrite reencode_length_stores_eq.
    destruct (reencode_length m) as [[r m']| |]; reflexivity. }
  unfold virNetMessageEncodePayloadRaw_stores,
    virNetMessageEncodePayloadRaw.
  destruct data as [bytes|]; [|apply Hre].
  case_bool_decide; [|apply Hre].
  case_bool_decide.
  - case_bool_decide; [reflexivity|]. simpl.
    destruct (mem_load bytes 0 len) as [src| |]; simpl; try reflexivity.
    destruct (mem_store _ _ src) as [mem| |]; simpl; try reflexivity.
    rewrite <- Hre.
    destruct (reencode_length_stores _) as [[[r m'] log]| |]; reflexivity.
  - simpl.
    destruct (mem_load bytes 0 len) as [src| |]; simpl; try reflexivity.
    destruct (mem_store _ _ src) as [mem| |]; simpl; try reflexivity.
    rewrite <- Hre.
    destruct (reencode_length_stores _) as [[[r m'] log]| |]; reflexivity.
Qed.

Lemma encode_step_stores_eq fuel op msg :
  (let* (r, m, _) := encode_step_stores fresh_mem fuel op msg in Val (r, m))
  = encode_step fresh_mem fuel op msg.
Proof.
  destruct op as [|filter|data len]; simpl.
  - rewrite virNetMessageEncodeNumFDs_stores_eq.
    destruct (virNetMessageEncodeNumFDs msg) as [[r m]| |]; reflexivity.
  - apply virNetMessageEncodePayload_stores_eq.
  - apply virNetMessageEncodePayloadRaw_stores_eq.
Qed.

Lemma encode_run_stores_eq fuel : forall ops msg,
  (let* (trace, _) := encode_run_stores fresh_mem fuel ops msg in Val trace)
  = encode_run fresh_mem fuel ops msg.
Proof.
  induction ops as [|op ops IH]; intros msg; [reflexivity|].
  simpl. rewrite <- encode_step_stores_eq.
  destruct (encode_step_stores fresh_mem fuel op msg)
    as [[[r m] log]| |]; simpl; try reflexivity.
  rewrite <- IH.
  destruct (encode_run_stores fresh_mem fuel ops m) as [[rest log']| |];
    reflexivity.
Qed.

Lemma encode_session_stores_eq fuel msg ops :
  (let* (trace, _) :=
     encode_session_stores fresh_mem xdr_virNetMessageHeader fuel msg ops in
   Val trace)
  = encode_session fresh_mem xdr_virNetMessageHeader fuel msg ops.
Proof.
  unfold encode_session_stores, encode_session.
  rewrite virNetMessageEncodeHeader_stores_eq.
  destruct (virNetMessageEncodeHeader _ _ msg) as [[r m]| |]; simpl;
    try reflexivity.
  rewrite <- encode_run_stores_eq.
  destruct (encode_run_stores fresh_mem fuel ops m) as [[rest log']| |];
    reflexivity.
Qed.


Lemma last_cursors_cons prev e log :
  last_cursors prev (e :: log) = last_cursors (snd e) log.
Proof.
  change (e :: log) with ([e] ++ log). rewrite last_cursors_app.
  destruct e as [k c]. reflexivity.
Qed.

Lemma reencode_length_stores_ok msg r m log :
  0 <= bufferOffset msg < 2 ^ 32 ->
  reencode_length_stores msg = Val (r, m, log) ->
  reencode_length msg = Val (r, m) /\
  stores_ok (cursors msg) log /\
  last_cursors (cursors msg) log = cursors m.
Proof.
  intros Hoff. rewrite reencode_length_stores_eq.
  destruct (reencode_length msg) as [[r0 m0]| |] eqn:Hre; simpl;
    try discriminate.
  intros [= <- <- <-]. split; [reflexivity|].
  destruct (reencode_length_cases msg r0 m0 Hoff Hre) as (_ & Hr).
  unfold cursors. destruct r0.
  - destruct Hr as (Hbl & Hof & _). rewrite Hbl, Hof.
    simpl. repeat split; lia.
  - destruct Hr as (Hbl & Hof). rewrite Hbl, Hof. simpl. auto.
Qed.

Lemma virNetMessageEncodeHeader_failure msg e m :
  virNetMessageEncodeHeader fresh_mem xdr_virNetMessageHeader msg
  = Val (Failure e, m) ->
  bufferOffset m = 0.
Proof.
  unfold virNetMessageEncodeHeader. cbv zeta.
  destruct (xdr_u_int _ _) as [[[ok xdr] v]| |]; simpl; try discriminate.
  destruct ok; simpl; [|intros [= _ <-]; reflexivity].
  destruct (xdr_virNetMessageHeader _ _) as [[ok2 xdr2]| |]; simpl;
    try discriminate.
  destruct ok2; simpl; [|intros [= _ <-]; reflexivity].
  destruct (xdr_setpos xdr2 0) as [b xdr3].
  destruct (xdr_u_int _ _) as [[[ok4 xdr4] v4]| |]; simpl; try discriminate.
  destruct ok4; simpl; [discriminate|intros [= _ <-]; reflexivity].
Qed.

Lemma virNetMessageEncodeNumFDs_failure msg e m :
  virNetMessageEncodeNumFDs msg = Val (Failure e, m) ->
  cursors m = cursors msg.
Proof.
  unfold virNetMessageEncodeNumFDs.
  case_bool_decide; [intros [= _ <-]; reflexivity|].
  destruct (xdr_u_int _ _) as [[[ok xdr] v]| |]; simpl; try discriminate.
  destruct ok; simpl; [discriminate|intros [= _ <-]; reflexivity].
Qed.

(** The stores of the header encoder: the capacity, the cursor at 0, and,
    when it returns 0, the cursor after the header. *)
Lemma virNetMessageEncodeHeader_stores_ok msg0 r m log :
  virNetMessageEncodeHeader_stores fresh_mem xdr_virNetMessageHeader msg0
  = Val (r, m, log) ->
  encode_inv m /\
  last_cursors (cursors msg0) log = cursors m /\
  exists rest,
    log = (StoreLength, (VIR_NET_MESSAGE_INITIAL + VIR_NET_MESSAGE_LEN_MAX,
                         bufferOffset msg0))
          :: (StoreOffset,
              (VIR_NET_MESSAGE_INITIAL + VIR_NET_MESSAGE_LEN_MAX, 0))
          :: rest /\
    stores_ok (VIR_NET_MESSAGE_INITIAL + VIR_NET_MESSAGE_LEN_MAX, 0) rest.
Proof.
  rewrite virNetMessageEncodeHeader_stores_eq.
  destruct (virNetMessageEncodeHeader_inv fresh_mem xdr_virNetMessageHeader
              Hconst Hheader msg0)
    as (r0 & m0 & Hrun & Hinv & Hbl & _).
  rewrite Hrun. simpl. intros [= <- <- <-].
  destruct Hconst as [Hinit Hmax]. pose proof Hinv as (Ho & Hb & Hm).
  unfold VIR_NET_MESSAGE_LEN_MAX in *.
  rewrite (usize_small (VIR_NET_MESSAGE_INITIAL + 4)) by lia.
  split; [exact Hinv|].
  destruct r0 as [|e].
  - split; [reflexivity|].
    eexists. split; [reflexivity|]. unfold cursors. simpl.
    repeat split; lia.
  - pose proof (virNetMessageEncodeHeader_failure _ _ _ Hrun) as Hof.
    split.
    + unfold last_cursors, cursors. simpl. now rewrite Hbl, Hof.
    + exists []. split; [reflexivity|exact I].
Qed.

Lemma encode_payload_loop_stream filter :
  xdr_proc_ok filter ->
  forall fuel msg m x,
    encode_inv msg ->
    encode_payload_loop fresh_mem fuel filter msg (payload_stream msg)
    = Val (inr (m, x)) ->
    exists m0,
      m0 = set_bufferLength (bufferLength m0) (set_buffer (buffer m0) msg) /\
      bufferLength msg <= bufferLength m0 /\
      filter (payload_stream m0) = Val (true, x).
Proof.
  intros Hok. induction fuel as [|fuel IH]; intros msg m x Hinv Hrun;
    [discriminate|].
  simpl in Hrun.
  destruct (Hok (payload_stream msg) (payload_stream_valid Hconst msg Hinv))
    as (ok & xdr' & Hf & _).
  rewrite Hf in Hrun. cbn [exec_bind] in Hrun.
  destruct ok.
  - injection Hrun as <- <-. exists msg.
    split; [destruct msg; reflexivity|]. split; [lia|exact Hf].
  - destruct (encode_payload_grow fresh_mem (sync_buffer xdr' msg))
      as [msg2|] eqn:Hg; [|discriminate].
    destruct (encode_payload_grow_inv fresh_mem Hconst msg (x_mem xdr')
                msg2 Hinv Hg) as (Hinv2 & _ & Hlo & Hbl2 & _).
    destruct (IH msg2 m x Hinv2 Hrun) as (m0 & Heq & Hle & Hf0).
    exists m0. split; [|split; [lia|exact Hf0]].
    etransitivity; [exact Heq|].
    unfold encode_payload_grow in Hg.
    destruct (bool_decide _) in Hg; [discriminate|].
    injection Hg as <-. destruct msg; reflexivity.
Qed.

Lemma encode_payload_loop_stores_ok filter :
  xdr_proc_ok filter ->
  forall fuel msg res log,
    encode_inv msg ->
    encode_payload_loop_stores fresh_mem fuel filter msg (payload_stream msg)
    = Val (res, log) ->
    encode_payload_loop fresh_mem fuel filter msg (payload_stream msg)
    = Val res /\
    stores_ok (cursors msg) log /\
    last_cursors (cursors msg) log
    = cursors (match res with inl m => m | inr (m, _) => m end).
Proof.
  intros Hok. induction fuel as [|fuel IH]; intros msg res log Hinv Hrun;
    [discriminate|].
  simpl in Hrun |- *.
  destruct (Hok (payload_stream msg) (payload_stream_valid Hconst msg Hinv))
    as (ok & xdr' & Hfx & _).
  rewrite Hfx in Hrun |- *. simpl in Hrun |- *.
  destruct ok.
  - injection Hrun as <- <-. repeat split.
  - destruct (encode_payload_grow fresh_mem (sync_buffer xdr' msg))
      as [msg2|] eqn:Hgrow.
    + destruct (encode_payload_loop_stores fresh_mem fuel filter msg2
                  (payload_stream msg2)) as [[r2 log2]| |] eqn:Hrun2;
        simpl in Hrun; try discriminate.
      injection Hrun as <- <-.
      destruct (encode_payload_grow_inv fresh_mem Hconst msg (x_mem xdr')
                  msg2 Hinv Hgrow)
        as (Hinv2 & Hoff2 & Hlo & Hbl2 & _).
      destruct (IH msg2 r2 log2 Hinv2 Hrun2) as (Hloop & Hst & Hlast).
      split; [exact Hloop|].
      pose proof Hinv2 as (Ho2 & _).
      unfold VIR_NET_MESSAGE_LEN_MAX in *.
      split.
      * simpl. repeat split; try lia; exact Hst.
      * rewrite last_cursors_cons. exact Hlast.
    + injection Hrun as <- <-. repeat split.
Qed.

(** What each encoder called after the header encoder stores, and what it
    leaves of the cursors. *)
Lemma encode_step_stores_ok fuel op msg r m log :
  op_filter_ok op ->
  encode_inv msg ->
  encode_step_stores fresh_mem fuel op msg = Val (r, m, log) ->
  encode_inv m /\
  stores_ok (cursors msg) log /\
  last_cursors (cursors msg) log = cursors m /\
  if finalised op r
  then exists n,
         payload_bytes op msg n /\ 0 <= n /\
         bufferLength m = bufferOffset msg + n /\ bufferOffset m = 0
  else bufferLength msg <= bufferLength m.
Proof.
  intros Hop Hinv Hstep.
  pose proof Hconst as [Hinit Hmax].
  pose proof Hinv as (Ho & Hb & Hm).
  unfold VIR_NET_MESSAGE_LEN_MAX in *.
  destruct op as [|filter|data len]; simpl in Hstep, Hop.
  - (* the descriptor count *)
    rewrite virNetMessageEncodeNumFDs_stores_eq in Hstep.
    destruct (virNetMessageEncodeNumFDs_inv Hconst msg Hinv)
      as (r0 & m0 & Hrun & Hinv' & Hbl & _).
    rewrite Hrun in Hstep. simpl in Hstep. injection Hstep as <- <- <-.
    pose proof Hinv' as (Ho' & _).
    split; [exact Hinv'|].
    destruct r0 as [|e].
    + unfold cursors. simpl. repeat split; try lia.
    + pose proof (virNetMessageEncodeNumFDs_failure _ _ _ Hrun) as Hc.
      simpl. repeat split; try lia. unfold last_cursors. simpl. now rewrite Hc.
  - (* the typed payload *)
    unfold virNetMessageEncodePayload_stores in Hstep.
    destruct (encode_payload_loop_stores fresh_mem fuel filter msg
                (payload_stream msg)) as [[res log1]| |] eqn:Hrun1;
      simpl in Hstep; try discriminate.
    destruct (encode_payload_loop_stores_ok filter Hop _ _ _ _ Hinv Hrun1)
      as (Hloop & Hst1 & Hlast1).
    pose proof (encode_payload_loop_inv fresh_mem Hconst filter Hop _ _ _
                  Hinv Hloop) as Hres.
    destruct res as [m1|[m1 x1]].
    + injection Hstep as <- <- <-. destruct Hres as (Hi & Hbl & Hof).
      simpl. repeat split; auto; apply Hi.
    + destruct Hres as (Hi & Hbl1 & Hof1 & Hpos).
      pose proof Hi as (Ho1 & Hb1 & Hm1).
      unfold VIR_NET_MESSAGE_LEN_MAX, xdr_getpos in *.
      rewrite (usize_small (bufferOffset m1 + x_pos x1)) in Hstep by lia.
      set (m2 := set_bufferOffset (bufferOffset m1 + x_pos x1) m1) in *.
      destruct (reencode_length_stores m2) as [[[r2 m3] log3]| |] eqn:Hre;
        simpl in Hstep; try discriminate.
      injection Hstep as <- <- <-.
      destruct (reencode_length_stores_ok m2 r2 m3 log3) as (Hre' & Hst3
                                                             & Hlast3);
        [simpl; lia|exact Hre|].
      assert (Hinv2 : encode_inv m2).
      { unfold encode_inv, VIR_NET_MESSAGE_LEN_MAX. simpl. lia. }
      pose proof (reencode_length_cursors Hconst m2 m2 r2 m3 Hinv2
                    ltac:(lia) ltac:(lia) Hre') as (Hinv3 & Hr3).
      destruct (reencode_length_cases m2 r2 m3 ltac:(simpl; lia) Hre')
        as (_ & Hcs).
      split; [exact Hinv3|].
      assert (Hmid : last_cursors (cursors msg)
                       (log1 ++ [(StoreOffset, cursors m2)]) = cursors m2).
      { rewrite last_cursors_app. reflexivity. }
      split; [|split].
      * apply stores_ok_app.
        -- apply stores_ok_app; [exact Hst1|].
           rewrite Hlast1. unfold cursors. simpl. repeat split; lia.
        -- rewrite Hmid. exact Hst3.
      * rewrite last_cursors_app, Hmid. exact Hlast3.
      * destruct r2 as [|e]; simpl.
        -- destruct Hcs as (Hbl3 & Hof3 & _).
           destruct (encode_payload_loop_stream filter Hop
                       _ _ _ _ Hinv Hloop)
             as (m0 & Heq0 & Hle0 & Hf0).
           exists (x_pos x1). split; [|split; [lia|split; [|exact Hof3]]].
           ++ exists m0, x1. auto.
           ++ rewrite Hbl3. simpl. lia.
        -- destruct Hcs as (Hbl3 & _). rewrite Hbl3. simpl. lia.
  - (* the raw payload *)
    assert (Hplain : forall r m log,
               reencode_length_stores msg = Val (r, m, log) ->
               encode_inv m /\
               stores_ok (cursors msg) log /\
               last_cursors (cursors msg) log = cursors m /\
               match r with
               | Success =>
                   exists n, n = 0 /\ 0 <= n /\
                     bufferLength m = bufferOffset msg + n /\
                     bufferOffset m = 0
               | Failure _ => bufferLength msg <= bufferLength m
               end).
    { intros r0 m0 log0 Hre.
      destruct (reencode_length_stores_ok msg r0 m0 log0) as (Hre' & Hst
                                                              & Hlast);
        [lia|exact Hre|].
      pose proof (reencode_length_cursors Hconst msg msg r0 m0 Hinv
                    ltac:(lia) ltac:(lia) Hre') as (Hinv3 & Hr3).
      destruct (reencode_length_cases msg r0 m0 ltac:(lia) Hre')
        as (_ & Hcs).
      split; [exact Hinv3|split; [exact Hst|split; [exact Hlast|]]].
      destruct r0.
      - destruct Hcs as (Hbl3 & Hof3 & _). exists 0. repeat split; lia.
      - destruct Hcs as (Hbl3 & _). lia. }
    unfold virNetMessageEncodePayloadRaw_stores in Hstep.
    destruct data as [bytes|];
      [|destruct (Hplain _ _ _ Hstep) as (H1 & H2 & H3 & H4);
        split; [exact H1|split; [exact H2|split; [exact H3|]]];
        destruct r; exact H4].
    simpl finalised. simpl payload_bytes.
    case_bool_decide as Hpos.
    2: { destruct (Hplain _ _ _ Hstep) as (H1 & H2 & H3 & H4).
         split; [exact H1|split; [exact H2|split; [exact H3|]]].
         destruct r; exact H4. }
    rewrite (usize_small (bufferLength msg - bufferOffset msg)) in Hstep
      by lia.
    assert (Hfin : forall m1 log1 r m log,
               (let* (r, msg, log') := reencode_length_stores m1 in
                Val (r, msg, log1 ++ log')) = Val (r, m, log) ->
               encode_inv m1 ->
               bufferOffset m1 = bufferOffset msg + len ->
               stores_ok (cursors msg) log1 ->
               last_cursors (cursors msg) log1 = cursors m1 ->
               bufferLength msg <= bufferLength m1 ->
               encode_inv m /\
               stores_ok (cursors msg) log /\
               last_cursors (cursors msg) log = cursors m /\
               (if match r with Success => true | Failure _ => false end
                then exists n, n = len /\ 0 <= n /\
                       bufferLength m = bufferOffset msg + n /\
                       bufferOffset m = 0
                else bufferLength msg <= bufferLength m)).
    { intros m1 log1 r0 m0 log0 Hrun Hinv1 Hof1 Hst1 Hlast1 Hbl1.
      pose proof Hinv1 as (Ho1 & Hb1 & Hm1).
      unfold VIR_NET_MESSAGE_LEN_MAX in *.
      destruct (reencode_length_stores m1) as [[[r2 m3] log3]| |] eqn:Hre;
        simpl in Hrun; try discriminate.
      injection Hrun as <- <- <-.
      destruct (reencode_length_stores_ok m1 r2 m3 log3) as (Hre' & Hst3
                                                             & Hlast3);
        [lia|exact Hre|].
      pose proof (reencode_length_cursors Hconst m1 m1 r2 m3 Hinv1
                    ltac:(lia) ltac:(lia) Hre') as (Hinv3 & Hr3).
      destruct (reencode_length_cases m1 r2 m3 ltac:(lia) Hre')
        as (_ & Hcs).
      split; [exact Hinv3|]. split; [|split].
      - apply stores_ok_app; [exact Hst1|]. rewrite Hlast1. exact Hst3.
      - rewrite last_cursors_app, Hlast1. exact Hlast3.
      - destruct r2.
        + destruct Hcs as (Hbl3 & Hof3 & _). exists len.
          repeat split; lia.
        + destruct Hcs as (Hbl3 & _). lia. }
    case_bool_decide as Hsmall.
    + case_bool_decide as Hbig.
      * injection Hstep as <- <- <-. simpl. repeat split; auto; lia.
      * simpl in Hstep.
        destruct (mem_load bytes 0 len) as [src| |] eqn:Hld;
          simpl in Hstep; try discriminate.
        apply mem_load_length in Hld.
        destruct (mem_store _ (bufferOffset msg) src) as [mem| |] eqn:Hst;
          simpl in Hstep; try discriminate.
        pose proof (mem_store_length _ _ _ _ Hst) as Hmem.
        apply mem_store_bounds in Hst as [_ Hend].
        rewrite VIR_REALLOC_N_length in Hend, Hmem.
        pose proof (usize_range (bufferOffset msg + len)) as Hrange.
        pose proof (usize_le (bufferOffset msg + len) ltac:(lia)) as Hle.
        rewrite Z2Nat.id in Hend by lia.
        assert (Hus : usize (bufferOffset msg + len)
                      = bufferOffset msg + len) by lia.
        unfold cursors in Hstep. simpl in Hstep. rewrite !Hus in Hstep.
        rewrite Hus in Hmem, Hbig.
        unfold VIR_NET_MESSAGE_LEN_MAX in Hbig.
        eapply (Hfin _ [_; _]) in Hstep as (H1 & H2 & H3 & H4);
          [|unfold encode_inv, VIR_NET_MESSAGE_LEN_MAX; simpl;
            rewrite Hmem; lia
           |reflexivity
           |unfold cursors; simpl; repeat split; lia
           |reflexivity
           |simpl; lia].
        split; [exact H1|split; [exact H2|split; [exact H3|]]].
        destruct r; exact H4.
    + simpl in Hstep.
      destruct (mem_load bytes 0 len) as [src| |] eqn:Hld;
        simpl in Hstep; try discriminate.
      apply mem_load_length in Hld.
      destruct (mem_store _ (bufferOffset msg) src) as [mem| |] eqn:Hst;
        simpl in Hstep; try discriminate.
      pose proof (mem_store_length _ _ _ _ Hst) as Hmem.
      assert (Hus : usize (bufferOffset msg + len)
                    = bufferOffset msg + len)
        by (apply usize_small; lia).
      unfold cursors in Hstep. simpl in Hstep. rewrite !Hus in Hstep.
      eapply (Hfin _ [_]) in Hstep as (H1 & H2 & H3 & H4);
        [|unfold encode_inv, VIR_NET_MESSAGE_LEN_MAX; simpl;
          rewrite Hmem; lia
         |reflexivity
         |unfold cursors; simpl; repeat split; lia
         |reflexivity
         |simpl; lia].
      split; [exact H1|split; [exact H2|split; [exact H3|]]].
      destruct r; exact H4.
Qed.


Lemma encode_run_stores_ok fuel ops :
  Forall op_filter_ok ops ->
  forall msg trace,
    encode_inv msg ->
    encode_run fresh_mem fuel ops msg = Val trace ->
    exists log,
      encode_run_stores fresh_mem fuel ops msg = Val (trace, log) /\
      stores_ok (cursors msg) log /\
      cursors_ok msg ops trace.
Proof.
  induction 1 as [|op ops Hop Hops IH]; intros msg trace Hinv Hrun.
  - injection Hrun as <-. exists []. simpl. auto.
  - simpl in Hrun.
    rewrite <- encode_step_stores_eq in Hrun.
    change (encode_run_stores fresh_mem fuel (op :: ops) msg)
      with (let* (r, msg, log) := encode_step_stores fresh_mem fuel op msg in
            let* (rest, log') := encode_run_stores fresh_mem fuel ops msg in
            Val ((r, msg) :: rest, log ++ log')).
    destruct (encode_step_stores fresh_mem fuel op msg)
      as [[[r m] log]| |] eqn:Hstep; simpl in Hrun; try discriminate.
    destruct (encode_run fresh_mem fuel ops m) as [rest| |] eqn:Hrest;
      simpl in Hrun; try discriminate.
    injection Hrun as <-.
    destruct (encode_step_stores_ok _ _ _ _ _ _ Hop Hinv Hstep)
      as (Hinv' & Hst & Hlast & Hfin).
    destruct (IH m rest Hinv' Hrest) as (log' & Hrun' & Hst' & Hcs).
    exists (log ++ log'). simpl. rewrite Hrun'. simpl.
    split; [reflexivity|]. split.
    + apply stores_ok_app; [exact Hst|]. rewrite Hlast. exact Hst'.
    + split; [apply Hinv'|]. split; [exact Hfin|exact Hcs].
Qed.

(** C4, corrected.  In a sequence of encode operations that starts with the
    header encoder, taken store by store: every assignment to
    [bufferLength] or [bufferOffset] leaves [bufferOffset] within
    [bufferLength], changes the one cursor it assigns to and not the other,
    and does not decrease [bufferLength], with one exception, the
    finalisation of a payload encoder that returns 0, which sets
    [bufferLength] to the value [bufferOffset] has reached.  The record
    [log] of the stores is the one of the encoders of the session, which
    return and leave what [encode_session] does.  The first two stores are
    those of the header encoder, [bufferLength] to the initial capacity and
    [bufferOffset] to 0; the property holds from there on whatever the
    message was before, and from the first store on for a message whose
    cursors lie within the initial capacity, as a new or a cleared message
    has them.  Call by call: [bufferOffset] is within [bufferLength] after
    every call, [bufferLength] is not less than before a call that does not
    finalise, and after a payload encoder that returns 0 [bufferLength] is
    the [bufferOffset] the call started from plus the number of payload
    bytes, and [bufferOffset] is 0. *)
Theorem encode_session_cursors fuel msg0 ops trace :
  Forall op_filter_ok ops ->
  encode_session fresh_mem xdr_virNetMessageHeader fuel msg0 ops
  = Val trace ->
  exists log,
    encode_session_stores fresh_mem xdr_virNetMessageHeader fuel msg0 ops
    = Val (trace, log) /\
    (exists rest,
        log = (StoreLength,
               (VIR_NET_MESSAGE_INITIAL + VIR_NET_MESSAGE_LEN_MAX,
                bufferOffset msg0))
              :: (StoreOffset,
                  (VIR_NET_MESSAGE_INITIAL + VIR_NET_MESSAGE_LEN_MAX, 0))
              :: rest /\
        stores_ok (VIR_NET_MESSAGE_INITIAL + VIR_NET_MESSAGE_LEN_MAX, 0)
          rest) /\
    (0 <= bufferOffset msg0 <= bufferLength msg0 ->
     bufferLength msg0
     <= VIR_NET_MESSAGE_INITIAL + VIR_NET_MESSAGE_LEN_MAX ->
     stores_ok (cursors msg0) log) /\
    exists r msg rest,
      trace = (r, msg) :: rest /\
      0 <= bufferOffset msg <= bufferLength msg /\
      cursors_ok msg ops rest.
Proof.
  intros Hops Hrun. unfold encode_session in Hrun.
  unfold encode_session_stores.
  destruct (virNetMessageEncodeHeader fresh_mem xdr_virNetMessageHeader
              msg0) as [[r m]| |] eqn:Hh; simpl in Hrun; try discriminate.
  pose proof (virNetMessageEncodeHeader_stores_eq msg0) as Hhdr.
  rewrite Hh in Hhdr. simpl in Hhdr.
  match type of Hhdr with
  | _ = Val (_, _, ?l) => remember l as hlog eqn:Hl
  end.
  clear Hl. rewrite Hhdr. simpl.
  destruct (encode_run fresh_mem fuel ops m) as [rest| |] eqn:Hrest;
    simpl in Hrun; try discriminate.
  injection Hrun as <-.
  destruct (virNetMessageEncodeHeader_stores_ok _ _ _ _ Hhdr)
    as (Hinv & Hlast & hrest & -> & Hst).
  destruct (encode_run_stores_ok fuel ops Hops m rest Hinv Hrest)
    as (log' & Hrun' & Hst' & Hcs).
  rewrite Hrun'. simpl.
  rewrite !last_cursors_cons in Hlast. simpl in Hlast.
  assert (Hall : stores_ok
                   (VIR_NET_MESSAGE_INITIAL + VIR_NET_MESSAGE_LEN_MAX, 0)
                   (hrest ++ log')).
  { apply stores_ok_app; [exact Hst|]. rewrite Hlast. exact Hst'. }
  eexists. split; [reflexivity|].
  pose proof Hconst as [Hinit Hmax].
  split; [|split].
  - exists (hrest ++ log'). split; [reflexivity|exact Hall].
  - intros Hoff Hlen. unfold VIR_NET_MESSAGE_LEN_MAX in *.
    simpl. repeat split; try lia. exact Hall.
  - exists r, m, rest. split; [reflexivity|]. split; [apply Hinv|exact Hcs].
Qed.

End CursorHistory.

(** * The descriptor count on the wire *)

Section DescriptorCountWritten.
Context `{Constants}.

(** C9.  [virNetMessageEncodeNumFDs] compares the count as the
    [unsigned int] it copies [msg->nfds] into, so the statement is about the
    counts that fit 32 bits, which the number of descriptors held in
    [msg->fds] does.  When [nfds] is above 32 the call fails with the error
    Too many FDs to send and the message is returned as it was, the buffer
    and [bufferOffset] included.  When [nfds] is at most 32 and four bytes
    are left after [bufferOffset], the call returns 0; the four bytes at the
    [bufferOffset] it started from are the big-endian 32-bit word of
    [nfds]; [bufferOffset] has advanced by 4; [bufferLength], the bytes
    before the word, the bytes after it and every other field of the
    message are as before. *)
Theorem virNetMessageEncodeNumFDs_spec (msg : virNetMessage) :
  0 <= nfds msg < 2 ^ 32 ->
  (nfds msg > 32 ->
     virNetMessageEncodeNumFDs msg =
     Val (Failure (mkReport VIR_ERR_RPC
                     "Too many FDs to send %d, expected %d maximum"
                     [nfds msg; 32]), msg)) /\
  (nfds msg <= 32 -> buffer_ok msg -> 4 <= buffer_space msg ->
     exists mem,
       virNetMessageEncodeNumFDs msg =
       Val (Success,
            set_bufferOffset (bufferOffset msg + 4) (set_buffer mem msg)) /\
       length mem = length (buffer msg) /\
       mem_load mem (bufferOffset msg) 4 = Val (be32_bytes (nfds msg)) /\
       be32_value (be32_bytes (nfds msg)) = Some (nfds msg) /\
       take (Z.to_nat (bufferOffset msg)) mem
       = take (Z.to_nat (bufferOffset msg)) (buffer msg) /\
       drop (Z.to_nat (bufferOffset msg + 4)) mem
       = drop (Z.to_nat (bufferOffset msg + 4)) (buffer msg)).
Proof.
  intros Hn.
  destruct (virNetMessageEncodeNumFDs_in_range msg Hn) as [Hbig Hsmall].
  split; [exact Hbig|].
  intros Hle Hok Hroom.
  destruct (Hsmall Hle Hok Hroom) as (mem & Hst & Hrun).
  exists mem. split; [exact Hrun|].
  destruct Hok as (Hoff & _).
  split; [eapply mem_store_length; exact Hst|].
  split; [exact (mem_load_store _ _ _ _ Hst)|].
  split; [apply be32_value_bytes; exact Hn|].
  split.
  - eapply mem_store_take; [exact Hst|lia].
  - eapply mem_store_drop; [exact Hst|].
    rewrite be32_bytes_length. lia.
Qed.

End DescriptorCountWritten.

(** * More of the model at work *)

Section MoreInstances.

Lemma xdr_same_frame_trans x y z :
  xdr_same_frame x y -> xdr_same_frame y z -> xdr_same_frame x z.
Proof.
  intros (A1 & A2 & A3 & A4 & A5) (B1 & B2 & B3 & B4 & B5).
  unfold xdr_same_frame. rewrite B1, B2, B3, B4, A1, A2, A3, A4.
  repeat split; auto; lia.
Qed.

Lemma xdr_same_frame_refl x : xdr_valid x -> xdr_same_frame x x.
Proof.
  intros (Hb & Hp & Hm). unfold xdr_same_frame. repeat split; auto; lia.
Qed.

Lemma xdr_u_int_codec_ok : xdr_codec_ok xdr_u_int.
Proof.
  intros xdr v Hv.
  destruct (xdr_u_int_ok v xdr Hv) as (ok & xdr' & v' & Hu & Hf & _).
  eauto.
Qed.

Lemma xdr_header_fields_ok : xdr_codec_ok xdr_header_fields.
Proof.
  intros xdr h Hv. unfold xdr_header_fields.
  destruct (xdr_u_int_ok (prog h) xdr Hv)
    as (ok1 & x1 & v1 & Hu1 & Hf1 & Hv1).
  rewrite Hu1. cbn [exec_bind]. destruct ok1; cbn [negb]; [|eauto 6].
  cbn [prog vers proc type serial status].
  destruct (xdr_u_int_ok (vers h) x1 Hv1)
    as (ok2 & x2 & v2 & Hu2 & Hf2 & Hv2).
  rewrite Hu2. cbn [exec_bind].
  pose proof (xdr_same_frame_trans _ _ _ Hf1 Hf2) as Hf12.
  destruct ok2; cbn [negb]; [|eauto 6].
  cbn [prog vers proc type serial status].
  destruct (xdr_u_int_ok (proc h) x2 Hv2)
    as (ok3 & x3 & v3 & Hu3 & Hf3 & Hv3).
  rewrite Hu3. cbn [exec_bind].
  pose proof (xdr_same_frame_trans _ _ _ Hf12 Hf3) as Hf13.
  destruct ok3; cbn [negb]; [|eauto 6].
  cbn [prog vers proc type serial status].
  destruct (xdr_u_int_ok (type h) x3 Hv3)
    as (ok4 & x4 & v4 & Hu4 & Hf4 & Hv4).
  rewrite Hu4. cbn [exec_bind].
  pose proof (xdr_same_frame_trans _ _ _ Hf13 Hf4) as Hf14.
  destruct ok4; cbn [negb]; [|eauto 6].
  cbn [prog vers proc type serial status].
  destruct (xdr_u_int_ok (serial h) x4 Hv4)
    as (ok5 & x5 & v5 & Hu5 & Hf5 & Hv5).
  rewrite Hu5. cbn [exec_bind].
  pose proof (xdr_same_frame_trans _ _ _ Hf14 Hf5) as Hf15.
  destruct ok5; cbn [negb]; [|eauto 6].
  cbn [prog vers proc type serial status].
  destruct (xdr_u_int_ok (status h) x5 Hv5)
    as (ok6 & x6 & v6 & Hu6 & Hf6 & Hv6).
  rewrite Hu6. cbn [exec_bind].
  pose proof (xdr_same_frame_trans _ _ _ Hf15 Hf6) as Hf16.
  eauto 6.
Qed.

Lemma xdr_header_words_needs h : xdr_proc_needs (xdr_header_words h) 24.
Proof. exact (xdr_words_needs (header_words h)). Qed.

Lemma header_msg_inv : encode_inv (H := small_constants) header_msg.
Proof. vm_compute. repeat split; intros; discriminate. Qed.

Lemma request_header_msg_inv :
  encode_inv (H := small_constants) request_header_msg.
Proof. vm_compute. repeat split; intros; discriminate. Qed.

End MoreInstances.

Lemma virNetMessageEncodePayloadRaw_limit_witness :
  virNetMessageEncodePayloadRaw (H := small_constants) zero_mem header_msg
    (Some (replicate 200 xab)) 200
  = Val (Failure (mkReport 39
           ("Stream data too long to send "
            ++ "(%zu bytes needed, %zu bytes available)")
           [200; 128 + 4 - bufferOffset header_msg]), header_msg) /\
  exists msg',
    virNetMessageEncodePayloadRaw (H := small_constants) zero_mem header_msg
      (Some (replicate 200 xab)) 100
    = Val (Success, msg').
Proof.
  split.
  - apply (proj1 (virNetMessageEncodePayloadRaw_limit
                    (H := small_constants) zero_mem small_constants_ok
                    header_msg (replicate 200 xab) 200 header_msg_inv
                    ltac:(vm_compute; discriminate)
                    ltac:(vm_compute; split; [discriminate|reflexivity])
                    ltac:(vm_compute; split; [reflexivity|discriminate])
                    ltac:(vm_compute; reflexivity))).
    vm_compute. reflexivity.
  - apply (proj2 (virNetMessageEncodePayloadRaw_limit
                    (H := small_constants) zero_mem small_constants_ok
                    header_msg (replicate 200 xab) 100 header_msg_inv
                    ltac:(vm_compute; discriminate)
                    ltac:(vm_compute; split; [discriminate|reflexivity])
                    ltac:(vm_compute; split; [reflexivity|discriminate])
                    ltac:(vm_compute; reflexivity))).
    vm_compute. discriminate.
Defined.

Lemma virNetMessageEncodePayload_fits_witness :
  exists msg',
    virNetMessageEncodePayload (H := small_constants) zero_mem 2 header_msg
      (xdr_words [7; 8; 9])
    = Val (Success, msg') /\
    bufferLength msg' = bufferOffset header_msg + 12 /\
    bufferOffset msg' = 0 /\
    length_word msg' = Some (bufferOffset header_msg + 12).
Proof.
  apply (virNetMessageEncodePayload_fits (H := small_constants) zero_mem
           small_constants_ok (xdr_words [7; 8; 9]) 12 1 header_msg
           (xdr_words_needs [7; 8; 9])).
  - lia.
  - vm_compute. split; [discriminate|reflexivity].
  - exact header_msg_inv.
  - vm_compute. discriminate.
  - vm_compute. discriminate.
  - vm_compute. discriminate.
Defined.

Lemma virNetMessageEncodeHeader_total_witness :
  exists msg,
    virNetMessageEncodeHeader (H := small_constants) zero_mem
      xdr_header_words message_zero = Val (Success, msg) /\
    bufferOffset msg = 4 + 24 /\
    bufferLength msg = 32 + 4 /\
    length_word msg = Some (bufferOffset msg).
Proof.
  apply (proj1 (virNetMessageEncodeHeader_total (H := small_constants)
                  zero_mem small_constants_ok xdr_header_words 24
                  message_zero xdr_header_words_needs ltac:(lia))).
  vm_compute. discriminate.
Defined.

Lemma encoded_frame_length_accepted_witness :
  exists rx',
    virNetMessageDecodeLength (H := small_constants) zero_mem
      (length_msg x00 x00 x00 x20) = Val (Success, rx') /\
    bufferLength rx' = bufferLength typed_msg /\
    bufferOffset rx' = 4 /\
    Z.of_nat (length (buffer rx')) = bufferLength typed_msg /\
    take 4 (buffer rx') = take 4 (buffer typed_msg).
Proof.
  apply (encoded_frame_length_accepted (H := small_constants) zero_mem
           small_constants_ok header_msg header_msg_inv
           ltac:(vm_compute; discriminate) typed_msg
           (length_msg x00 x00 x00 x20)).
  - left. exists 1%nat, (xdr_words [7]). split; [apply xdr_words_ok|].
    vm_compute. reflexivity.
  - vm_compute. reflexivity.
  - reflexivity.
Defined.

Lemma virNetMessageEncodePayloadRaw_wire_witness :
  wire request_raw_msg =
  be32_bytes (bufferOffset request_header_msg + 3)
  ++ drop 4 (take (Z.to_nat (bufferOffset request_header_msg))
               (buffer request_header_msg))
  ++ take (Z.to_nat 3) [x01; x02; x03].
Proof.
  apply (virNetMessageEncodePayloadRaw_wire (H := small_constants) zero_mem
           small_constants_ok request_header_msg [x01; x02; x03] 3
           request_raw_msg request_header_msg_inv).
  - vm_compute. discriminate.
  - lia.
  - vm_compute. reflexivity.
Defined.

Lemma raw_frame_round_trip_witness :
  virNetMessageDecodeHeader (H := small_constants) xdr_header_fields
    (received request_raw_msg)
  = Val (Success,
         set_bufferOffset 28
           (set_header (header request_msg) (received request_raw_msg))) /\
  mem_load (buffer (received request_raw_msg)) 28
    (bufferLength (received request_raw_msg) - 28)
  = Val (take (Z.to_nat 3) [x01; x02; x03]) /\
  bufferLength (received request_raw_msg) - 28 = 3.
Proof.
  apply (raw_frame_round_trip (H := small_constants) zero_mem
           small_constants_ok request_msg request_header_msg
           request_raw_msg (received request_raw_msg) [x01; x02; x03] 3).
  - vm_compute. repeat split; intros; discriminate.
  - lia.
  - vm_compute. reflexivity.
  - vm_compute. reflexivity.
  - reflexivity.
  - reflexivity.
Defined.

Lemma virNetMessageEncodePayload_prefix_witness :
  take (Z.to_nat (bufferOffset request_header_msg))
    (buffer request_typed_msg)
  = be32_bytes (bufferLength request_typed_msg)
    ++ drop 4 (take (Z.to_nat (bufferOffset request_header_msg))
                 (buffer request_header_msg)).
Proof.
  apply (virNetMessageEncodePayload_prefix (H := small_constants) zero_mem
           small_constants_ok 2 request_header_msg (xdr_words [7; 8; 9])
           Success request_typed_msg (xdr_words_ok [7; 8; 9])
           (xdr_words_forward [7; 8; 9]) request_header_msg_inv).
  - vm_compute. discriminate.
  - vm_compute. reflexivity.
Defined.

Lemma typed_frame_round_trip_witness :
  virNetMessageDecodeHeader (H := small_constants) xdr_header_fields
    (received request_typed_msg)
  = Val (Success,
         set_bufferOffset 28
           (set_header (header request_msg) (received request_typed_msg)))
  /\
  virNetMessageDecodePayload (H := small_constants)
    (set_bufferOffset 28
       (set_header (header request_msg) (received request_typed_msg)))
    xdr_word_array (replicate (length [7; 8; 9]) 0)
  = Val (Success,
         set_bufferLength
           (bufferLength (received request_typed_msg)
            + 4 * Z.of_nat (length [7; 8; 9]))
           (set_bufferOffset 28
              (set_header (header request_msg)
                 (received request_typed_msg))),
         [7; 8; 9]).
Proof.
  apply (typed_frame_round_trip (H := small_constants) zero_mem
           small_constants_ok request_msg request_header_msg
           request_typed_msg (received request_typed_msg) [7; 8; 9] 2).
  - vm_compute. repeat split; intros; discriminate.
  - repeat constructor; lia.
  - vm_compute. reflexivity.
  - vm_compute. reflexivity.
  - reflexivity.
  - reflexivity.
Defined.

Lemma virNetMessageDecodeLength_rejects_witness :
  virNetMessageDecodeLength (H := small_constants) zero_mem
    (set_bufferLength 2 (set_buffer [x00; x00] message_zero))
  = Val (Failure (mkReport 39 "Unable to decode message length" []),
         set_bufferLength 2 (set_buffer [x00; x00] message_zero)) /\
  (buffer (set_bufferOffset 4 (length_msg x00 x00 x00 x03))
   = buffer (length_msg x00 x00 x00 x03) /\
   bufferLength (set_bufferOffset 4 (length_msg x00 x00 x00 x03))
   = bufferLength (length_msg x00 x00 x00 x03) /\
   report_code
     (mkReport 39 "packet %d bytes received from server too small, want %d"
        [3; 4]) = 39).
Proof.
  split.
  - apply (proj1 (virNetMessageDecodeLength_rejects (H := small_constants)
                    zero_mem
                    (set_bufferLength 2
                       (set_buffer [x00; x00] message_zero)))).
    simpl. lia.
  - apply (proj2 (virNetMessageDecodeLength_rejects (H := small_constants)
                    zero_mem (length_msg x00 x00 x00 x03))).
    vm_compute. reflexivity.
Defined.

Lemma virNetMessageDecodeHeader_cursor_witness :
  virNetMessageDecodeHeader (H := small_constants) xdr_header_fields
    (set_bufferLength 3 (length_msg x00 x00 x00 x03))
  = Val (Failure (mkReport 1
                    "Unable to decode header until len is received" []),
         set_bufferLength 3 (length_msg x00 x00 x00 x03)) /\
  exists r msg',
    virNetMessageDecodeHeader (H := small_constants) xdr_header_fields
      (received request_raw_msg) = Val (r, msg') /\
    bufferLength msg' = bufferLength (received request_raw_msg) /\
    match r with
    | Success =>
        4 <= bufferOffset msg' <= bufferLength (received request_raw_msg)
    | Failure e =>
        e = mkReport 39 "Unable to decode message header" [] /\
        bufferOffset msg' = 4
    end.
Proof.
  split.
  - apply (proj1 (virNetMessageDecodeHeader_cursor (H := small_constants)
                    xdr_header_fields
                    (set_bufferLength 3 (length_msg x00 x00 x00 x03))
                    xdr_header_fields_ok)).
    vm_compute. reflexivity.
  - apply (proj2 (virNetMessageDecodeHeader_cursor (H := small_constants)
                    xdr_header_fields (received request_raw_msg)
                    xdr_header_fields_ok)).
    + vm_compute. split; [discriminate|reflexivity].
    + vm_compute. discriminate.
Defined.

Lemma virNetMessageDecodePayload_cursors_witness :
  exists ok xdr' data' msg',
    xdr_u_int (xdrmem_create (buffer header_msg) (bufferOffset header_msg)
                 (bufferLength header_msg - bufferOffset header_msg)
                 XDR_DECODE) 0
    = Val (ok, xdr', data') /\
    0 <= x_pos xdr' <= bufferLength header_msg - bufferOffset header_msg /\
    virNetMessageDecodePayload (H := small_constants) header_msg xdr_u_int 0
    = Val (if ok then Success
           else Failure (mkReport 39 "Unable to decode message payload" []),
           msg', data') /\
    bufferOffset msg' = bufferOffset header_msg /\
    bufferLength msg'
    = (if ok then bufferLength header_msg + x_pos xdr'
       else bufferLength header_msg) /\
    msg' = set_bufferLength (bufferLength msg')
             (set_buffer (x_mem xdr') header_msg).
Proof.
  apply (virNetMessageDecodePayload_cursors (H := small_constants)
           xdr_u_int 0 header_msg xdr_u_int_codec_ok).
  vm_compute. repeat split; intros; discriminate.
Defined.

(** The word after the header of [header_msg] decoded as a payload: four
    bytes used, and [bufferLength] four more than the 36 it was. *)
Example decode_payload_word :
  virNetMessageDecodePayload (H := small_constants) header_msg xdr_u_int 7
  = Val (Success, set_bufferLength 40 header_msg, 0).
Proof. vm_compute. reflexivity. Qed.

Lemma numfds_round_trip_witness :
  exists msg',
    virNetMessageEncodeNumFDs (H := small_constants) (set_nfds 2 header_msg)
    = Val (Success, msg') /\
    bufferOffset msg' = bufferOffset (set_nfds 2 header_msg) + 4 /\
    forall rx,
      buffer rx = buffer msg' ->
      bufferOffset rx = bufferOffset (set_nfds 2 header_msg) ->
      bufferLength rx = bufferLength (set_nfds 2 header_msg) ->
      virNetMessageDecodeNumFDs (H := small_constants) rx
      = Val (Success,
             if bool_decide (nfds rx = 0)
             then set_fds
                    (replicate (Z.to_nat (nfds (set_nfds 2 header_msg)))
                       (-1))
                    (set_nfds (nfds (set_nfds 2 header_msg))
                       (set_bufferOffset
                          (bufferOffset (set_nfds 2 header_msg) + 4) rx))
             else set_bufferOffset
                    (bufferOffset (set_nfds 2 header_msg) + 4) rx).
Proof.
  apply (numfds_round_trip (H := small_constants) (set_nfds 2 header_msg)).
  - vm_compute. split; discriminate.
  - vm_compute. repeat split; intros; discriminate.
  - vm_compute. discriminate.
Defined.

Lemma virNetMessageClearPayload_once_witness :
  exists msg' evs,
    virNetMessageClearPayload fd_msg = Val (msg', evs) /\
    closed_fds evs
    = filter (fun fd => 0 <= fd)
        (take (Z.to_nat (nfds fd_msg)) (fds fd_msg)) /\
    nfds msg' = 0 /\ fds msg' = [] /\ buffer msg' = [] /\
    bufferLength msg' = 0 /\ bufferOffset msg' = 0 /\
    virNetMessageClearPayload msg'
    = Val (msg', [EvFree FreedFds; EvFree FreedBuffer]).
Proof.
  apply (virNetMessageClearPayload_once fd_msg).
  vm_compute. split; discriminate.
Defined.

Lemma virNetMessageSaveError_twice_witness :
  virNetMessageSaveError (H := small_constants)
    (virNetMessageSaveError (H := small_constants)
       virNetMessageError.zero None)
    (Some (virError.mk 39 7 (Some "second") 2 None None None 0 0))
  = virNetMessageSaveError (H := small_constants)
      virNetMessageError.zero None.
Proof.
  apply (virNetMessageSaveError_twice (H := small_constants)
           virNetMessageError.zero None
           (Some (virError.mk 39 7 (Some "second") 2 None None None 0 0))).
  - vm_compute. discriminate.
  - intros e He. discriminate.
Defined.

Lemma queue_push_serve_steps_witness :
  (exists h' queue',
     virNetMessageQueuePush 1 three_messages (Some 1%positive)
       (Some 2%positive) = Val (h', queue') /\
     is_queue h' queue' ([1%positive] ++ [2%positive]) /\
     ([1%positive] <> [] -> queue' = Some 1%positive) /\
     forall l', l' ∉ [1%positive] -> h' !! l' = three_messages !! l') /\
  (exists h' queue',
     virNetMessageQueueServe three_messages (Some 1%positive)
     = Val (h', queue', Some 1%positive) /\
     is_queue h' queue' [] /\
     link_of h' (Some 1%positive) = None /\
     forall l', l' <> 1%positive -> h' !! l' = three_messages !! l').
Proof.
  assert (Hq : is_queue three_messages (Some 1%positive) [1%positive]).
  { split; [reflexivity|].
    exists (virNetMessageNew true). split; reflexivity. }
  assert (Hnd : NoDup [1%positive]) by compute_done.
  split.
  - apply (proj1 (queue_push_serve_steps three_messages (Some 1%positive)
                    [1%positive] Hq Hnd)
             2%positive (virNetMessageNew false) 1%nat).
    + compute_done.
    + reflexivity.
    + reflexivity.
    + simpl. lia.
  - apply (proj2 (queue_push_serve_steps three_messages (Some 1%positive)
                    [1%positive] Hq Hnd)
             1%positive []).
    reflexivity.
Defined.

Lemma virNetMessageQueuePush_again_never_returns_witness :
  exists h2,
    virNetMessageQueuePush 1 three_messages None (Some 1%positive)
    = Val (three_messages, Some 1%positive) /\
    virNetMessageQueuePush 2 three_messages (Some 1%positive)
      (Some 1%positive)
    = Val (h2, Some 1%positive) /\
    link_of h2 (Some 1%positive) = Some 1%positive /\
    forall fuel' msg,
      virNetMessageQueuePush fuel' h2 (Some 1%positive) msg = OutOfFuel.
Proof.
  apply (virNetMessageQueuePush_again_never_returns three_messages
           1%positive (virNetMessageNew true) 1%nat); reflexivity.
Defined.

Lemma virNetMessageAddFD_owns_duplicate_witness :
  (0 <= snd (dup_counter 10 5) /\ @nil event = [] /\
   nfds (set_nfds 3 (set_fds [5; 6; 10] two_fds_msg))
   = usize (nfds two_fds_msg + 1) /\
   (Z.of_nat (length (fds two_fds_msg)) = nfds two_fds_msg ->
    fds (set_nfds 3 (set_fds [5; 6; 10] two_fds_msg))
    = fds two_fds_msg ++ [snd (dup_counter 10 5)]) /\
   buffer (set_nfds 3 (set_fds [5; 6; 10] two_fds_msg))
   = buffer two_fds_msg /\
   bufferLength (set_nfds 3 (set_fds [5; 6; 10] two_fds_msg))
   = bufferLength two_fds_msg /\
   bufferOffset (set_nfds 3 (set_fds [5; 6; 10] two_fds_msg))
   = bufferOffset two_fds_msg) /\
  (two_fds_msg = two_fds_msg /\
   report_code (mkReport 38 "Cannot set close-on-exec %d" [10]) = 38 /\
   closed_fds [EvClose 10]
   = (if bool_decide (snd (dup_counter 10 5) < 0) then []
      else [snd (dup_counter 10 5)])).
Proof.
  split.
  - apply (virNetMessageAddFD_owns_duplicate Z
             dup_counter inherit_ok 38 10 two_fds_msg 5 Success
             (set_nfds 3 (set_fds [5; 6; 10] two_fds_msg)) 11 []).
    vm_compute. reflexivity.
  - apply (virNetMessageAddFD_owns_duplicate Z
             dup_counter inherit_fails 38 10 two_fds_msg 5
             (Failure (mkReport 38 "Cannot set close-on-exec %d" [10]))
             two_fds_msg 11 [EvClose 10]).
    vm_compute. reflexivity.
Defined.

Lemma virNetMessageDupFD_spec_witness :
  virNetMessageDupFD (H := small_constants) Z dup_counter inherit_ok 38 10
    two_fds_msg 2
  = Val (inl (mkReport 1 "No FD available at slot %zu" [2]), 10, []) /\
  exists old r s' evs,
    fds two_fds_msg !! Z.to_nat 1 = Some old /\
    virNetMessageDupFD (H := small_constants) Z dup_counter inherit_ok 38 10
      two_fds_msg 1
    = Val (r, s', evs) /\
    match r with
    | inr fd => fd = snd (dup_counter 10 old) /\ 0 <= fd /\ evs = []
    | inl e =>
        report_code e = 38 /\
        closed_fds evs
        = (if bool_decide (snd (dup_counter 10 old) < 0) then []
           else [snd (dup_counter 10 old)])
    end.
Proof.
  split.
  - apply (proj1 (virNetMessageDupFD_spec (H := small_constants) Z
                    dup_counter inherit_ok 38 10 two_fds_msg 2)).
    vm_compute. discriminate.
  - apply (proj2 (virNetMessageDupFD_spec (H := small_constants) Z
                    dup_counter inherit_ok 38 10 two_fds_msg 1)).
    + vm_compute. split; [discriminate|reflexivity].
    + vm_compute. split; discriminate.
Defined.

Lemma virNetMessageAddFD_then_clear_witness :
  exists msg'' evs',
    virNetMessageClearFDs
      (set_nfds 3 (set_fds [5; 6; 10] two_fds_msg)) = Val (msg'', evs') /\
    closed_fds evs'
    = filter (fun fd => 0 <= fd) (fds two_fds_msg)
      ++ [snd (dup_counter 10 5)] /\
    nfds msg'' = 0 /\ fds msg'' = [].
Proof.
  apply (virNetMessageAddFD_then_clear Z
           dup_counter inherit_ok 38 10 two_fds_msg
           (set_nfds 3 (set_fds [5; 6; 10] two_fds_msg)) 5 11 []).
  - reflexivity.
  - vm_compute. reflexivity.
  - vm_compute. reflexivity.
Defined.

Lemma numfds_no_room_witness :
  virNetMessageEncodeNumFDs (H := small_constants)
    (set_bufferOffset 34 header_msg)
  = Val (Failure (mkReport 39 "Unable to encode number of FDs" []),
         set_bufferOffset 34 header_msg) /\
  virNetMessageDecodeNumFDs (H := small_constants)
    (set_bufferOffset 34 header_msg)
  = Val (Failure (mkReport 39 "Unable to decode number of FDs" []),
         set_bufferOffset 34 header_msg).
Proof.
  split.
  - apply (proj1 (numfds_no_room (H := small_constants)
                    (set_bufferOffset 34 header_msg)
                    ltac:(vm_compute; repeat split; intros; discriminate)
                    ltac:(vm_compute; reflexivity))).
    vm_compute. discriminate.
  - apply (proj2 (numfds_no_room (H := small_constants)
                    (set_bufferOffset 34 header_msg)
                    ltac:(vm_compute; repeat split; intros; discriminate)
                    ltac:(vm_compute; reflexivity))).
Defined.

Lemma virNetMessageEncodePayloadRaw_empty_witness :
  exists msg',
    virNetMessageEncodePayloadRaw (H := small_constants) zero_mem
      request_header_msg None 5
    = Val (Success, msg') /\
    bufferLength msg' = bufferOffset request_header_msg /\
    bufferOffset msg' = 0 /\
    wire msg' =
    be32_bytes (bufferOffset request_header_msg)
    ++ drop 4 (take (Z.to_nat (bufferOffset request_header_msg))
                 (buffer request_header_msg)).
Proof.
  apply (virNetMessageEncodePayloadRaw_empty (H := small_constants) zero_mem
           small_constants_ok request_header_msg None 5
           request_header_msg_inv).
  - vm_compute. discriminate.
  - vm_compute. split; [discriminate|reflexivity].
  - left. reflexivity.
Defined.

(** The stores of the header encoder, of the count of descriptors and of a
    typed payload of three words for which the buffer grows once. *)
Example sample_stores :
  encode_session_stores (H := small_constants) zero_mem xdr_header_words
    2 message_zero sample_ops
  = Val (sample_trace,
         [(StoreLength, (36, 0)); (StoreOffset, (36, 0));
          (StoreOffset, (36, 28)); (StoreOffset, (36, 32));
          (StoreLength, (68, 32)); (StoreOffset, (68, 44));
          (StoreFinal, (44, 44)); (StoreOffset, (44, 0))]).
Proof. vm_compute. reflexivity. Qed.

(** The stores of the header encoder and of the raw encoder called with no
    data: the one store that brings [bufferLength] down is the
    finalisation. *)
Example empty_payload_stores :
  (let* (_, log) :=
     encode_session_stores (H := small_constants) zero_mem
       xdr_header_words 1 message_zero [OpPayloadRaw None 0] in
   Val log)
  = Val [(StoreLength, (36, 0)); (StoreOffset, (36, 0));
         (StoreOffset, (36, 28)); (StoreFinal, (28, 28));
         (StoreOffset, (28, 0))].
Proof. vm_compute. reflexivity. Qed.

(** The stores of an encode in which the buffer grows. *)
Lemma encode_session_cursors_witness :
  exists log,
    encode_session_stores (H := small_constants) zero_mem xdr_header_words
      2 message_zero sample_ops = Val (sample_trace, log) /\
    (exists rest,
        log = (StoreLength, (36, 0)) :: (StoreOffset, (36, 0)) :: rest /\
        stores_ok (36, 0) rest) /\
    (0 <= bufferOffset message_zero <= bufferLength message_zero ->
     bufferLength message_zero <= 36 ->
     stores_ok (cursors message_zero) log) /\
    exists r msg rest,
      sample_trace = (r, msg) :: rest /\
      0 <= bufferOffset msg <= bufferLength msg /\
      cursors_ok msg sample_ops rest.
Proof.
  apply (encode_session_cursors (H := small_constants) zero_mem
           xdr_header_words small_constants_ok xdr_header_words_ok
           2 message_zero sample_ops sample_trace).
  - repeat constructor. apply xdr_words_ok.
  - vm_compute. reflexivity.
Defined.

(** A message with 33 descriptors, and one with 2 after its header. *)
Lemma virNetMessageEncodeNumFDs_spec_witness :
  (virNetMessageEncodeNumFDs (H := small_constants)
     (set_nfds 33 header_msg) =
   Val (Failure (mkReport 39
                   "Too many FDs to send %d, expected %d maximum"
                   [33; 32]), set_nfds 33 header_msg)) /\
  exists mem,
    virNetMessageEncodeNumFDs (H := small_constants)
      (set_nfds 2 header_msg) =
    Val (Success,
         set_bufferOffset 32 (set_buffer mem (set_nfds 2 header_msg))) /\
    length mem = 36%nat /\
    mem_load mem 28 4 = Val [x00; x00; x00; x02] /\
    be32_value [x00; x00; x00; x02] = Some 2 /\
    take 28 mem = take 28 (buffer header_msg) /\
    drop 32 mem = drop 32 (buffer header_msg).
Proof.
  split.
  - apply (proj1 (virNetMessageEncodeNumFDs_spec (H := small_constants)
                    (set_nfds 33 header_msg)
                    ltac:(simpl; lia))).
    simpl. lia.
  - apply (proj2 (virNetMessageEncodeNumFDs_spec (H := small_constants)
                    (set_nfds 2 header_msg)
                    ltac:(simpl; lia))).
    + simpl. lia.
    + vm_compute. repeat split; intros; discriminate.
    + vm_compute. discriminate.
Defined.
